(** * AI website builder: the API's services, embedded and verified

    A shallow embedding of the TypeScript services of [apps/api]:

    - [wordpress.service.ts]: the content-to-markup compiler (page JSON to
      HTML and to Gutenberg block comments) and the WP-CLI procedures;
    - [ai.service.ts]: site-content generation with its static fallback,
      and the variations of a section;
    - [billing.service.ts]: the subscription check, and what the deletion of
      a subscription writes;
    - [jobs.processor.ts]: the job dispatcher and its four handlers;
    - [packages/shared]: the page schema and the default sections.

    Conventions of the embedding.

    - A JavaScript string is a [string]: a sequence of 8-bit characters
      standing for the code units below 256.  Number-to-string conversion is
      the decimal one.
    - A synchronous method that may throw returns a [Completion]; an [async]
      method is a state transformer over the [World] (the database tables and
      everything outside the process) that ends in a [Completion].  A thrown
      exception keeps the effects performed before it.
    - [console.log] and [console.error] have no observable effect here and
      are left out.
    - What lies outside the process (the shell running WP-CLI, the OpenAI
      endpoint, [JSON.parse], [Math.random], the clock, the database's id
      generator) is an instance of the class [Platform]. *)

From Stdlib Require Import String Ascii List ZArith Lia Bool DecimalString.
From stdpp Require Import base option list strings gmap.

Open Scope string_scope.
Open Scope list_scope.

(** ** JavaScript values and library functions *)

Module Js.

(** Values that can be thrown.  The first three are instances of the
    built-in [Error] class (they carry a [message]); [ThrownValue] stands for
    anything else that a library may throw. *)
Inductive JsError : Type :=
| Error (message : string)
| TypeError (message : string)
| SyntaxError (message : string)
| ThrownValue (value : string).

(** [error instanceof Error] *)
Definition instanceofError (e : JsError) : bool :=
  match e with
  | ThrownValue _ => false
  | _ => true
  end.

(** [error.message], for an instance of [Error] *)
Definition message (e : JsError) : string :=
  match e with
  | Error m | TypeError m | SyntaxError m => m
  | ThrownValue _ => ""
  end.

(** The outcome of evaluating an expression: a value, or an exception. *)
Inductive Completion (A : Type) : Type :=
| Normal (a : A)
| Throw (e : JsError).
Arguments Normal {A} a.
Arguments Throw {A} e.

#[global] Instance Completion_ret : MRet Completion := fun A a => Normal a.
#[global] Instance Completion_bind : MBind Completion := fun A B k c =>
  match c with
  | Normal a => k a
  | Throw e => Throw e
  end.
#[global] Instance Completion_fmap : FMap Completion := fun A B f c =>
  match c with
  | Normal a => Normal (f a)
  | Throw e => Throw e
  end.

(** The double quote and the line feed, which a Rocq string literal cannot
    hold conveniently. *)
Definition dq : string := String "034" "".
Definition nl : string := String "010" "".

(** [q s] is [s] between double quotes, as in an attribute value. *)
Definition q (s : string) : string := dq +:+ s +:+ dq.

(** [arr.join(sep)] on an array of strings *)
Fixpoint join (sep : string) (arr : list string) : string :=
  match arr with
  | [] => ""
  | [x] => x
  | x :: rest => x +:+ sep +:+ join sep rest
  end.

(** [str.replace(/c/g, r)] for a single character [c] *)
Fixpoint replaceAll (c : ascii) (r : string) (str : string) : string :=
  match str with
  | "" => ""
  | String a rest =>
      (if Ascii.eqb a c then r else String a "") +:+ replaceAll c r rest
  end.

(** [str.substring(start, end)] for [start <= end] *)
Definition substring (start end_ : nat) (str : string) : string :=
  String.substring start (end_ - start) str.

Definition code (a : ascii) : nat := nat_of_ascii a.

Definition between (lo hi : nat) (a : ascii) : bool :=
  Nat.leb lo (code a) && Nat.leb (code a) hi.

(** [str.toLowerCase()] on the code units below 256: the ASCII capitals and
    the Latin-1 capitals (all of 192..222 but the multiplication sign). *)
Definition lowerChar (a : ascii) : ascii :=
  if between 65 90 a || (between 192 222 a && negb (Nat.eqb (code a) 215))
  then ascii_of_nat (code a + 32)
  else a.

Fixpoint toLowerCase (str : string) : string :=
  match str with
  | "" => ""
  | String a rest => String (lowerChar a) (toLowerCase rest)
  end.

(** The class [[a-z0-9]] *)
Definition isLowerAlnum (a : ascii) : bool :=
  between 97 122 a || between 48 57 a.

(** [str.replace(/[^a-z0-9]+/g, '-')]: every maximal run of characters
    outside the class becomes one dash.  [inRun] says that the previous
    character was already part of the run being replaced. *)
Fixpoint dashRuns (inRun : bool) (str : string) : string :=
  match str with
  | "" => ""
  | String a rest =>
      if isLowerAlnum a then String a (dashRuns false rest)
      else if inRun then dashRuns true rest
      else String "-" (dashRuns true rest)
  end.

Definition dropLeadingDash (str : string) : string :=
  match str with
  | String "-" rest => rest
  | _ => str
  end.

Fixpoint dropTrailingDash (str : string) : string :=
  match str with
  | "" => ""
  | String a rest =>
      if Ascii.eqb a "-" && String.eqb rest "" then ""
      else String a (dropTrailingDash rest)
  end.

(** [str.replace(/(^-|-$)/g, '')]: a dash at the start goes, and so does a
    dash at the end of what is left. *)
Definition stripEdgeDashes (str : string) : string :=
  dropTrailingDash (dropLeadingDash str).

(** White space of [trim] and [parseInt], below 256 *)
Definition isWhiteSpace (a : ascii) : bool :=
  between 9 13 a || Nat.eqb (code a) 32 || Nat.eqb (code a) 160.

Fixpoint trimStart (str : string) : string :=
  match str with
  | "" => ""
  | String a rest => if isWhiteSpace a then trimStart rest else str
  end.

Fixpoint trimEnd (str : string) : string :=
  match str with
  | "" => ""
  | String a rest =>
      let t := trimEnd rest in
      if isWhiteSpace a && String.eqb t "" then "" else String a t
  end.

(** [str.trim()] *)
Definition trim (str : string) : string := trimEnd (trimStart str).

Definition isDigit (a : ascii) : bool := between 48 57 a.

(** The value of the longest prefix of decimal digits, [None] when there is
    no digit. *)
Fixpoint parseDigits (acc : option Z) (str : string) : option Z :=
  match str with
  | "" => acc
  | String a rest =>
      if isDigit a
      then parseDigits
             (Some (10 * default 0%Z acc + Z.of_nat (code a - 48))%Z) rest
      else acc
  end.

(** [parseInt(str, 10)]; [None] is [NaN].  The result is the integer that
    the digits denote.  That is the number JavaScript returns as long as it
    is at most 2^53 in absolute value; beyond, JavaScript rounds to a double
    (and may approximate after the twentieth digit), which is not modelled: a
    statement about the value carries the bound. *)
Definition parseInt (str : string) : option Z :=
  match trimStart str with
  | String "-" rest => Z.opp <$> parseDigits None rest
  | String "+" rest => parseDigits None rest
  | s => parseDigits None s
  end.

(** [str.split(' ')[0]] *)
Fixpoint firstField (str : string) : string :=
  match str with
  | "" => ""
  | String a rest => if Ascii.eqb a " " then "" else String a (firstField rest)
  end.

(** [`${n}`] for an integer *)
Definition numberToString (n : Z) : string :=
  NilZero.string_of_int (Z.to_int n).

(** [value || fallback] for a configuration value: a missing value and the
    empty string are both falsy. *)
Definition orElse (value : option string) (fallback : string) : string :=
  match value with
  | Some s => if String.eqb s "" then fallback else s
  | None => fallback
  end.

(** Truthiness of an optional string *)
Definition truthy (value : option string) : bool :=
  match value with
  | Some s => negb (String.eqb s "")
  | None => false
  end.

(** The backslash *)
Definition bs : string := String "092" "".

(** One hexadecimal digit, in lower case *)
Definition hexDigit (n : nat) : ascii :=
  ascii_of_nat (if Nat.ltb n 10 then 48 + n else 87 + n).

(** What [JSON.stringify] writes for one character of a string: the double
    quote and the backslash get a backslash, the control characters below 32
    are written [\b], [\t], [\n], [\f], [\r] or [\u00xx], and every other
    character stands for itself. *)
Definition jsonEscape (a : ascii) : string :=
  if Nat.eqb (code a) 34 then bs +:+ dq
  else if Nat.eqb (code a) 92 then bs +:+ bs
  else if Nat.eqb (code a) 8 then bs +:+ "b"
  else if Nat.eqb (code a) 9 then bs +:+ "t"
  else if Nat.eqb (code a) 10 then bs +:+ "n"
  else if Nat.eqb (code a) 12 then bs +:+ "f"
  else if Nat.eqb (code a) 13 then bs +:+ "r"
  else if Nat.ltb (code a) 32 then
    bs +:+ "u00"
    +:+ String (hexDigit (Nat.div (code a) 16))
          (String (hexDigit (Nat.modulo (code a) 16)) "")
  else String a "".

Fixpoint jsonEscapeAll (str : string) : string :=
  match str with
  | "" => ""
  | String a rest => jsonEscape a +:+ jsonEscapeAll rest
  end.

(** [JSON.stringify(arr)] for an array of strings; an element that is
    [undefined] is written [null]. *)
Definition stringifyStrings (arr : list (option string)) : string :=
  "[" +:+ join ","
            (map (fun element : option string =>
                    match element with
                    | Some str => q (jsonEscapeAll str)
                    | None => "null"
                    end) arr)
  +:+ "]".

End Js.
Export Js.

(** ** The page schema of [packages/shared] *)

Module Schema.

Record TextProps := { content : string; text_variant : string }.
Record ImageProps := { src : string; alt : string }.
Record ButtonProps :=
  { text : string; href : string; button_variant : string }.
Record ListItem :=
  { item_id : string; title : string; description : string;
    icon : option string }.
Record ListProps := { items : list ListItem; layout : string }.

(** [BlockProps = TextProps | ImageProps | ButtonProps | ListProps]: the
    union is not tied to the block's [type] field. *)
Inductive BlockProps : Type :=
| OfText (p : TextProps)
| OfImage (p : ImageProps)
| OfButton (p : ButtonProps)
| OfList (p : ListProps).

(** A block.  [type] is kept a string: the compilers have a [default:]
    branch for values outside ['text' | 'image' | 'button' | 'list']. *)
Record Block :=
  { block_id : string; block_type : string; props : BlockProps }.

Record Section :=
  { section_id : string; section_type : string; section_variant : nat;
    blocks : list Block }.

Record Page :=
  { page_title : string; slug : string; sections : list Section }.

Record SiteSettings :=
  { businessName : string; industry : string; stylePreset : string;
    accentColor : string; primaryCta : string; contactEmail : string;
    contactPhone : string }.

Record SiteContent := { pages : list Page; settings : SiteSettings }.

End Schema.
Export Schema.

(** ** The world outside the process *)

Module Runtime.

(** What [JSON.parse] makes of the model's answer, as far as
    [buildHomePage] reads it: [null], or an object whose four texts are
    strings and whose two arrays may be missing.  This is the shape that
    the parameter [data] of [buildHomePage] declares, with the two arrays
    allowed to be missing.  An answer that parses to an object without one
    of the texts lies outside it: the code makes a text block without a
    content of it, which the schema has no place for and which is not
    modelled. *)
Record ServiceJson := { service_title : string; service_description : string }.
Record TestimonialJson := { testimonial_name : string; quote : string }.
Record HomeData :=
  { heroHeadline : string; heroSubheadline : string; aboutTitle : string;
    aboutText : string; services : option (list ServiceJson);
    testimonials : option (list TestimonialJson) }.
Inductive AiJson : Type :=
| JsonNull
| JsonObject (data : HomeData).

(** The environment of the process.  [Ext] is the state of everything
    outside it; each operation may change that state. *)
Class Platform := {
  Ext : Type;
  (** the value of one call of [Math.random()] *)
  Rand : Type;
  (** [promisify(exec)(command, ...)]: [stdout] and [stderr], or a rejection *)
  execAsync : string -> Ext -> Completion (string * string) * Ext;
  (** [openai.chat.completions.create] with the given prompt, reduced to
      [response.choices[0]?.message?.content] *)
  chatCompletionsCreate : string -> Ext -> Completion (option string) * Ext;
  (** [JSON.parse] *)
  JSON_parse : string -> Completion AiJson;
  (** [Math.random()] *)
  Math_random : Ext -> Rand * Ext;
  (** [r.toString(36)] *)
  Rand_toString36 : Rand -> string;
  (** [Math.floor(r * k)] *)
  Rand_floorTimes : Rand -> Z -> Z;
  (** [new Date().getFullYear()] *)
  Date_getFullYear : Ext -> Z;
  (** the [cuid()] default of the database's id columns *)
  cuid : Ext -> string * Ext
}.

(** *** The tables of [schema.prisma] that the services touch *)

Inductive JobStatus := pending | running | completed | failed.
Inductive SiteStatus :=
  provisioning | generating | draft | published | site_error.
Inductive SubscriptionStatus :=
  active | canceled | past_due | trialing | incomplete.

#[global] Instance JobStatus_eq_dec : EqDecision JobStatus.
Proof. solve_decision. Defined.
#[global] Instance SiteStatus_eq_dec : EqDecision SiteStatus.
Proof. solve_decision. Defined.
#[global] Instance SubscriptionStatus_eq_dec : EqDecision SubscriptionStatus.
Proof. solve_decision. Defined.

(** A [Job] row.  [job_statuses] is no column of the table: it keeps the
    values that have been written to [status], oldest first, which is what
    a reader of the row sees over time, so that the order of the writes can
    be stated. *)
Record JobRow :=
  { job_siteId : string; job_type : string; job_status : JobStatus;
    job_error : option string; job_statuses : list JobStatus }.

Record JobLogRow := { log_jobId : string; log_message : string }.

(** A [Site] row, with the owner's e-mail and the tenant's slug that
    [include: { owner: true, tenant: true }] joins to it.  The [Int] columns
    of the schema ([wpSiteId] here, [versionNumber] below) are integers
    without the bound of the column. *)
Record SiteRow :=
  { site_name : string; site_status : SiteStatus;
    wpSiteId : option Z; wpAdminUrl : option string;
    wpSiteUrl : option string; currentVersionId : option string;
    publishedVersionId : option string;
    site_owner_email : string; site_tenant_slug : string }.

Record SiteVersionRow :=
  { version_id : string; version_siteId : string; versionNumber : Z;
    pageJson : SiteContent }.

Record StripeSubscriptionRow :=
  { sub_userId : string; stripeCustomerId : string;
    stripeSubscriptionId : string; sub_status : SubscriptionStatus }.

(** The database and the outside.  [Job] and [Site] rows are keyed by
    their [id]; [SiteVersion] rows are kept in the order of creation. *)
Record World `{Platform} :=
  { jobs : gmap string JobRow;
    jobLogs : list JobLogRow;
    sites : gmap string SiteRow;
    siteVersions : list SiteVersionRow;
    stripeSubscriptions : list StripeSubscriptionRow;
    ext : Ext }.

Section Monad.
Context `{Platform}.

(** An [async] computation *)
Definition M (A : Type) : Type := World -> Completion A * World.

#[global] Instance M_ret : MRet M := fun A a w => (Normal a, w).
#[global] Instance M_bind : MBind M := fun A B k m w =>
  match m w with
  | (Normal a, w') => k a w'
  | (Throw e, w') => (Throw e, w')
  end.

(** [throw e] *)
Definition throw {A} (e : JsError) : M A := fun w => (Throw e, w).

(** [try { body } catch (error) { handler }] *)
Definition tryCatch {A} (body : M A) (handler : JsError -> M A) : M A :=
  fun w =>
    match body w with
    | (Normal a, w') => (Normal a, w')
    | (Throw e, w') => handler e w'
    end.

(** A synchronous call inside an [async] method *)
Definition sync {A} (c : Completion A) : M A := fun w => (c, w).

Definition setExt (w : World) (x : Ext) : World :=
  {| jobs := jobs w; jobLogs := jobLogs w; sites := sites w;
     siteVersions := siteVersions w;
     stripeSubscriptions := stripeSubscriptions w; ext := x |}.

(** An operation of the platform that may reject *)
Definition call {A} (op : Ext -> Completion A * Ext) : M A := fun w =>
  let (r, x) := op (ext w) in (r, setExt w x).

(** An operation of the platform that always returns *)
Definition draw {A} (op : Ext -> A * Ext) : M A := fun w =>
  let (a, x) := op (ext w) in (Normal a, setExt w x).

(** A read of the database or of the clock *)
Definition reads {A} (f : World -> A) : M A := fun w => (Normal (f w), w).

(** [generateId()] of [packages/shared]:
    [Math.random().toString(36).substring(2, 15)] *)
Definition generateId : M string :=
  r ← draw Math_random; mret (substring 2 15 (Rand_toString36 r)).

(** [new Date().getFullYear()] *)
Definition getFullYear : M Z := reads (fun w => Date_getFullYear (ext w)).

End Monad.

End Runtime.
Export Runtime.

(** ** [WordPressService] *)

Module WordPress.

(** The service object: the injected configuration and the two private
    fields the constructor sets from it. *)
Record WordPressService :=
  { configService : gmap string string;
    wpCliPath : string;
    wpMultisiteUrl : string }.

Definition new (config : gmap string string) : WordPressService :=
  {| configService := config;
     wpCliPath := orElse (config !! "WP_CLI_PATH") "wp";
     wpMultisiteUrl :=
       orElse (config !! "WP_MULTISITE_URL") "http://localhost:8080" |}.

(** The [Site] and [ProvisionResult] interfaces of the file *)
Record Site :=
  { site_id : string; name : string; owner_email : string;
    tenant_slug : string }.

Record ProvisionResult :=
  { wpSiteId : Z; wpAdminUrl : string; wpSiteUrl : string }.

(** *** The content-to-markup compiler *)

Definition getTextTag (this : WordPressService) (variant : string) : string :=
  if String.eqb variant "h1" then "h1"
  else if String.eqb variant "h2" then "h2"
  else if String.eqb variant "h3" then "h3"
  else if String.eqb variant "small" then "small"
  else "p".

Definition escapeHtml (this : WordPressService) (str : string) : string :=
  replaceAll "'" "&#039;"
    (replaceAll "034" "&quot;"
      (replaceAll ">" "&gt;"
        (replaceAll "<" "&lt;"
          (replaceAll "&" "&amp;" str)))).

(** What V8 throws when a method is called on [undefined] *)
Definition undefinedHasNo (method : string) : JsError :=
  TypeError
    ("Cannot read properties of undefined (reading '" +:+ method +:+ "')").

(** [block.props as TextProps] and the like are unchecked.  On props of
    another shape the field the branch escapes ([content], [alt], [text]) is
    [undefined], so [escapeHtml] calls [replace] on [undefined]; in the list
    branch [items] is [undefined] and [map] is called on it. *)
Definition asTextProps (p : BlockProps) : Completion TextProps :=
  match p with
  | OfText t => Normal t
  | _ => Throw (undefinedHasNo "replace")
  end.

Definition asImageProps (p : BlockProps) : Completion ImageProps :=
  match p with
  | OfImage i => Normal i
  | _ => Throw (undefinedHasNo "replace")
  end.

Definition asButtonProps (p : BlockProps) : Completion ButtonProps :=
  match p with
  | OfButton b => Normal b
  | _ => Throw (undefinedHasNo "replace")
  end.

Definition asListProps (p : BlockProps) : Completion ListProps :=
  match p with
  | OfList l => Normal l
  | _ => Throw (undefinedHasNo "map")
  end.

Definition compileBlockToHtml (this : WordPressService) (block : Block)
    (accentColor : string) : Completion string :=
  if String.eqb (block_type block) "text" then
    props ← asTextProps (props block);
    let tag := getTextTag this (text_variant props) in
    mret ("<" +:+ tag +:+ ">" +:+ escapeHtml this (content props)
          +:+ "</" +:+ tag +:+ ">")
  else if String.eqb (block_type block) "image" then
    props ← asImageProps (props block);
    mret ("<figure class=" +:+ q "wp-block-image" +:+ "><img src="
          +:+ q (src props) +:+ " alt=" +:+ q (escapeHtml this (alt props))
          +:+ " /></figure>")
  else if String.eqb (block_type block) "button" then
    props ← asButtonProps (props block);
    let bgColor :=
      if String.eqb (button_variant props) "primary"
      then accentColor else "transparent" in
    let textColor :=
      if String.eqb (button_variant props) "primary"
      then "#ffffff" else accentColor in
    mret ("<div class=" +:+ q "wp-block-button" +:+ "><a class="
          +:+ q "wp-block-button__link" +:+ " href=" +:+ q (href props)
          +:+ " style="
          +:+ q ("background-color:" +:+ bgColor +:+ ";color:" +:+ textColor)
          +:+ ">" +:+ escapeHtml this (text props) +:+ "</a></div>")
  else if String.eqb (block_type block) "list" then
    props ← asListProps (props block);
    let items :=
      join ""
        (map (fun item : ListItem =>
                "<li><strong>" +:+ escapeHtml this (title item)
                +:+ "</strong><p>" +:+ escapeHtml this (description item)
                +:+ "</p></li>")
             (items props)) in
    mret ("<ul class=" +:+ q ("wp-block-list layout-" +:+ layout props)
          +:+ ">" +:+ items +:+ "</ul>")
  else mret "".

Definition compileBlockToGutenberg (this : WordPressService) (block : Block)
    (accentColor : string) : Completion string :=
  if String.eqb (block_type block) "text" then
    props ← asTextProps (props block);
    let escaped := escapeHtml this (content props) in
    if String.eqb (text_variant props) "h1" then
      mret ("<!-- wp:heading {" +:+ q "level" +:+ ":1} -->" +:+ nl
            +:+ "<h1 class=" +:+ q "wp-block-heading" +:+ ">" +:+ escaped
            +:+ "</h1>" +:+ nl +:+ "<!-- /wp:heading -->")
    else if String.eqb (text_variant props) "h2" then
      mret ("<!-- wp:heading -->" +:+ nl
            +:+ "<h2 class=" +:+ q "wp-block-heading" +:+ ">" +:+ escaped
            +:+ "</h2>" +:+ nl +:+ "<!-- /wp:heading -->")
    else if String.eqb (text_variant props) "h3" then
      mret ("<!-- wp:heading {" +:+ q "level" +:+ ":3} -->" +:+ nl
            +:+ "<h3 class=" +:+ q "wp-block-heading" +:+ ">" +:+ escaped
            +:+ "</h3>" +:+ nl +:+ "<!-- /wp:heading -->")
    else if String.eqb (text_variant props) "small" then
      mret ("<!-- wp:paragraph {" +:+ q "fontSize" +:+ ":" +:+ q "small"
            +:+ "} -->" +:+ nl
            +:+ "<p class=" +:+ q "has-small-font-size" +:+ ">" +:+ escaped
            +:+ "</p>" +:+ nl +:+ "<!-- /wp:paragraph -->")
    else
      mret ("<!-- wp:paragraph -->" +:+ nl +:+ "<p>" +:+ escaped +:+ "</p>"
            +:+ nl +:+ "<!-- /wp:paragraph -->")
  else if String.eqb (block_type block) "image" then
    props ← asImageProps (props block);
    mret ("<!-- wp:image -->" +:+ nl
          +:+ "<figure class=" +:+ q "wp-block-image" +:+ "><img src="
          +:+ q (src props) +:+ " alt=" +:+ q (escapeHtml this (alt props))
          +:+ "/></figure>" +:+ nl +:+ "<!-- /wp:image -->")
  else if String.eqb (block_type block) "button" then
    props ← asButtonProps (props block);
    let bgColor :=
      if String.eqb (button_variant props) "primary"
      then accentColor else "transparent" in
    mret ("<!-- wp:buttons -->" +:+ nl
          +:+ "<div class=" +:+ q "wp-block-buttons"
          +:+ "><!-- wp:button {" +:+ q "backgroundColor" +:+ ":"
          +:+ q bgColor +:+ "} -->" +:+ nl
          +:+ "<div class=" +:+ q "wp-block-button" +:+ "><a class="
          +:+ q "wp-block-button__link wp-element-button" +:+ " href="
          +:+ q (href props) +:+ ">" +:+ escapeHtml this (text props)
          +:+ "</a></div>" +:+ nl +:+ "<!-- /wp:button --></div>" +:+ nl
          +:+ "<!-- /wp:buttons -->")
  else if String.eqb (block_type block) "list" then
    props ← asListProps (props block);
    let items :=
      join ""
        (map (fun item : ListItem =>
                "<li><strong>" +:+ escapeHtml this (title item)
                +:+ "</strong> - " +:+ escapeHtml this (description item)
                +:+ "</li>")
             (items props)) in
    mret ("<!-- wp:list -->" +:+ nl
          +:+ "<ul class=" +:+ q "wp-block-list" +:+ ">" +:+ items +:+ "</ul>"
          +:+ nl +:+ "<!-- /wp:list -->")
  else mret "".

Definition compileSectionToHtml (this : WordPressService) (section : Section)
    (accentColor : string) : Completion string :=
  compiled ← mapM (fun block => compileBlockToHtml this block accentColor)
                  (blocks section);
  let blocks := join nl compiled in
  mret ("<section class="
        +:+ q ("wp-block-group section-" +:+ section_type section)
        +:+ " data-section-id=" +:+ q (section_id section) +:+ ">"
        +:+ blocks +:+ "</section>").

Definition compileSectionToGutenberg (this : WordPressService)
    (section : Section) (accentColor : string) : Completion string :=
  compiled ← mapM (fun block => compileBlockToGutenberg this block accentColor)
                  (blocks section);
  let blocks := join nl compiled in
  mret ("<!-- wp:group {" +:+ q "className" +:+ ":"
        +:+ q ("section-" +:+ section_type section) +:+ "} -->" +:+ nl
        +:+ "<div class="
        +:+ q ("wp-block-group section-" +:+ section_type section) +:+ ">"
        +:+ blocks +:+ "</div>" +:+ nl +:+ "<!-- /wp:group -->").

Definition compilePageToHtml (this : WordPressService) (page : Page)
    (accentColor : string) : Completion string :=
  compiled ← mapM (fun section => compileSectionToHtml this section accentColor)
                  (sections page);
  mret (join nl compiled).

Definition compilePageToGutenberg (this : WordPressService) (page : Page)
    (accentColor : string) : Completion string :=
  compiled ← mapM (fun section =>
                     compileSectionToGutenberg this section accentColor)
                  (sections page);
  mret (join (nl +:+ nl) compiled).

(** [str.replace(/'/g, "'\\''")] *)
Definition escapeShell (this : WordPressService) (str : string) : string :=
  replaceAll "'" "'\''" str.

(** *** The WP-CLI procedures *)

Section Procedures.
Context `{Platform}.

(** The [fullCommand] of [runWpCli] *)
Definition fullCommandOf (this : WordPressService) (command : string)
    : string :=
  let wpPath := orElse (configService this !! "WP_PATH") "/var/www/html" in
  wpCliPath this +:+ " " +:+ command +:+ " --path=" +:+ wpPath
  +:+ " --allow-root".

Definition runWpCli (this : WordPressService) (command : string) : M string :=
  let fullCommand := fullCommandOf this command in
  tryCatch
    (out ← call (execAsync fullCommand);
     mret (trim (fst out)))
    (fun error => throw error).

(** The slug [provisionSite] derives from the site's name and id *)
Definition siteSlugOf (site : Site) : string :=
  let slug :=
    substring 0 50
      (stripEdgeDashes (dashRuns false (toLowerCase (name site)))) in
  slug +:+ "-" +:+ substring 0 8 (site_id site).

(** The [site create] command of [provisionSite] *)
Definition siteCreateCommand (siteSlug siteTitle adminEmail : string) : string :=
  "site create --slug=" +:+ q siteSlug +:+ " --title=" +:+ q siteTitle
  +:+ " --email=" +:+ q adminEmail +:+ " --porcelain".

Definition provisionSite (this : WordPressService) (site : Site)
    : M ProvisionResult :=
  let siteSlug := siteSlugOf site in
  let siteUrl := wpMultisiteUrl this +:+ "/" +:+ siteSlug in
  let adminEmail := owner_email site in
  let siteTitle := name site in
  tryCatch
    (createOutput ←
       runWpCli this (siteCreateCommand siteSlug siteTitle adminEmail);
     match parseInt createOutput with
     | None =>
         throw (Error ("Failed to parse site ID from output: "
                       +:+ createOutput))
     | Some wpSiteId =>
         mret {| wpSiteId := wpSiteId;
                 wpAdminUrl := siteUrl +:+ "/wp-admin";
                 wpSiteUrl := siteUrl |}
     end)
    (fun error =>
       if bool_decide (configService this !! "NODE_ENV" = Some "development")
       then
         r ← draw Math_random;
         let mockSiteId := Rand_floorTimes r 10000 in
         mret {| wpSiteId := mockSiteId;
                 wpAdminUrl :=
                   wpMultisiteUrl this +:+ "/" +:+ siteSlug +:+ "/wp-admin";
                 wpSiteUrl := wpMultisiteUrl this +:+ "/" +:+ siteSlug |}
       else throw error).

Definition urlFlagOf (this : WordPressService) (wpSiteId : Z) : string :=
  "--url=" +:+ wpMultisiteUrl this +:+ "/?blog_id=" +:+ numberToString wpSiteId.

Definition applyThemeAndPlugins (this : WordPressService) (wpSiteId : Z)
    : M unit :=
  tryCatch
    (let urlFlag := urlFlagOf this wpSiteId in
     _ ← runWpCli this ("theme activate twentytwentyfour " +:+ urlFlag);
     mret tt)
    (fun error =>
       if bool_decide (configService this !! "NODE_ENV" = Some "development")
       then mret tt
       else throw error).

(** The body of [for (const page of content.pages)] *)
Definition publishPage (this : WordPressService) (urlFlag accentColor : string)
    (page : Page) : M unit :=
  htmlContent ← sync (compilePageToHtml this page accentColor);
  gutenbergBlocks ← sync (compilePageToGutenberg this page accentColor);
  existingPages ←
    runWpCli this
      ("post list --post_type=page --name=" +:+ q (slug page)
       +:+ " --format=ids " +:+ urlFlag);
  if negb (String.eqb existingPages "") then
    let pageId := firstField existingPages in
    _ ← runWpCli this
          ("post update " +:+ pageId +:+ " --post_content='"
           +:+ escapeShell this gutenbergBlocks
           +:+ "' --post_status=publish " +:+ urlFlag);
    mret tt
  else
    _ ← runWpCli this
          ("post create --post_type=page --post_title=" +:+ q (page_title page)
           +:+ " --post_name=" +:+ q (slug page) +:+ " --post_content='"
           +:+ escapeShell this gutenbergBlocks
           +:+ "' --post_status=publish " +:+ urlFlag);
    mret tt.

Definition publishVersion (this : WordPressService) (wpSiteId : Z)
    (content : SiteContent) : M unit :=
  tryCatch
    (let urlFlag := urlFlagOf this wpSiteId in
     _ ← mapM (publishPage this urlFlag (accentColor (settings content)))
              (pages content);
     match find (fun p : Page => String.eqb (slug p) "home") (pages content) with
     | Some homePage =>
         homePageId ←
           runWpCli this
             ("post list --post_type=page --name=" +:+ q "home"
              +:+ " --format=ids " +:+ urlFlag);
         if negb (String.eqb homePageId "") then
           _ ← runWpCli this ("option update show_on_front page " +:+ urlFlag);
           _ ← runWpCli this
                 ("option update page_on_front " +:+ firstField homePageId
                  +:+ " " +:+ urlFlag);
           mret tt
         else mret tt
     | None => mret tt
     end)
    (fun error =>
       if bool_decide (configService this !! "NODE_ENV" = Some "development")
       then mret tt
       else throw error).

End Procedures.

End WordPress.

(** ** [AiService] *)

Module Ai.

(** The service object: [openai] is the client, present when the
    configuration holds a (non-empty) [OPENAI_API_KEY]. *)
Record AiService :=
  { configService : gmap string string;
    openai : option string }.

Definition new (config : gmap string string) : AiService :=
  {| configService := config;
     openai :=
       if truthy (config !! "OPENAI_API_KEY")
       then config !! "OPENAI_API_KEY" else None |}.

(** The copyright sign *)
Definition copyrightSign : string := String "169" "".

(** A line [  key: value,] of the JSON sample in the prompt *)
Definition sampleField (key value : string) : string :=
  q key +:+ ": " +:+ q value.

Definition homePagePrompt (settings : SiteSettings) : string :=
  join nl
    [ "Generate website copy for a " +:+ industry settings
      +:+ " business called " +:+ q (businessName settings) +:+ ".";
      "Style: " +:+ stylePreset settings;
      "Primary action: "
      +:+ (if String.eqb (primaryCta settings) "call" then "Call us"
           else if String.eqb (primaryCta settings) "book"
                then "Book appointment" else "Get a quote");
      "";
      "Generate JSON with this structure:";
      "{";
      "  " +:+ sampleField "heroHeadline"
                 "short compelling headline (max 10 words)" +:+ ",";
      "  " +:+ sampleField "heroSubheadline" "supporting text (max 25 words)"
      +:+ ",";
      "  " +:+ sampleField "aboutTitle" "section title" +:+ ",";
      "  " +:+ sampleField "aboutText" "about paragraph (50-75 words)" +:+ ",";
      "  " +:+ q "services" +:+ ": [";
      "    { " +:+ sampleField "title" "Service 1" +:+ ", "
      +:+ sampleField "description" "brief description" +:+ " },";
      "    { " +:+ sampleField "title" "Service 2" +:+ ", "
      +:+ sampleField "description" "brief description" +:+ " },";
      "    { " +:+ sampleField "title" "Service 3" +:+ ", "
      +:+ sampleField "description" "brief description" +:+ " }";
      "  ],";
      "  " +:+ q "testimonials" +:+ ": [";
      "    { " +:+ sampleField "name" "Customer Name" +:+ ", "
      +:+ sampleField "quote" "brief testimonial" +:+ " },";
      "    { " +:+ sampleField "name" "Customer Name" +:+ ", "
      +:+ sampleField "quote" "brief testimonial" +:+ " }";
      "  ]";
      "}";
      "";
      "Respond ONLY with valid JSON, no markdown or explanation." ].

Definition textBlock (id content variant : string) : Block :=
  {| block_id := id; block_type := "text";
     props := OfText {| content := content; text_variant := variant |} |}.

Definition buttonBlock (id text href variant : string) : Block :=
  {| block_id := id; block_type := "button";
     props := OfButton {| text := text; href := href;
                          button_variant := variant |} |}.

Definition imageBlock (id src alt : string) : Block :=
  {| block_id := id; block_type := "image";
     props := OfImage {| src := src; alt := alt |} |}.

Definition listBlock (id : string) (items : list ListItem) (layout : string)
    : Block :=
  {| block_id := id; block_type := "list";
     props := OfList {| items := items; layout := layout |} |}.

(** What [JSON.parse] makes of the model's answer, as far as
    [generateSectionVariations] reads it: [null], a value that is no array,
    or an array whose elements are [null] or objects with the two strings
    that the callback's parameter type names.  An element that lacks one of
    the two lies outside it: the code makes a text block without a content
    of it, which the schema has no place for and which is not modelled. *)
Record Variation := { headline : string; subtext : string }.

Inductive VariationsJson : Type :=
| VariationsNull
| VariationsNotArray
| VariationsArray (elements : list (option Variation)).

Class VariationsReader :=
  { JSON_parse_variations : string -> Completion VariationsJson }.

(** [(b.props as TextProps).content]: [undefined] on props of another
    shape *)
Definition contentOf (block : Block) : option string :=
  match props block with
  | OfText t => Some (content t)
  | _ => None
  end.

(** [props.variant] of a block's props read as [TextProps]: text props and
    button props have a [variant], the others have none. *)
Definition variantOf (p : BlockProps) : option string :=
  match p with
  | OfText t => Some (text_variant t)
  | OfButton b => Some (button_variant b)
  | _ => None
  end.

(** [{ ...props, content }], reached only for props that have a [variant].
    On text props it replaces the content.  Button props with a text variant
    gain a [content] and keep their [variant]; what they also keep ([text]
    and [href]) is not read on a block of type [text], so they are text props
    from then on. *)
Definition withContent (p : BlockProps) (content_ : string) : BlockProps :=
  match p with
  | OfText t => OfText {| content := content_; text_variant := text_variant t |}
  | OfButton b =>
      OfText {| content := content_; text_variant := button_variant b |}
  | _ => p
  end.

(** [{ ...section, id }] *)
Definition sectionWithId (section : Section) (id : string) : Section :=
  {| section_id := id; section_type := section_type section;
     section_variant := section_variant section; blocks := blocks section |}.

(** [{ ...block, id }] *)
Definition blockWithId (block : Block) (id : string) : Block :=
  {| block_id := id; block_type := block_type block; props := props block |}.

Definition variationsPrompt (section : Section) (settings : SiteSettings)
    : string :=
  join nl
    [ "Generate 3 variations of " +:+ section_type section
      +:+ " section content for a " +:+ industry settings
      +:+ " business called " +:+ q (businessName settings) +:+ ".";
      "Style: " +:+ stylePreset settings;
      "";
      "Current content: "
      +:+ stringifyStrings
            (map contentOf
               (filter (fun b : Block => block_type b = "text")
                       (blocks section)));
      "";
      "Respond with JSON array of 3 variations, each with:";
      "{ " +:+ sampleField "headline" "..." +:+ ", "
      +:+ sampleField "subtext" "..." +:+ " }";
      "";
      "Respond ONLY with valid JSON array." ].

Section Generation.
Context `{Platform}.

(** [data.field] for one of the four texts: a property read, which throws
    on [null] *)
Definition readText (data : AiJson) (field : string)
    (get : HomeData -> string) : M string :=
  match data with
  | JsonNull =>
      throw (TypeError ("Cannot read properties of null (reading '"
                        +:+ field +:+ "')"))
  | JsonObject d => mret (get d)
  end.

(** [data.field.map(f)] for one of the two arrays: throws on [null] and on
    a missing array *)
Definition mapArray {A} (data : AiJson) (field : string)
    (get : HomeData -> option (list A)) (f : A -> M ListItem)
    : M (list ListItem) :=
  match data with
  | JsonNull =>
      throw (TypeError ("Cannot read properties of null (reading '"
                        +:+ field +:+ "')"))
  | JsonObject d =>
      match get d with
      | None => throw (WordPress.undefinedHasNo "map")
      | Some arr => mapM f arr
      end
  end.

Definition footerText (year : Z) (settings : SiteSettings) : string :=
  copyrightSign +:+ " " +:+ numberToString year +:+ " "
  +:+ businessName settings +:+ ". All rights reserved.".

Definition buildHomePage (this : AiService) (settings : SiteSettings)
    (data : AiJson) : M Page :=
  let ctaText :=
    if String.eqb (primaryCta settings) "call" then "Call Us Today"
    else if String.eqb (primaryCta settings) "book" then "Book Now"
    else "Get a Quote" in
  (* Hero *)
  heroId ← generateId;
  h1 ← generateId; heroHeadline ← readText data "heroHeadline" heroHeadline;
  h2 ← generateId;
  heroSubheadline ← readText data "heroSubheadline" heroSubheadline;
  h3 ← generateId;
  h4 ← generateId;
  (* About *)
  aboutId ← generateId;
  a1 ← generateId; aboutTitle ← readText data "aboutTitle" aboutTitle;
  a2 ← generateId; aboutText ← readText data "aboutText" aboutText;
  a3 ← generateId;
  (* Services *)
  servicesId ← generateId;
  s1 ← generateId;
  s2 ← generateId;
  serviceItems ←
    mapArray data "services" services
      (fun s : ServiceJson =>
         id ← generateId;
         mret {| item_id := id; title := service_title s;
                 description := service_description s; icon := None |});
  (* Testimonials *)
  testimonialsId ← generateId;
  t1 ← generateId;
  t2 ← generateId;
  testimonialItems ←
    mapArray data "testimonials" testimonials
      (fun t : TestimonialJson =>
         id ← generateId;
         mret {| item_id := id; title := testimonial_name t;
                 description := quote t; icon := None |});
  (* Contact CTA *)
  contactId ← generateId;
  c1 ← generateId;
  c2 ← generateId;
  c3 ← generateId;
  c4 ← generateId;
  (* Footer *)
  footerId ← generateId;
  f1 ← generateId;
  year ← getFullYear;
  let sections :=
    [ {| section_id := heroId; section_type := "hero"; section_variant := 1;
         blocks :=
           [ textBlock h1 heroHeadline "h1";
             textBlock h2 heroSubheadline "body";
             buttonBlock h3 ctaText "#contact" "primary";
             imageBlock h4 "/placeholder-hero.jpg" "Hero image" ] |};
      {| section_id := aboutId; section_type := "about"; section_variant := 1;
         blocks :=
           [ textBlock a1 aboutTitle "h2";
             textBlock a2 aboutText "body";
             imageBlock a3 "/placeholder-about.jpg" "About us" ] |};
      {| section_id := servicesId; section_type := "services";
         section_variant := 1;
         blocks :=
           [ textBlock s1 "Our Services" "h2";
             listBlock s2 serviceItems "grid" ] |};
      {| section_id := testimonialsId; section_type := "testimonials";
         section_variant := 1;
         blocks :=
           [ textBlock t1 "What Our Clients Say" "h2";
             listBlock t2 testimonialItems "list" ] |};
      {| section_id := contactId; section_type := "contact";
         section_variant := 1;
         blocks :=
           [ textBlock c1 "Get In Touch" "h2";
             textBlock c2 ("Email: " +:+ contactEmail settings) "body";
             textBlock c3 ("Phone: " +:+ contactPhone settings) "body";
             buttonBlock c4 ctaText ("tel:" +:+ contactPhone settings)
               "primary" ] |};
      {| section_id := footerId; section_type := "footer";
         section_variant := 1;
         blocks := [ textBlock f1 (footerText year settings) "small" ] |} ] in
  mret {| page_title := "Home"; slug := "home"; sections := sections |}.

Definition createFallbackHomePage (this : AiService) (settings : SiteSettings)
    : M Page :=
  buildHomePage this settings
    (JsonObject
       {| heroHeadline := "Welcome to " +:+ businessName settings;
          heroSubheadline :=
            "Your trusted partner in " +:+ toLowerCase (industry settings)
            +:+ ". We deliver excellence with every interaction.";
          aboutTitle := "About Us";
          aboutText :=
            businessName settings
            +:+ " has been proudly serving our community with top-quality "
            +:+ toLowerCase (industry settings)
            +:+ " services. Our dedicated team brings years of experience and a commitment to excellence that sets us apart.";
          services :=
            Some
              [ {| service_title := "Professional Service";
                   service_description :=
                     "Expert solutions tailored to your needs" |};
                {| service_title := "Quality Guaranteed";
                   service_description :=
                     "We stand behind our work with confidence" |};
                {| service_title := "Fast Turnaround";
                   service_description :=
                     "Quick and efficient service delivery" |} ];
          testimonials :=
            Some
              [ {| testimonial_name := "John D.";
                   quote :=
                     "Exceptional service! They exceeded all my expectations." |};
                {| testimonial_name := "Sarah M.";
                   quote :=
                     "Professional, reliable, and truly caring. Highly recommended!" |} ] |}).

Definition generateHomePage (this : AiService) (settings : SiteSettings)
    : M Page :=
  response ← call (chatCompletionsCreate (homePagePrompt settings));
  let content := default "" response in
  match JSON_parse content with
  | Throw _ => createFallbackHomePage this settings
  | Normal data => buildHomePage this settings data
  end.

Definition contactCtaText (settings : SiteSettings) : string :=
  if String.eqb (primaryCta settings) "call" then "Call Now"
  else if String.eqb (primaryCta settings) "book" then "Book Appointment"
  else "Request Quote".

Definition generateContactPage (this : AiService) (settings : SiteSettings)
    : M Page :=
  contactId ← generateId;
  c1 ← generateId;
  c2 ← generateId;
  c3 ← generateId;
  c4 ← generateId;
  c5 ← generateId;
  footerId ← generateId;
  f1 ← generateId;
  year ← getFullYear;
  mret
    {| page_title := "Contact"; slug := "contact";
       sections :=
         [ {| section_id := contactId; section_type := "contact";
              section_variant := 1;
              blocks :=
                [ textBlock c1 "Contact Us" "h1";
                  textBlock c2
                    ("We'd love to hear from you. Reach out to "
                     +:+ businessName settings +:+ " today.") "body";
                  textBlock c3 ("Email: " +:+ contactEmail settings) "body";
                  textBlock c4 ("Phone: " +:+ contactPhone settings) "body";
                  buttonBlock c5 (contactCtaText settings)
                    ("tel:" +:+ contactPhone settings) "primary" ] |};
           {| section_id := footerId; section_type := "footer";
              section_variant := 1;
              blocks :=
                [ textBlock f1 (footerText year settings) "small" ] |} ] |}.

Definition generateFallbackContent (this : AiService) (settings : SiteSettings)
    : M SiteContent :=
  homePage ← createFallbackHomePage this settings;
  contactId ← generateId;
  c1 ← generateId;
  c2 ← generateId;
  c3 ← generateId;
  c4 ← generateId;
  c5 ← generateId;
  footerId ← generateId;
  f1 ← generateId;
  year ← getFullYear;
  let contactPage :=
    {| page_title := "Contact"; slug := "contact";
       sections :=
         [ {| section_id := contactId; section_type := "contact";
              section_variant := 1;
              blocks :=
                [ textBlock c1 "Contact Us" "h1";
                  textBlock c2
                    ("We'd love to hear from you. Reach out to "
                     +:+ businessName settings +:+ " today.") "body";
                  textBlock c3 ("Email: " +:+ contactEmail settings) "body";
                  textBlock c4 ("Phone: " +:+ contactPhone settings) "body";
                  buttonBlock c5 (contactCtaText settings)
                    ("tel:" +:+ contactPhone settings) "primary" ] |};
           {| section_id := footerId; section_type := "footer";
              section_variant := 1;
              blocks :=
                [ textBlock f1 (footerText year settings) "small" ] |} ] |} in
  mret {| pages := [homePage; contactPage]; settings := settings |}.

Definition generateSiteContent (this : AiService) (settings : SiteSettings)
    : M SiteContent :=
  match openai this with
  | None => generateFallbackContent this settings
  | Some _ =>
      tryCatch
        (homePage ← generateHomePage this settings;
         contactPage ← generateContactPage this settings;
         mret {| pages := [homePage; contactPage]; settings := settings |})
        (fun error => generateFallbackContent this settings)
  end.

End Generation.

Section Variations.
Context `{Platform} `{VariationsReader}.

(** [[section, { ...section, id: generateId() },
      { ...section, id: generateId() }]] *)
Definition threeCopies (section : Section) : M (list Section) :=
  id1 ← generateId;
  id2 ← generateId;
  mret [section; sectionWithId section id1; sectionWithId section id2].

(** [v.field] for one of the two strings of a variation: a property read,
    which throws on [null] *)
Definition readVariation (v : option Variation) (field : string)
    (get : Variation -> string) : M string :=
  match v with
  | None =>
      throw (TypeError ("Cannot read properties of null (reading '"
                        +:+ field +:+ "')"))
  | Some variation => mret (get variation)
  end.

(** The callback of [section.blocks.map] *)
Definition varyBlock (v : option Variation) (block : Block) : M Block :=
  let keep := id ← generateId; mret (blockWithId block id) in
  if String.eqb (block_type block) "text" then
    match variantOf (props block) with
    | Some variant =>
        if String.eqb variant "h1" || String.eqb variant "h2" then
          id ← generateId;
          content ← readVariation v "headline" headline;
          mret {| block_id := id; block_type := block_type block;
                  props := withContent (props block) content |}
        else if String.eqb variant "body" then
          id ← generateId;
          content ← readVariation v "subtext" subtext;
          mret {| block_id := id; block_type := block_type block;
                  props := withContent (props block) content |}
        else keep
    | None => keep
    end
  else keep.

(** The callback of [variations.map], on the variation [v] of index [i] *)
Definition varySection (section : Section) (i : nat) (v : option Variation)
    : M Section :=
  id ← generateId;
  blocks ← mapM (varyBlock v) (blocks section);
  mret {| section_id := id; section_type := section_type section;
          section_variant := i + 1; blocks := blocks |}.

(** The request's model and temperature are constants of the call site; the
    prompt tells this request from that of [generateHomePage]. *)
Definition generateSectionVariations (this : AiService) (section : Section)
    (settings : SiteSettings) : M (list Section) :=
  match openai this with
  | None => threeCopies section
  | Some _ =>
      let prompt := variationsPrompt section settings in
      tryCatch
        (response ← call (chatCompletionsCreate prompt);
         let content := default "" response in
         variations ← sync (JSON_parse_variations content);
         match variations with
         | VariationsNull =>
             throw (TypeError "Cannot read properties of null (reading 'map')")
         | VariationsNotArray =>
             throw (TypeError "variations.map is not a function")
         | VariationsArray elements =>
             mapM (fun iv : nat * option Variation =>
                     varySection section (fst iv) (snd iv))
                  (imap pair elements)
         end)
        (fun error => threeCopies section)
  end.

End Variations.

End Ai.

(** ** [createDefaultSection] of [packages/shared] *)

Module Shared.

Import Ai.

Section Defaults.
Context `{Platform}.

(** The footer line as [packages/shared] has it: its copyright sign is
    preceded by a capital A with circumflex. *)
Definition defaultFooterText (year : Z) (settings : SiteSettings) : string :=
  String "194" copyrightSign +:+ " " +:+ numberToString year +:+ " "
  +:+ businessName settings +:+ ". All rights reserved.".

(** [type] is kept a string; the [switch] has no [default:], so a value
    outside the six section types gives [undefined] ([None]), after the
    section's id has been drawn. *)
Definition createDefaultSection (type : string) (settings : SiteSettings)
    : M (option Section) :=
  id ← generateId;
  if String.eqb type "hero" then
    b1 ← generateId;
    b2 ← generateId;
    b3 ← generateId;
    b4 ← generateId;
    mret (Some
      {| section_id := id; section_type := "hero"; section_variant := 1;
         blocks :=
           [ textBlock b1 ("Welcome to " +:+ businessName settings) "h1";
             textBlock b2 "Your trusted partner for all your needs" "body";
             buttonBlock b3
               (if String.eqb (primaryCta settings) "call" then "Call Us Today"
                else if String.eqb (primaryCta settings) "book" then "Book Now"
                else "Get a Quote")
               "#contact" "primary";
             imageBlock b4 "/placeholder-hero.jpg" "Hero image" ] |})
  else if String.eqb type "about" then
    b1 ← generateId;
    b2 ← generateId;
    b3 ← generateId;
    mret (Some
      {| section_id := id; section_type := "about"; section_variant := 1;
         blocks :=
           [ textBlock b1 "About Us" "h2";
             textBlock b2
               (businessName settings +:+ " has been serving the "
                +:+ industry settings
                +:+ " industry with dedication and excellence.") "body";
             imageBlock b3 "/placeholder-about.jpg" "About us" ] |})
  else if String.eqb type "services" then
    b1 ← generateId;
    b2 ← generateId;
    i1 ← generateId;
    i2 ← generateId;
    i3 ← generateId;
    mret (Some
      {| section_id := id; section_type := "services"; section_variant := 1;
         blocks :=
           [ textBlock b1 "Our Services" "h2";
             listBlock b2
               [ {| item_id := i1; title := "Service 1";
                    description := "Description of service 1";
                    icon := None |};
                 {| item_id := i2; title := "Service 2";
                    description := "Description of service 2";
                    icon := None |};
                 {| item_id := i3; title := "Service 3";
                    description := "Description of service 3";
                    icon := None |} ]
               "grid" ] |})
  else if String.eqb type "testimonials" then
    b1 ← generateId;
    b2 ← generateId;
    i1 ← generateId;
    i2 ← generateId;
    mret (Some
      {| section_id := id; section_type := "testimonials";
         section_variant := 1;
         blocks :=
           [ textBlock b1 "What Our Clients Say" "h2";
             listBlock b2
               [ {| item_id := i1; title := "John D.";
                    description := "Excellent service! Highly recommended.";
                    icon := None |};
                 {| item_id := i2; title := "Sarah M.";
                    description :=
                      "Professional and reliable. Will use again.";
                    icon := None |} ]
               "list" ] |})
  else if String.eqb type "contact" then
    b1 ← generateId;
    b2 ← generateId;
    b3 ← generateId;
    b4 ← generateId;
    mret (Some
      {| section_id := id; section_type := "contact"; section_variant := 1;
         blocks :=
           [ textBlock b1 "Contact Us" "h2";
             textBlock b2 ("Email: " +:+ contactEmail settings) "body";
             textBlock b3 ("Phone: " +:+ contactPhone settings) "body";
             buttonBlock b4 (contactCtaText settings)
               ("tel:" +:+ contactPhone settings) "primary" ] |})
  else if String.eqb type "footer" then
    b1 ← generateId;
    year ← getFullYear;
    mret (Some
      {| section_id := id; section_type := "footer"; section_variant := 1;
         blocks :=
           [ textBlock b1 (defaultFooterText year settings) "small" ] |})
  else mret None.

End Defaults.

End Shared.

(** ** [BillingService] *)

Module Billing.

(** The service object: [stripe] is the Stripe client, which the constructor
    creates only when the configuration holds a (non-empty)
    [STRIPE_SECRET_KEY]. *)
Record BillingService :=
  { configService : gmap string string;
    stripe : option string;
    priceId : string }.

Definition new (config : gmap string string) : BillingService :=
  {| configService := config;
     stripe :=
       if truthy (config !! "STRIPE_SECRET_KEY")
       then config !! "STRIPE_SECRET_KEY" else None;
     priceId := orElse (config !! "STRIPE_PRICE_ID") "" |}.

Section Subscriptions.
Context `{Platform}.

(** [prisma.stripeSubscription.findFirst({ where: { userId, status } })] *)
Definition findFirstSubscription (userId : string)
    (status : SubscriptionStatus) : M (option StripeSubscriptionRow) :=
  reads (fun w =>
           find (fun row =>
                   bool_decide (sub_userId row = userId)
                   && bool_decide (sub_status row = status))
                (stripeSubscriptions w)).

Definition hasActiveSubscription (this : BillingService) (userId : string)
    : M bool :=
  match stripe this with
  | None => mret true
  | Some _ =>
      subscription ← findFirstSubscription userId active;
      mret (bool_decide (is_Some subscription))
  end.

End Subscriptions.

End Billing.

(** ** [JobsProcessor] *)

Module Jobs.

(** [JobData] and the two entries of its [metadata] that the handlers read *)
Record Metadata :=
  { meta_settings : option SiteSettings; meta_versionId : option string }.

Record JobData :=
  { jobId : string; siteId : string; type : string;
    metadata : option Metadata }.

Record JobsProcessor :=
  { configService : gmap string string;
    wordpressService : WordPress.WordPressService;
    aiService : Ai.AiService }.

Section Processor.
Context `{Platform}.

Definition setJobs (w : World) (j : gmap string JobRow) : World :=
  {| jobs := j; jobLogs := jobLogs w; sites := sites w;
     siteVersions := siteVersions w;
     stripeSubscriptions := stripeSubscriptions w; ext := ext w |}.

Definition setJobLogs (w : World) (l : list JobLogRow) : World :=
  {| jobs := jobs w; jobLogs := l; sites := sites w;
     siteVersions := siteVersions w;
     stripeSubscriptions := stripeSubscriptions w; ext := ext w |}.

Definition setSites (w : World) (s : gmap string SiteRow) : World :=
  {| jobs := jobs w; jobLogs := jobLogs w; sites := s;
     siteVersions := siteVersions w;
     stripeSubscriptions := stripeSubscriptions w; ext := ext w |}.

Definition setSiteVersions (w : World) (v : list SiteVersionRow) : World :=
  {| jobs := jobs w; jobLogs := jobLogs w; sites := sites w;
     siteVersions := v;
     stripeSubscriptions := stripeSubscriptions w; ext := ext w |}.

(** What Prisma throws when the row of an [update] does not exist *)
Definition recordNotFound : JsError :=
  Error "An operation failed because it depends on one or more records that were required but not found.".

(** What Prisma throws when a [create] breaks a [@@unique] constraint *)
Definition uniqueConstraintFailed : JsError :=
  Error "Unique constraint failed on the fields: (`site_id`,`version_number`)".

(** Modelled from the spec: [JobsService.updateJobStatus] of
    [jobs.service.ts], which is not among the sources.  The data model gives a
    [Job] row a status and an optional error; the method is taken to be the
    Prisma [update] of these two columns of the row with the given id (the
    error only when one is passed).  The write is recorded in
    [job_statuses]. *)
Definition updateJobStatus (jobId : string) (status : JobStatus)
    (error : option string) : M unit := fun w =>
  match jobs w !! jobId with
  | None => (Throw recordNotFound, w)
  | Some row =>
      (Normal tt,
       setJobs w
         (<[jobId :=
              {| job_siteId := job_siteId row; job_type := job_type row;
                 job_status := status;
                 job_error :=
                   match error with
                   | Some m => Some m
                   | None => job_error row
                   end;
                 job_statuses := job_statuses row ++ [status] |}]> (jobs w)))
  end.

(** Modelled from the spec: [JobsService.addJobLog] of [jobs.service.ts],
    which is not among the sources; it is taken to create one [JobLog] row. *)
Definition addJobLog (jobId : string) (message : string) : M unit := fun w =>
  (Normal tt,
   setJobLogs w (jobLogs w ++ [{| log_jobId := jobId; log_message := message |}])).

(** [prisma.site.update({ where: { id }, data })] *)
Definition siteUpdate (id : string) (data : SiteRow -> SiteRow) : M unit :=
  fun w =>
    match sites w !! id with
    | None => (Throw recordNotFound, w)
    | Some row => (Normal tt, setSites w (<[id := data row]> (sites w)))
    end.

(** [prisma.site.findUnique({ where: { id } })] *)
Definition siteFindUnique (id : string) : M (option SiteRow) :=
  reads (fun w => sites w !! id).

(** The row [orderBy: { versionNumber: 'desc' }] puts first among [rows]:
    one with the greatest version number (the earliest created of them, were
    the unique constraint on site and number not to exclude ties). *)
Fixpoint greatestVersion (rows : list SiteVersionRow)
    : option SiteVersionRow :=
  match rows with
  | [] => None
  | row :: rest =>
      match greatestVersion rest with
      | Some best =>
          if (versionNumber row <? versionNumber best)%Z
          then Some best else Some row
      | None => Some row
      end
  end.

Definition versionsOf (siteId : string) (rows : list SiteVersionRow)
    : list SiteVersionRow :=
  filter (fun row => version_siteId row = siteId) rows.

(** [prisma.siteVersion.findFirst({ where: { siteId },
    orderBy: { versionNumber: 'desc' } })], which is also what
    [include: { versions: { orderBy: ..., take: 1 } }] joins to a site *)
Definition latestVersion (siteId : string) : M (option SiteVersionRow) :=
  reads (fun w => greatestVersion (versionsOf siteId (siteVersions w))).

(** [prisma.siteVersion.findUnique({ where: { id } })] *)
Definition siteVersionFindUnique (id : string) : M (option SiteVersionRow) :=
  reads (fun w =>
           find (fun row => bool_decide (version_id row = id))
                (siteVersions w)).

(** [prisma.siteVersion.create({ data })]: the database checks
    [@@unique([siteId, versionNumber])] and gives the row its [cuid()]. *)
Definition siteVersionCreate (siteId : string) (versionNumber_ : Z)
    (content : SiteContent) : M SiteVersionRow := fun w =>
  if existsb (fun row => bool_decide (versionNumber row = versionNumber_))
             (versionsOf siteId (siteVersions w))
  then (Throw uniqueConstraintFailed, w)
  else
    let (id, x) := cuid (ext w) in
    let row :=
      {| version_id := id; version_siteId := siteId;
         versionNumber := versionNumber_; pageJson := content |} in
    (Normal row, setExt (setSiteVersions w (siteVersions w ++ [row])) x).

(** The value of an optional string when it is truthy *)
Definition truthyString (value : option string) : option string :=
  match value with
  | Some s => if String.eqb s "" then None else Some s
  | None => None
  end.

(** The value of an optional number when it is truthy *)
Definition truthyNumber (value : option Z) : option Z :=
  match value with
  | Some n => if (n =? 0)%Z then None else Some n
  | None => None
  end.

(** [n || 0] for an optional number *)
Definition orZero (value : option Z) : Z := default 0%Z (truthyNumber value).

Definition handleGenerate (this : JobsProcessor) (jobId siteId : string)
    (metadata : option Metadata) : M unit :=
  _ ← addJobLog jobId "Generating content with AI...";
  site ← siteFindUnique siteId;
  versions ← latestVersion siteId;
  match site with
  | None => throw (Error "Site not found")
  | Some site =>
      let existingContent := pageJson <$> versions in
      let settings :=
        match metadata ≫= meta_settings with
        | Some s => Some s
        | None => settings <$> existingContent
        end in
      match settings with
      | None => throw (Error "No settings found for generation")
      | Some settings =>
          content ← Ai.generateSiteContent (aiService this) settings;
          _ ← addJobLog jobId "AI content generated";
          maxVersion ← latestVersion siteId;
          let nextVersion := (orZero (versionNumber <$> maxVersion) + 1)%Z in
          version ← siteVersionCreate siteId nextVersion content;
          _ ← addJobLog jobId
                ("Version " +:+ numberToString nextVersion +:+ " created");
          siteUpdate siteId
            (fun row =>
               {| site_name := site_name row;
                  site_status := draft;
                  wpSiteId := wpSiteId row;
                  wpAdminUrl := wpAdminUrl row;
                  wpSiteUrl := wpSiteUrl row;
                  currentVersionId := Some (version_id version);
                  publishedVersionId := publishedVersionId row;
                  site_owner_email := site_owner_email row;
                  site_tenant_slug := site_tenant_slug row |})
      end
  end.

Definition handleProvision (this : JobsProcessor) (jobId siteId : string)
    (metadata : option Metadata) : M unit :=
  _ ← addJobLog jobId "Provisioning WordPress site...";
  _ ← siteUpdate siteId
        (fun row =>
           {| site_name := site_name row;
              site_status := provisioning;
              wpSiteId := wpSiteId row;
              wpAdminUrl := wpAdminUrl row;
              wpSiteUrl := wpSiteUrl row;
              currentVersionId := currentVersionId row;
              publishedVersionId := publishedVersionId row;
              site_owner_email := site_owner_email row;
              site_tenant_slug := site_tenant_slug row |});
  site ← siteFindUnique siteId;
  match site with
  | None => throw (Error "Site not found")
  | Some site =>
      wpResult ←
        WordPress.provisionSite (wordpressService this)
          {| WordPress.site_id := siteId;
             WordPress.name := site_name site;
             WordPress.owner_email := site_owner_email site;
             WordPress.tenant_slug := site_tenant_slug site |};
      _ ← addJobLog jobId
            ("WordPress site created: " +:+ WordPress.wpSiteUrl wpResult);
      _ ← siteUpdate siteId
            (fun row =>
               {| site_name := site_name row;
                  site_status := generating;
                  wpSiteId := Some (WordPress.wpSiteId wpResult);
                  wpAdminUrl := Some (WordPress.wpAdminUrl wpResult);
                  wpSiteUrl := Some (WordPress.wpSiteUrl wpResult);
                  currentVersionId := currentVersionId row;
                  publishedVersionId := publishedVersionId row;
                  site_owner_email := site_owner_email row;
                  site_tenant_slug := site_tenant_slug row |});
      _ ← WordPress.applyThemeAndPlugins (wordpressService this)
            (WordPress.wpSiteId wpResult);
      _ ← addJobLog jobId "Theme and plugins applied";
      handleGenerate this jobId siteId metadata
  end.

Definition handlePublish (this : JobsProcessor) (jobId siteId : string)
    (_metadata : option Metadata) : M unit :=
  _ ← addJobLog jobId "Publishing to WordPress...";
  site ← siteFindUnique siteId;
  match site with
  | None => throw (Error "Site not found")
  | Some site =>
      match truthyString (currentVersionId site) with
      | None => throw (Error "No current version to publish")
      | Some currentVersionId_ =>
          match truthyNumber (wpSiteId site) with
          | None => throw (Error "WordPress site not provisioned")
          | Some wpSiteId_ =>
              version ← siteVersionFindUnique currentVersionId_;
              match version with
              | None => throw (Error "Version not found")
              | Some version =>
                  _ ← WordPress.publishVersion (wordpressService this)
                        wpSiteId_ (pageJson version);
                  _ ← addJobLog jobId "Content published to WordPress";
                  siteUpdate siteId
                    (fun row =>
                       {| site_name := site_name row;
                          site_status := published;
                          wpSiteId := wpSiteId row;
                          wpAdminUrl := wpAdminUrl row;
                          wpSiteUrl := wpSiteUrl row;
                          currentVersionId := currentVersionId row;
                          publishedVersionId := Some (version_id version);
                          site_owner_email := site_owner_email row;
                          site_tenant_slug := site_tenant_slug row |})
              end
          end
      end
  end.

Definition handleRollback (this : JobsProcessor) (jobId siteId : string)
    (metadata : option Metadata) : M unit :=
  match truthyString (metadata ≫= meta_versionId) with
  | None => throw (Error "Version ID required for rollback")
  | Some versionId =>
      _ ← addJobLog jobId
            ("Rolling back to version " +:+ versionId +:+ "...");
      site ← siteFindUnique siteId;
      match site with
      | None => throw (Error "Site not found")
      | Some site =>
          match truthyNumber (wpSiteId site) with
          | None => throw (Error "WordPress site not provisioned")
          | Some wpSiteId_ =>
              version ← siteVersionFindUnique versionId;
              match version with
              | None => throw (Error "Version not found")
              | Some version =>
                  if negb (String.eqb (version_siteId version) siteId)
                  then throw (Error "Version not found")
                  else
                    _ ← WordPress.publishVersion (wordpressService this)
                          wpSiteId_ (pageJson version);
                    _ ← addJobLog jobId "Rolled back content published";
                    siteUpdate siteId
                      (fun row =>
                         {| site_name := site_name row;
                            site_status := published;
                            wpSiteId := wpSiteId row;
                            wpAdminUrl := wpAdminUrl row;
                            wpSiteUrl := wpSiteUrl row;
                            currentVersionId := Some (version_id version);
                            publishedVersionId := Some (version_id version);
                            site_owner_email := site_owner_email row;
                            site_tenant_slug := site_tenant_slug row |})
              end
          end
      end
  end.

(** The [switch (type)] of [processJob] *)
Definition dispatch (this : JobsProcessor) (data : JobData) : M unit :=
  if String.eqb (type data) "provision" then
    handleProvision this (jobId data) (siteId data) (metadata data)
  else if String.eqb (type data) "generate" then
    handleGenerate this (jobId data) (siteId data) (metadata data)
  else if String.eqb (type data) "publish" then
    handlePublish this (jobId data) (siteId data) (metadata data)
  else if String.eqb (type data) "rollback" then
    handleRollback this (jobId data) (siteId data) (metadata data)
  else throw (Error ("Unknown job type: " +:+ type data)).

Definition processJob (this : JobsProcessor) (data : JobData) : M unit :=
  tryCatch
    (_ ← updateJobStatus (jobId data) running None;
     _ ← addJobLog (jobId data) ("Starting " +:+ type data +:+ " job");
     _ ← dispatch this data;
     _ ← updateJobStatus (jobId data) completed None;
     addJobLog (jobId data) "Job completed successfully")
    (fun error =>
       let errorMessage :=
         if instanceofError error then message error else "Unknown error" in
       _ ← updateJobStatus (jobId data) failed (Some errorMessage);
       _ ← addJobLog (jobId data) ("Job failed: " +:+ errorMessage);
       throw error).

End Processor.

End Jobs.

(** ** [BillingService]: what a webhook writes *)

Module Webhooks.

(** A [Stripe.Subscription], as far as the handlers read it *)
Record StripeSubscription :=
  { id : string; status : string; current_period_end : Z }.

(** [status] is kept a string: Stripe has statuses ([unpaid], [paused],
    [incomplete_expired]) beyond the four that the [switch] names. *)
Definition mapStripeStatus (this : Billing.BillingService) (status : string)
    : SubscriptionStatus :=
  if String.eqb status "active" then active
  else if String.eqb status "canceled" then canceled
  else if String.eqb status "past_due" then past_due
  else if String.eqb status "trialing" then trialing
  else incomplete.

Section Handlers.
Context `{Platform}.

Definition setStripeSubscriptions (w : World)
    (rows : list StripeSubscriptionRow) : World :=
  {| jobs := jobs w; jobLogs := jobLogs w; sites := sites w;
     siteVersions := siteVersions w; stripeSubscriptions := rows;
     ext := ext w |}.

(** [prisma.stripeSubscription.update({ where: { stripeSubscriptionId },
    data: { status } })].  The column is [@unique]: the update writes the
    row that carries the id, and throws when there is none. *)
Definition subscriptionUpdateStatus (stripeSubscriptionId_ : string)
    (status_ : SubscriptionStatus) : M unit := fun w =>
  if existsb (fun row =>
                bool_decide (stripeSubscriptionId row = stripeSubscriptionId_))
             (stripeSubscriptions w)
  then
    (Normal tt,
     setStripeSubscriptions w
       (map (fun row =>
               if bool_decide (stripeSubscriptionId row = stripeSubscriptionId_)
               then {| sub_userId := sub_userId row;
                       stripeCustomerId := stripeCustomerId row;
                       stripeSubscriptionId := stripeSubscriptionId row;
                       sub_status := status_ |}
               else row)
            (stripeSubscriptions w)))
  else (Throw Jobs.recordNotFound, w).

Definition handleSubscriptionDeleted (this : Billing.BillingService)
    (subscription : StripeSubscription) : M unit :=
  subscriptionUpdateStatus (id subscription) canceled.

End Handlers.

End Webhooks.

(** ** Vocabulary of the statements *)

Module Spec.

(** [occurs c str]: the character [c] occurs in [str] *)
Fixpoint occurs (c : ascii) (str : string) : bool :=
  match str with
  | "" => false
  | String a rest => Ascii.eqb a c || occurs c rest
  end.

(** The characters that [escapeHtml] must leave none of: the two angle
    brackets, the double quote and the apostrophe *)
Definition htmlSpecials : list ascii := ["<"; ">"; "034"; "'"]%char.

(** The four block types of the schema *)
Definition blockTypes : list string := ["text"; "image"; "button"; "list"].

(** [markup] starts with [opening]. *)
Fixpoint startsWith (opening markup : string) : bool :=
  match opening, markup with
  | "", _ => true
  | String a opening', String b markup' =>
      Ascii.eqb a b && startsWith opening' markup'
  | String _ _, "" => false
  end.

(** How the markup of a block of each of the four types opens: the HTML
    with the element of the type (for a text, one of the five that
    [getTextTag] names), the Gutenberg markup with the block comment of the
    type (for a text, a heading or a paragraph). *)
Definition htmlOpenings (type : string) : list string :=
  if String.eqb type "text" then ["<h1>"; "<h2>"; "<h3>"; "<small>"; "<p>"]
  else if String.eqb type "image"
  then ["<figure class=" +:+ q "wp-block-image" +:+ ">"]
  else if String.eqb type "button"
  then ["<div class=" +:+ q "wp-block-button" +:+ ">"]
  else if String.eqb type "list"
  then ["<ul class=" +:+ dq +:+ "wp-block-list layout-"]
  else [].

Definition gutenbergOpenings (type : string) : list string :=
  if String.eqb type "text" then ["<!-- wp:heading"; "<!-- wp:paragraph"]
  else if String.eqb type "image" then ["<!-- wp:image -->"]
  else if String.eqb type "button" then ["<!-- wp:buttons -->"]
  else if String.eqb type "list" then ["<!-- wp:list -->"]
  else [].

(** [markup] opens with one of [openings]. *)
Definition opensWith (openings : list string) (markup : string) : bool :=
  existsb (fun opening => startsWith opening markup) openings.

(** The four job types of the schema *)
Definition jobTypes : list string :=
  ["provision"; "generate"; "publish"; "rollback"].

(** A block conforms to the schema when its props have the shape its type
    names; a block of any other type conforms whatever its props. *)
Definition conformsBlock (block : Block) : bool :=
  if String.eqb (block_type block) "text" then
    match props block with OfText _ => true | _ => false end
  else if String.eqb (block_type block) "image" then
    match props block with OfImage _ => true | _ => false end
  else if String.eqb (block_type block) "button" then
    match props block with OfButton _ => true | _ => false end
  else if String.eqb (block_type block) "list" then
    match props block with OfList _ => true | _ => false end
  else true.

Definition conformsSection (section : Section) : bool :=
  forallb conformsBlock (blocks section).

Definition conformsPage (page : Page) : bool :=
  forallb conformsSection (sections page).

(** The pages of a site's content are a home page and then a contact page,
    and its settings are the given ones. *)
Definition homeThenContact (settings_ : SiteSettings) (content : SiteContent)
    : Prop :=
  map slug (pages content) = ["home"; "contact"]
  /\ settings content = settings_.

(** In a table of versions, the version created last for a site carries a
    number above those of the site's other versions. *)
Definition latestIsHighest (rows : list SiteVersionRow) : Prop :=
  forall siteId earlier latest,
    Jobs.versionsOf siteId rows = earlier ++ [latest] ->
    forall older,
      older ∈ earlier -> (versionNumber older < versionNumber latest)%Z.

(** [allChars p str]: every character of [str] satisfies [p] *)
Fixpoint allChars (p : ascii -> bool) (str : string) : bool :=
  match str with
  | "" => true
  | String a rest => p a && allChars p rest
  end.

(** The characters of a slug: [a-z0-9] and the dash *)
Definition isSlugChar (a : ascii) : bool :=
  isLowerAlnum a || Ascii.eqb a "-".

(** [str] holds two dashes in a row *)
Fixpoint doubleDash (str : string) : bool :=
  match str with
  | "" => false
  | String a rest =>
      (Ascii.eqb a "-"
       && match rest with
          | String b _ => Ascii.eqb b "-"
          | "" => false
          end)
      || doubleDash rest
  end.

(** What an HTML parser reads back from text or from an attribute value,
    as far as the five character references that [escapeHtml] writes go:
    each of them stands for its character, and every other character for
    itself. *)
Fixpoint decodeEntities (str : string) : string :=
  match str with
  | "" => ""
  | String "&" (String "a" (String "m" (String "p" (String ";" rest)))) =>
      String "&" (decodeEntities rest)
  | String "&" (String "l" (String "t" (String ";" rest))) =>
      String "<" (decodeEntities rest)
  | String "&" (String "g" (String "t" (String ";" rest))) =>
      String ">" (decodeEntities rest)
  | String "&"
      (String "q" (String "u" (String "o" (String "t" (String ";" rest))))) =>
      String "034" (decodeEntities rest)
  | String "&"
      (String "#" (String "0" (String "3" (String "9" (String ";" rest))))) =>
      String "'" (decodeEntities rest)
  | String a rest => String a (decodeEntities rest)
  end.

(** How a POSIX shell reads one word made of single-quoted parts and of
    backslash-escaped characters.  Inside single quotes ([quoted]) every
    character up to the closing quote stands for itself; outside them a
    backslash makes the next character stand for itself (a line feed after it
    continues the line).  [None] when [str] is not such a word: a quote is
    left open, or a character stands unquoted. *)
Fixpoint shellWord (quoted : bool) (str : string) : option string :=
  match str with
  | "" => if quoted then None else Some ""
  | String a rest =>
      if quoted then
        if Ascii.eqb a "'" then shellWord false rest
        else String a <$> shellWord true rest
      else if Ascii.eqb a "'" then shellWord true rest
      else if Ascii.eqb a "092" then
        match rest with
        | String b rest' =>
            if Ascii.eqb b "010" then shellWord false rest'
            else String b <$> shellWord false rest'
        | "" => None
        end
      else None
  end.

(** A page with what the compilers leave out blanked: the ids of its
    blocks and list items, the icons, the sections' variants, the page's
    title and slug and, unless [keepSectionIds], the ids of its sections. *)
Definition blankItem (item : ListItem) : ListItem :=
  {| item_id := ""; title := title item; description := description item;
     icon := None |}.

Definition blankProps (p : BlockProps) : BlockProps :=
  match p with
  | OfList l => OfList {| items := map blankItem (items l); layout := layout l |}
  | _ => p
  end.

Definition blankBlock (block : Block) : Block :=
  {| block_id := ""; block_type := block_type block;
     props := blankProps (props block) |}.

Definition blankSection (keepSectionIds : bool) (section : Section) : Section :=
  {| section_id := if keepSectionIds then section_id section else "";
     section_type := section_type section; section_variant := 1;
     blocks := map blankBlock (blocks section) |}.

Definition blankPage (keepSectionIds : bool) (page : Page) : Page :=
  {| page_title := ""; slug := "";
     sections := map (blankSection keepSectionIds) (sections page) |}.

(** The page has a block of type [button] *)
Definition hasButton (page : Page) : bool :=
  existsb (fun section : Section =>
             existsb (fun block : Block => String.eqb (block_type block) "button")
                     (blocks section))
          (sections page).

(** The six section types of the schema *)
Definition sectionTypes : list string :=
  ["hero"; "about"; "services"; "testimonials"; "contact"; "footer"].

(** The name of a subscription status in the database's enum *)
Definition statusName (status : SubscriptionStatus) : string :=
  match status with
  | active => "active"
  | canceled => "canceled"
  | past_due => "past_due"
  | trialing => "trialing"
  | incomplete => "incomplete"
  end.

(** [str] starts with a dash *)
Definition leadingDash (str : string) : bool :=
  match str with
  | String a _ => Ascii.eqb a "-"
  | "" => false
  end.

(** The answer lacks something that [buildHomePage] reads. *)
Definition answerIncomplete (data : AiJson) : Prop :=
  match data with
  | JsonNull => True
  | JsonObject d => services d = None \/ testimonials d = None
  end.

(** The titles and descriptions of the items of a list block *)
Definition itemTexts (block : Block) : list (string * string) :=
  match props block with
  | OfList l => map (fun item => (title item, description item)) (items l)
  | _ => []
  end.

(** What a variation makes of a text: a heading takes the headline, a body
    text the subtext, and any other text stays. *)
Definition rewordedContent (v : Ai.Variation) (t : TextProps) : string :=
  if String.eqb (text_variant t) "h1" || String.eqb (text_variant t) "h2"
  then Ai.headline v
  else if String.eqb (text_variant t) "body" then Ai.subtext v
  else content t.

(** [new] is [old] reworded by the variation [v]: the type stays; the props
    of a block of another type than [text] stay; text props keep their
    variant and take the reworded content. *)
Definition reworded (v : Ai.Variation) (old new : Block) : Prop :=
  block_type new = block_type old
  /\ (block_type old <> "text" -> props new = props old)
  /\ (forall t, block_type old = "text" -> props old = OfText t ->
                props new = OfText {| content := rewordedContent v t;
                                      text_variant := text_variant t |}).

(** A block keeps its type under a variation. *)
Definition kept (old new : Block) : Prop :=
  block_type new = block_type old.

(** A section keeps its type and the types of its blocks, in order. *)
Definition keptSection (old new : Section) : Prop :=
  section_type new = section_type old
  /\ map block_type (blocks new) = map block_type (blocks old).

(** The message that [processJob] records for an error *)
Definition errorMessageOf (error : JsError) : string :=
  if instanceofError error then message error else "Unknown error".

(** A job row after [updateJobStatus]: the error is written only when one is
    given. *)
Definition withStatus (row : JobRow) (status : JobStatus)
    (error : option string) : JobRow :=
  {| job_siteId := job_siteId row; job_type := job_type row;
     job_status := status;
     job_error := match error with
                  | Some m => Some m
                  | None => job_error row
                  end;
     job_statuses := job_statuses row ++ [status] |}.

Section Computations.
Context `{Platform}.

(** [returns m P]: from every world [m] returns normally, with a value
    that satisfies [P]. *)
Definition returns {A} (m : M A) (P : A -> Prop) : Prop :=
  forall w, exists a w', m w = (Normal a, w') /\ P a.

(** [ensures m P]: whenever [m] returns normally, its value satisfies [P]. *)
Definition ensures {A} (m : M A) (P : A -> Prop) : Prop :=
  forall w a w', m w = (Normal a, w') -> P a.

(** [preserves R m]: running [m], to a value or to an exception, takes every
    world to one that [R] relates to it. *)
Definition preserves {A} (R : World -> World -> Prop) (m : M A) : Prop :=
  forall w, R w (snd (m w)).


(** The database is the same in both worlds. *)
Definition sameDatabase (w w' : World) : Prop :=
  jobs w' = jobs w /\ jobLogs w' = jobLogs w /\ sites w' = sites w
  /\ siteVersions w' = siteVersions w
  /\ stripeSubscriptions w' = stripeSubscriptions w.

(** The [Job] table is the same in both worlds. *)
Definition sameJobs (w w' : World) : Prop := jobs w' = jobs w.

(** If the first world's versions satisfy [latestIsHighest], so do the
    second's. *)
Definition keepsLatestHighest (w w' : World) : Prop :=
  latestIsHighest (siteVersions w) -> latestIsHighest (siteVersions w').

(** The second world's job log is the first's followed by entries of the
    job [jobId]. *)
Definition logsGrow (jobId : string) (w w' : World) : Prop :=
  exists entries,
    jobLogs w' = jobLogs w ++ entries
    /\ Forall (fun entry => log_jobId entry = jobId) entries.

(** What a job may change: of the [Job] table its own row, whose site and
    type stay; of the [Site] table the row of its site, whose name, owner
    and tenant stay; nothing of the subscriptions; and the versions only by
    adding versions of its site. *)
Definition withinJob (jobId siteId : string) (w w' : World) : Prop :=
  (forall other, other <> jobId -> jobs w' !! other = jobs w !! other)
  /\ job_siteId <$> jobs w' !! jobId = job_siteId <$> jobs w !! jobId
  /\ job_type <$> jobs w' !! jobId = job_type <$> jobs w !! jobId
  /\ (forall other, other <> siteId -> sites w' !! other = sites w !! other)
  /\ site_name <$> sites w' !! siteId = site_name <$> sites w !! siteId
  /\ site_owner_email <$> sites w' !! siteId
     = site_owner_email <$> sites w !! siteId
  /\ site_tenant_slug <$> sites w' !! siteId
     = site_tenant_slug <$> sites w !! siteId
  /\ stripeSubscriptions w' = stripeSubscriptions w
  /\ exists created,
      siteVersions w' = siteVersions w ++ created
      /\ Forall (fun version => version_siteId version = siteId) created.

(** No site that was not in the [error] state is in it in the second
    world. *)
Definition noNewError (w w' : World) : Prop :=
  forall siteId site',
    sites w' !! siteId = Some site' -> site_status site' = site_error ->
    exists site, sites w !! siteId = Some site /\ site_status site = site_error.

(** [versionId] is the id of a version of the site [siteId]. *)
Definition versionOf (w : World) (siteId versionId : string) : Prop :=
  exists version,
    version ∈ siteVersions w
    /\ version_id version = versionId /\ version_siteId version = siteId.

(** The version pointers of every site lead to versions of that site. *)
Definition pointersValid (w : World) : Prop :=
  forall siteId site versionId,
    sites w !! siteId = Some site ->
    currentVersionId site = Some versionId
    \/ publishedVersionId site = Some versionId ->
    versionOf w siteId versionId.

(** [throws m]: from every world [m] throws. *)
Definition throws {A} (m : M A) : Prop :=
  forall w, exists e w', m w = (Throw e, w').

End Computations.

End Spec.
Export Spec.

(** ** A platform to run the services on *)

Module Demo.

(** A machine without WP-CLI, whose clock shows 2026.  The state counts the
    operations performed so far.  [site create] prints a message where the
    site id is expected when the WP-CLI path is [wp]; every other command
    fails.  The model's endpoint is rate-limited at even counts and answers
    in prose at odd ones, which [JSON.parse] rejects. *)
#[local] Instance platform : Platform :=
  {| Ext := nat;
     Rand := nat;
     execAsync := fun command n =>
       if String.prefix "wp site create" command
       then (Normal ("Error: could not create site.", ""), S n)
       else (Throw (Error ("Command failed: " +:+ command)), S n);
     chatCompletionsCreate := fun prompt n =>
       if Nat.even n
       then (Throw (Error "429 Too Many Requests"), S n)
       else (Normal (Some "Sorry, I cannot help with that."), S n);
     JSON_parse := fun text => Throw (SyntaxError "Unexpected token");
     Math_random := fun n => (n, S n);
     Rand_toString36 := fun r =>
       "0." +:+ NilZero.string_of_uint (Nat.to_uint r) +:+ "zzzzzzzzzzzzz";
     Rand_floorTimes := fun r k => (Z.of_nat r mod k)%Z;
     Date_getFullYear := fun _ => 2026%Z;
     cuid := fun n => ("c" +:+ NilZero.string_of_uint (Nat.to_uint n), S n) |}.

Definition emptyWorld : World :=
  {| jobs := ∅; jobLogs := []; sites := ∅; siteVersions := [];
     stripeSubscriptions := []; ext := 0 |}.

Definition acmeSettings : SiteSettings :=
  {| businessName := "Acme"; industry := "Plumbing"; stylePreset := "modern";
     accentColor := "#2563EB"; primaryCta := "call";
     contactEmail := "hello@acme.test"; contactPhone := "555-0100" |}.

(** A development installation whose WP-CLI binary is missing *)
Definition devService : WordPress.WordPressService :=
  WordPress.new
    (<["NODE_ENV" := "development"]> {["WP_CLI_PATH" := "/opt/wp-cli/wp"]}).

Definition pizzaSite : WordPress.Site :=
  {| WordPress.site_id := "ckv9x2m4q0001"; WordPress.name := "Joe's Pizza & Pasta!";
     WordPress.owner_email := "joe@pizza.test";
     WordPress.tenant_slug := "default" |}.

Definition processor : Jobs.JobsProcessor :=
  {| Jobs.configService := ∅;
     Jobs.wordpressService := WordPress.new ∅;
     Jobs.aiService := Ai.new ∅ |}.

(** A site that has just been created: no version yet *)
Definition newSite : SiteRow :=
  {| site_name := "Acme"; site_status := provisioning; wpSiteId := None;
     wpAdminUrl := None; wpSiteUrl := None; currentVersionId := None;
     publishedVersionId := None; site_owner_email := "owner@acme.test";
     site_tenant_slug := "default" |}.

Definition queuedJob (type : string) : JobRow :=
  {| job_siteId := "site-1"; job_type := type; job_status := pending;
     job_error := None; job_statuses := [] |}.

(** A database with that site and one queued job of the given type *)
Definition queuedWorld (type : string) : World :=
  {| jobs := {["job-1" := queuedJob type]}; jobLogs := [];
     sites := {["site-1" := newSite]}; siteVersions := [];
     stripeSubscriptions := []; ext := 0 |}.

Definition jobData (type : string) (metadata : option Jobs.Metadata)
    : Jobs.JobData :=
  {| Jobs.jobId := "job-1"; Jobs.siteId := "site-1"; Jobs.type := type;
     Jobs.metadata := metadata |}.


(** The metadata of a job that brings the settings along *)
Definition withSettings : option Jobs.Metadata :=
  Some {| Jobs.meta_settings := Some acmeSettings;
          Jobs.meta_versionId := None |}.

(** A page without a button *)
Definition plainPage : Page :=
  {| page_title := "About"; slug := "about";
     sections :=
       [ {| section_id := "s1"; section_type := "about"; section_variant := 1;
            blocks :=
              [ Ai.textBlock "b1" "Fish & Chips" "h2";
                Ai.imageBlock "b2" "/shop.jpg" "The shop" ] |} ] |}.

(** Content whose only page holds a text block with the props of an image *)
Definition brokenContent : SiteContent :=
  {| pages :=
       [ {| page_title := "Home"; slug := "home";
            sections :=
              [ {| section_id := "s1"; section_type := "hero";
                   section_variant := 1;
                   blocks :=
                     [ {| block_id := "b1"; block_type := "text";
                          props := OfImage {| src := "/a.jpg"; alt := "A" |} |} ]
                |} ] |} ];
     settings := acmeSettings |}.

(** A database with one active subscription, a billing service with a
    Stripe key, and the event of that subscription's deletion *)
Definition subscribed : World :=
  {| jobs := ∅; jobLogs := []; sites := ∅; siteVersions := [];
     stripeSubscriptions :=
       [ {| sub_userId := "u1"; stripeCustomerId := "cus_1";
            stripeSubscriptionId := "sub_1"; sub_status := active |} ];
     ext := 0 |}.

Definition billing : Billing.BillingService :=
  Billing.new {["STRIPE_SECRET_KEY" := "sk_test"]}.

Definition deleted : Webhooks.StripeSubscription :=
  {| Webhooks.id := "sub_1"; Webhooks.status := "canceled";
     Webhooks.current_period_end := 0 |}.

(** *** A platform where WP-CLI and the model answer *)

Definition sampleAnswer : HomeData :=
  {| heroHeadline := "Pipes fixed fast";
     heroSubheadline := "Day and night, all over town";
     aboutTitle := "Who we are";
     aboutText := "A family business since 1987.";
     services :=
       Some [ {| service_title := "Repairs";
                 service_description := "Leaks & burst pipes" |};
              {| service_title := "Boilers";
                 service_description := "Fitted in a day" |} ];
     testimonials :=
       Some [ {| testimonial_name := "Ann"; quote := "Quick and tidy." |} ] |}.

(** WP-CLI prints a site id and a warning; the model answers [null] at even
    counts and an object otherwise. *)
Definition hosted : Platform :=
  {| Ext := nat;
     Rand := nat;
     execAsync := fun command n => (Normal (" 42" +:+ nl, "Warning: cache"), S n);
     chatCompletionsCreate := fun prompt n =>
       (Normal (Some (if Nat.even n then "null" else "{ }")), S n);
     JSON_parse := fun text =>
       if String.eqb text "null" then Normal JsonNull
       else Normal (JsonObject sampleAnswer);
     Math_random := fun n => (n, S n);
     Rand_toString36 := fun r =>
       "0." +:+ NilZero.string_of_uint (Nat.to_uint r) +:+ "zzzzzzzzzzzzz";
     Rand_floorTimes := fun r k => (Z.of_nat r mod k)%Z;
     Date_getFullYear := fun _ => 2026%Z;
     cuid := fun n => ("c" +:+ NilZero.string_of_uint (Nat.to_uint n), S n) |}.

Definition hostedWorld (n : nat) : World (H := hosted) :=
  @Build_World hosted ∅ [] ∅ [] [] n.

Definition aiService : Ai.AiService := Ai.new {["OPENAI_API_KEY" := "sk-test"]}.

(** The variations that the model's answer holds *)
Definition reader : Ai.VariationsReader :=
  {| Ai.JSON_parse_variations := fun text =>
       if String.eqb text "null" then Normal Ai.VariationsNull
       else Normal (Ai.VariationsArray
                      [ Some {| Ai.headline := "Leaks? Gone.";
                                Ai.subtext := "One call does it." |};
                        Some {| Ai.headline := "Dry floors, fast";
                                Ai.subtext := "We come the same day." |} ]) |}.

Definition heroSection : Section :=
  {| section_id := "s1"; section_type := "hero"; section_variant := 1;
     blocks :=
       [ Ai.textBlock "b1" "Pipes fixed fast" "h1";
         Ai.textBlock "b2" "Day and night" "body";
         Ai.buttonBlock "b3" "Call Us Today" "#contact" "primary" ] |}.

End Demo.

(** * Properties *)

(** ** Strings *)

Section Strings.

Lemma append_cons (x : ascii) (a b : string) :
  String x a +:+ b = String x (a +:+ b).
Proof. reflexivity. Qed.

Lemma append_assoc (a b c : string) : (a +:+ b) +:+ c = a +:+ (b +:+ c).
Proof.
  induction a as [|x a IH]; [reflexivity|].
  rewrite !append_cons. f_equal. exact IH.
Qed.

Lemma append_nonempty (a : ascii) (s t : string) : String a s +:+ t <> "".
Proof. rewrite append_cons. discriminate. Qed.

Lemma occurs_append c (a b : string) :
  occurs c (a +:+ b) = occurs c a || occurs c b.
Proof.
  induction a as [|x a IH]; [reflexivity|].
  rewrite append_cons. cbn [occurs]. rewrite IH. apply orb_assoc.
Qed.

Lemma replaceAll_append c r (a b : string) :
  replaceAll c r (a +:+ b) = replaceAll c r a +:+ replaceAll c r b.
Proof.
  induction a as [|x a IH]; [reflexivity|].
  rewrite append_cons. cbn [replaceAll]. rewrite IH. symmetry.
  apply append_assoc.
Qed.

End Strings.

(** ** [escapeHtml] *)

Section Escape.
Import WordPress.
Variable this : WordPressService.

(** [escapeHtml] works character by character. *)
Lemma escapeHtml_append (a b : string) :
  escapeHtml this (a +:+ b) = escapeHtml this a +:+ escapeHtml this b.
Proof. unfold escapeHtml. now rewrite !replaceAll_append. Qed.

(** What it makes of one character holds none of the four: by cases on the
    256 characters. *)
Lemma escapeHtml_char (a : ascii) :
  forallb (fun c => negb (occurs c (escapeHtml this (String a ""))))
          htmlSpecials = true.
Proof.
  destruct a as [[] [] [] [] [] [] [] []]; vm_compute; reflexivity.
Qed.

Lemma escapeHtml_clean (str : string) :
  forallb (fun c => negb (occurs c (escapeHtml this str))) htmlSpecials = true.
Proof.
  induction str as [|a rest IH]; [reflexivity|].
  change (String a rest) with (String a "" +:+ rest).
  rewrite escapeHtml_append.
  pose proof (escapeHtml_char a) as Ha.
  unfold htmlSpecials in *. cbn [forallb] in *.
  rewrite !occurs_append.
  repeat match goal with
         | H : _ && _ = true |- _ => apply andb_prop in H; destruct H
         end.
  repeat match goal with
         | H : negb _ = true |- _ =>
             apply negb_true_iff in H; rewrite H; clear H
         end.
  reflexivity.
Qed.

End Escape.

(** ** The content-to-markup compiler *)

Section MapM.
Context {A B : Type} (f : A -> Completion B).

Lemma mapM_nil : mapM f [] = Normal [].
Proof. reflexivity. Qed.

Lemma mapM_cons x l :
  mapM f (x :: l) = y ← f x; ys ← mapM f l; mret (y :: ys).
Proof. reflexivity. Qed.

Lemma mapM_Normal l ys :
  mapM f l = Normal ys <-> Forall2 (fun x y => f x = Normal y) l ys.
Proof.
  revert ys. induction l as [|x l IH]; intros ys.
  - rewrite mapM_nil. split.
    + intros [= <-]. constructor.
    + intros Hall. inversion Hall. reflexivity.
  - rewrite mapM_cons. split.
    + destruct (f x) as [y|e] eqn:Hx; [|discriminate].
      destruct (mapM f l) as [zs|e] eqn:Hl; [|discriminate].
      intros [= <-]. constructor; [assumption | now apply IH].
    + intros Hall. inversion Hall as [|? y ? zs Hx Hrest]; subst.
      rewrite Hx. apply IH in Hrest. rewrite Hrest. reflexivity.
Qed.

Lemma mapM_outcome (ok : A -> bool) l :
  (forall x, if ok x then exists y, f x = Normal y
             else exists m, f x = Throw (TypeError m)) ->
  if forallb ok l then exists ys, mapM f l = Normal ys
  else exists m, mapM f l = Throw (TypeError m).
Proof.
  intros Hf. induction l as [|x l IH]; [now exists []|].
  rewrite mapM_cons. cbn [forallb]. specialize (Hf x).
  destruct (ok x).
  - destruct Hf as [y ->]. cbn [andb].
    destruct (forallb ok l).
    + destruct IH as [ys ->]. now exists (y :: ys).
    + destruct IH as [m ->]. now exists m.
  - destruct Hf as [m ->]. now exists m.
Qed.

End MapM.

Lemma mapM_ext {A B} (f g : A -> Completion B) l :
  (forall x, f x = g x) -> mapM f l = mapM g l.
Proof.
  intros Hfg. induction l as [|x l IH]; [reflexivity|].
  rewrite !mapM_cons, Hfg, IH. reflexivity.
Qed.

Lemma fmap_bind_ret {A B} (c : Completion A) (g : A -> B) :
  (x ← c; mret (g x)) = g <$> c.
Proof. now destruct c. Qed.

Lemma elem_of_blockTypes (ty : string) :
  ty ∈ blockTypes <->
  ty = "text" \/ ty = "image" \/ ty = "button" \/ ty = "list".
Proof.
  unfold blockTypes. rewrite !elem_of_cons, elem_of_nil. tauto.
Qed.

Section Compiler.
Import WordPress.
Variable this : WordPressService.
Variable accentColor : string.

Ltac split_switch :=
  repeat match goal with
         | |- context [String.eqb ?a ?b] => destruct (String.eqb a b)
         end.

Ltac markup_or_error :=
  first [ solve [eexists; reflexivity]
        | eexists; split; [reflexivity | intros _; apply append_nonempty] ].

Ltac known_branch p := destruct p; cbn; markup_or_error.

Lemma compileBlockToHtml_outcome block :
  if conformsBlock block
  then exists html, compileBlockToHtml this block accentColor = Normal html
                    /\ (block_type block ∈ blockTypes -> html <> "")
  else exists m, compileBlockToHtml this block accentColor = Throw (TypeError m).
Proof.
  unfold conformsBlock, compileBlockToHtml, blockTypes.
  destruct block as [id ty p]; cbn [block_type props].
  destruct (String.eqb_spec ty "text") as [->|?]; [known_branch p|].
  destruct (String.eqb_spec ty "image") as [->|?]; [known_branch p|].
  destruct (String.eqb_spec ty "button") as [->|?]; [known_branch p|].
  destruct (String.eqb_spec ty "list") as [->|?]; [known_branch p|].
  eexists; split; [reflexivity|].
  rewrite elem_of_blockTypes. tauto.
Qed.

Lemma compileBlockToGutenberg_outcome block :
  if conformsBlock block
  then exists markup,
      compileBlockToGutenberg this block accentColor = Normal markup
      /\ (block_type block ∈ blockTypes -> markup <> "")
  else exists m,
      compileBlockToGutenberg this block accentColor = Throw (TypeError m).
Proof.
  unfold conformsBlock, compileBlockToGutenberg, blockTypes.
  destruct block as [id ty p]; cbn [block_type props].
  destruct (String.eqb_spec ty "text") as [->|?].
  { destruct p as [t| | |]; cbn; split_switch; markup_or_error. }
  destruct (String.eqb_spec ty "image") as [->|?]; [known_branch p|].
  destruct (String.eqb_spec ty "button") as [->|?]; [known_branch p|].
  destruct (String.eqb_spec ty "list") as [->|?]; [known_branch p|].
  eexists; split; [reflexivity|].
  rewrite elem_of_blockTypes. tauto.
Qed.

Lemma wrapped_mapM_outcome {A} (f : A -> Completion string) (ok : A -> bool)
    (wrap : list string -> string) (l : list A) :
  (forall x, if ok x then exists y, f x = Normal y
             else exists m, f x = Throw (TypeError m)) ->
  if forallb ok l
  then exists out, (ys ← mapM f l; mret (wrap ys)) = Normal out
  else exists m, (ys ← mapM f l; mret (wrap ys)) = Throw (TypeError m).
Proof.
  intros Hf. pose proof (mapM_outcome f ok l Hf) as Hmap.
  destruct (forallb ok l).
  - destruct Hmap as [ys ->]. now eexists.
  - destruct Hmap as [m ->]. now eexists.
Qed.

Lemma compileBlockToHtml_total block :
  if conformsBlock block
  then exists html, compileBlockToHtml this block accentColor = Normal html
  else exists m, compileBlockToHtml this block accentColor = Throw (TypeError m).
Proof.
  pose proof (compileBlockToHtml_outcome block) as Hb.
  destruct (conformsBlock block); [|exact Hb].
  destruct Hb as [html [-> _]]. now eexists.
Qed.

Lemma compileBlockToGutenberg_total block :
  if conformsBlock block
  then exists markup,
      compileBlockToGutenberg this block accentColor = Normal markup
  else exists m,
      compileBlockToGutenberg this block accentColor = Throw (TypeError m).
Proof.
  pose proof (compileBlockToGutenberg_outcome block) as Hb.
  destruct (conformsBlock block); [|exact Hb].
  destruct Hb as [markup [-> _]]. now eexists.
Qed.

Lemma compileSectionToHtml_total section :
  if conformsSection section
  then exists html, compileSectionToHtml this section accentColor = Normal html
  else exists m,
      compileSectionToHtml this section accentColor = Throw (TypeError m).
Proof.
  apply (wrapped_mapM_outcome
           (fun block => compileBlockToHtml this block accentColor)
           conformsBlock).
  exact compileBlockToHtml_total.
Qed.

Lemma compileSectionToGutenberg_total section :
  if conformsSection section
  then exists markup,
      compileSectionToGutenberg this section accentColor = Normal markup
  else exists m,
      compileSectionToGutenberg this section accentColor
      = Throw (TypeError m).
Proof.
  apply (wrapped_mapM_outcome
           (fun block => compileBlockToGutenberg this block accentColor)
           conformsBlock).
  exact compileBlockToGutenberg_total.
Qed.

End Compiler.

Section Frames.
Import WordPress.
Variable this : WordPressService.
Variable accentColor : string.

Ltac text_case :=
  unfold compileBlockToGutenberg, compileBlockToHtml, getTextTag;
  cbn [block_type props];
  change (String.eqb "text" "text") with true; cbv iota;
  unfold asTextProps, mbind, mret, Completion_bind, Completion_ret;
  cbv beta iota; cbn [text_variant content];
  repeat match goal with E : String.eqb _ _ = _ |- _ => rewrite E; clear E end;
  split; reflexivity.

Lemma text_frames variant :
  exists pre post pre' post', forall id content,
    let block :=
      {| block_id := id; block_type := "text";
         props := OfText {| content := content; text_variant := variant |} |} in
    compileBlockToHtml this block accentColor
    = Normal (pre +:+ escapeHtml this content +:+ post)
    /\ compileBlockToGutenberg this block accentColor
       = Normal (pre' +:+ escapeHtml this content +:+ post').
Proof.
  exists ("<" +:+ getTextTag this variant +:+ ">"),
         ("</" +:+ getTextTag this variant +:+ ">").
  destruct (String.eqb variant "h1") eqn:E1;
    [|destruct (String.eqb variant "h2") eqn:E2;
      [|destruct (String.eqb variant "h3") eqn:E3;
        [|destruct (String.eqb variant "small") eqn:E4]]].
  - exists ("<!-- wp:heading {" +:+ q "level" +:+ ":1} -->" +:+ nl
            +:+ "<h1 class=" +:+ q "wp-block-heading" +:+ ">"),
           ("</h1>" +:+ nl +:+ "<!-- /wp:heading -->").
    intros id content. text_case.
  - exists ("<!-- wp:heading -->" +:+ nl
            +:+ "<h2 class=" +:+ q "wp-block-heading" +:+ ">"),
           ("</h2>" +:+ nl +:+ "<!-- /wp:heading -->").
    intros id content. text_case.
  - exists ("<!-- wp:heading {" +:+ q "level" +:+ ":3} -->" +:+ nl
            +:+ "<h3 class=" +:+ q "wp-block-heading" +:+ ">"),
           ("</h3>" +:+ nl +:+ "<!-- /wp:heading -->").
    intros id content. text_case.
  - exists ("<!-- wp:paragraph {" +:+ q "fontSize" +:+ ":" +:+ q "small"
            +:+ "} -->" +:+ nl
            +:+ "<p class=" +:+ q "has-small-font-size" +:+ ">"),
           ("</p>" +:+ nl +:+ "<!-- /wp:paragraph -->").
    intros id content. text_case.
  - exists ("<!-- wp:paragraph -->" +:+ nl +:+ "<p>"),
           ("</p>" +:+ nl +:+ "<!-- /wp:paragraph -->").
    intros id content. text_case.
Qed.

Ltac known_case cast :=
  unfold compileBlockToGutenberg, compileBlockToHtml;
  cbn [block_type props];
  repeat match goal with
         | |- context [String.eqb ?a ?b] =>
             match a with
             | String _ _ =>
                 let v := eval vm_compute in (String.eqb a b) in
                 change (String.eqb a b) with v
             end
         end;
  cbv iota;
  unfold cast, mbind, mret, Completion_bind, Completion_ret;
  cbv beta iota; cbn [src alt text href button_variant items layout];
  unfold q; rewrite !append_assoc; split; reflexivity.

Lemma image_frames :
  exists pre mid post pre' mid' post', forall id src alt,
    let block :=
      {| block_id := id; block_type := "image";
         props := OfImage {| src := src; alt := alt |} |} in
    compileBlockToHtml this block accentColor
    = Normal (pre +:+ src +:+ mid +:+ escapeHtml this alt +:+ post)
    /\ compileBlockToGutenberg this block accentColor
       = Normal (pre' +:+ src +:+ mid' +:+ escapeHtml this alt +:+ post').
Proof.
  exists ("<figure class=" +:+ q "wp-block-image" +:+ "><img src=" +:+ dq),
         (dq +:+ " alt=" +:+ dq), (dq +:+ " /></figure>"),
         ("<!-- wp:image -->" +:+ nl +:+ "<figure class="
          +:+ q "wp-block-image" +:+ "><img src=" +:+ dq),
         (dq +:+ " alt=" +:+ dq),
         (dq +:+ "/></figure>" +:+ nl +:+ "<!-- /wp:image -->").
  intros id src alt. known_case asImageProps.
Qed.

Lemma button_frames variant :
  exists pre mid post pre' mid' post', forall id text href,
    let block :=
      {| block_id := id; block_type := "button";
         props := OfButton {| text := text; href := href;
                              button_variant := variant |} |} in
    compileBlockToHtml this block accentColor
    = Normal (pre +:+ href +:+ mid +:+ escapeHtml this text +:+ post)
    /\ compileBlockToGutenberg this block accentColor
       = Normal (pre' +:+ href +:+ mid' +:+ escapeHtml this text +:+ post').
Proof.
  exists ("<div class=" +:+ q "wp-block-button" +:+ "><a class="
          +:+ q "wp-block-button__link" +:+ " href=" +:+ dq),
         (dq +:+ " style="
          +:+ q ("background-color:"
                 +:+ (if String.eqb variant "primary"
                      then accentColor else "transparent")
                 +:+ ";color:"
                 +:+ (if String.eqb variant "primary"
                      then "#ffffff" else accentColor))
          +:+ ">"),
         "</a></div>",
         ("<!-- wp:buttons -->" +:+ nl
          +:+ "<div class=" +:+ q "wp-block-buttons"
          +:+ "><!-- wp:button {" +:+ q "backgroundColor" +:+ ":"
          +:+ q (if String.eqb variant "primary"
                 then accentColor else "transparent")
          +:+ "} -->" +:+ nl
          +:+ "<div class=" +:+ q "wp-block-button" +:+ "><a class="
          +:+ q "wp-block-button__link wp-element-button" +:+ " href=" +:+ dq),
         (dq +:+ ">"),
         ("</a></div>" +:+ nl +:+ "<!-- /wp:button --></div>" +:+ nl
          +:+ "<!-- /wp:buttons -->").
  intros id text href. known_case asButtonProps.
Qed.

Lemma list_frames layout :
  exists pre post pre' post', forall id items,
    let block :=
      {| block_id := id; block_type := "list";
         props := OfList {| items := items; layout := layout |} |} in
    compileBlockToHtml this block accentColor
    = Normal
        (pre
         +:+ join ""
               (map (fun item : ListItem =>
                       "<li><strong>" +:+ escapeHtml this (title item)
                       +:+ "</strong><p>"
                       +:+ escapeHtml this (description item)
                       +:+ "</p></li>") items)
         +:+ post)
    /\ compileBlockToGutenberg this block accentColor
       = Normal
           (pre'
            +:+ join ""
                  (map (fun item : ListItem =>
                          "<li><strong>" +:+ escapeHtml this (title item)
                          +:+ "</strong> - "
                          +:+ escapeHtml this (description item)
                          +:+ "</li>") items)
            +:+ post').
Proof.
  exists ("<ul class=" +:+ q ("wp-block-list layout-" +:+ layout) +:+ ">"),
         "</ul>",
         ("<!-- wp:list -->" +:+ nl +:+ "<ul class=" +:+ q "wp-block-list"
          +:+ ">"),
         ("</ul>" +:+ nl +:+ "<!-- /wp:list -->").
  intros id items. known_case asListProps.
Qed.

End Frames.

(** C1: the compilers follow the page tree.  The Gutenberg markup of a
    page is the markup of its sections, in order, joined by two line feeds;
    the markup of a section is that of its blocks, joined by a line feed,
    inside a [wp:group] comment pair; the HTML of a page is the HTML of its
    sections joined by a line feed, and a section's HTML is its blocks' HTML
    inside a [<section>] element that carries the section's type and id.  The
    first four equations hold of exceptions too (a block that throws makes
    the section and the page throw); the last two read the page's result as
    the join of the sections' results. *)
Theorem compilers_follow_page_tree (this : WordPress.WordPressService) (page : Page)
    (section : Section) (accentColor out : string) :
  WordPress.compilePageToGutenberg this page accentColor
  = join (nl +:+ nl)
      <$> mapM (fun s => WordPress.compileSectionToGutenberg this s accentColor)
               (sections page)
  /\ WordPress.compileSectionToGutenberg this section accentColor
     = (fun compiled =>
          "<!-- wp:group {" +:+ q "className" +:+ ":"
          +:+ q ("section-" +:+ section_type section) +:+ "} -->" +:+ nl
          +:+ "<div class="
          +:+ q ("wp-block-group section-" +:+ section_type section) +:+ ">"
          +:+ join nl compiled +:+ "</div>" +:+ nl +:+ "<!-- /wp:group -->")
         <$> mapM (fun b => WordPress.compileBlockToGutenberg this b accentColor)
                  (blocks section)
  /\ WordPress.compilePageToHtml this page accentColor
     = join nl
         <$> mapM (fun s => WordPress.compileSectionToHtml this s accentColor)
                  (sections page)
  /\ WordPress.compileSectionToHtml this section accentColor
     = (fun compiled =>
          "<section class="
          +:+ q ("wp-block-group section-" +:+ section_type section)
          +:+ " data-section-id=" +:+ q (section_id section) +:+ ">"
          +:+ join nl compiled +:+ "</section>")
         <$> mapM (fun b => WordPress.compileBlockToHtml this b accentColor)
                  (blocks section)
  /\ (WordPress.compilePageToGutenberg this page accentColor = Normal out
      <-> exists compiled,
          Forall2 (fun s o =>
                     WordPress.compileSectionToGutenberg this s accentColor = Normal o)
                  (sections page) compiled
          /\ out = join (nl +:+ nl) compiled)
  /\ (WordPress.compilePageToHtml this page accentColor = Normal out
      <-> exists compiled,
          Forall2 (fun s o => WordPress.compileSectionToHtml this s accentColor = Normal o)
                  (sections page) compiled
          /\ out = join nl compiled).
Proof.
  assert (Hread : forall (f : Section -> Completion string) sep,
             (ys ← mapM f (sections page); mret (join sep ys)) = Normal out
             <-> exists compiled,
                 Forall2 (fun s o => f s = Normal o) (sections page) compiled
                 /\ out = join sep compiled).
  { intros f sep. split.
    - destruct (mapM f (sections page)) as [ys|e] eqn:Hmap; [|discriminate].
      intros [= <-]. exists ys. split; [now apply mapM_Normal | reflexivity].
    - intros [compiled [Hall ->]]. apply mapM_Normal in Hall.
      now rewrite Hall. }
  repeat split; try apply fmap_bind_ret; apply Hread.
Qed.

Section Openings.
Import WordPress.
Variable this : WordPressService.
Variable accentColor : string.

Ltac by_type Hin :=
  apply elem_of_blockTypes in Hin;
  destruct Hin as [->|[->|[->| ->]]];
  vm_compute; split; intros Heq; try reflexivity; try discriminate Heq.

Lemma compileBlock_openings block :
  block_type block ∈ blockTypes ->
  conformsBlock block = true ->
  exists html markup,
    compileBlockToHtml this block accentColor = Normal html
    /\ compileBlockToGutenberg this block accentColor = Normal markup
    /\ forall type,
        type ∈ blockTypes ->
        (opensWith (htmlOpenings type) html = true <-> type = block_type block)
        /\ (opensWith (gutenbergOpenings type) markup = true
            <-> type = block_type block).
Proof.
  destruct block as [id ty p]; cbn [block_type props].
  intros Hty. apply elem_of_blockTypes in Hty.
  unfold conformsBlock, compileBlockToHtml, compileBlockToGutenberg;
    cbn [block_type props].
  destruct Hty as [->|[->|[->| ->]]];
    repeat match goal with
           | |- context [String.eqb ?a ?b] =>
               match a with
               | String _ _ =>
                   let v := eval vm_compute in (String.eqb a b) in
                   change (String.eqb a b) with v
               end
           end; cbv iota;
    destruct p as [t|i|b|l]; try discriminate; intros _;
    unfold asTextProps, asImageProps, asButtonProps, asListProps,
      mbind, mret, Completion_bind, Completion_ret; cbv beta iota zeta.
  - unfold getTextTag.
    destruct (String.eqb (text_variant t) "h1");
      [|destruct (String.eqb (text_variant t) "h2");
        [|destruct (String.eqb (text_variant t) "h3");
          [|destruct (String.eqb (text_variant t) "small")]]];
      (do 2 eexists; split; [reflexivity|]; split; [reflexivity|]);
      intros type Hin; split; by_type Hin.
  - do 2 eexists; split; [reflexivity|]; split; [reflexivity|].
    intros type Hin; split; by_type Hin.
  - do 2 eexists; split; [reflexivity|]; split; [reflexivity|].
    intros type Hin; split; by_type Hin.
  - do 2 eexists; split; [reflexivity|]; split; [reflexivity|].
    intros type Hin; split; by_type Hin.
Qed.

End Openings.

(** C2 (amended): the set of block variants is closed.  Either compiler
    returns the empty string exactly when the block's type is none of
    [text], [image], [button] and [list].  For a block of one of these four
    types whose props have the type's shape, both return the markup of that
    type: it is not empty, the HTML opens with the element of the block's
    type and the Gutenberg markup with the block comment of that type, and
    with those of no other type.  For a block of one of the four types whose
    props have another shape, both throw a [TypeError]. *)
Theorem block_variants_closed (this : WordPress.WordPressService) (block : Block)
    (accentColor : string) :
  (WordPress.compileBlockToHtml this block accentColor = Normal ""
   <-> block_type block ∉ blockTypes)
  /\ (WordPress.compileBlockToGutenberg this block accentColor = Normal ""
      <-> block_type block ∉ blockTypes)
  /\ (block_type block ∈ blockTypes ->
      conformsBlock block = true ->
      exists html markup,
        WordPress.compileBlockToHtml this block accentColor = Normal html
        /\ WordPress.compileBlockToGutenberg this block accentColor = Normal markup
        /\ html <> "" /\ markup <> ""
        /\ forall type,
            type ∈ blockTypes ->
            (opensWith (htmlOpenings type) html = true
             <-> type = block_type block)
            /\ (opensWith (gutenbergOpenings type) markup = true
                <-> type = block_type block))
  /\ (block_type block ∈ blockTypes ->
      conformsBlock block = false ->
      exists m m',
        WordPress.compileBlockToHtml this block accentColor
        = Throw (TypeError m)
        /\ WordPress.compileBlockToGutenberg this block accentColor
           = Throw (TypeError m')).
Proof.
  pose proof (compileBlockToHtml_outcome this accentColor block) as Hhtml.
  pose proof (compileBlockToGutenberg_outcome this accentColor block) as Hgut.
  pose proof (compileBlock_openings this accentColor block) as Hopen.
  assert (Hother : block_type block ∉ blockTypes ->
                   WordPress.compileBlockToHtml this block accentColor = Normal ""
                   /\ WordPress.compileBlockToGutenberg this block accentColor
                      = Normal "").
  { rewrite elem_of_blockTypes. intros Hty.
    unfold WordPress.compileBlockToHtml, WordPress.compileBlockToGutenberg.
    repeat match goal with
           | |- context [String.eqb ?a ?b] =>
               destruct (String.eqb_spec a b); [tauto|]
           end.
    split; reflexivity. }
  destruct (conformsBlock block).
  - destruct Hhtml as [html [Hh Hhne]]. destruct Hgut as [markup [Hg Hgne]].
    repeat split.
    + rewrite Hh. intros [= ->] Hin. now apply Hhne.
    + apply Hother.
    + rewrite Hg. intros [= ->] Hin. now apply Hgne.
    + apply Hother.
    + intros Hin _.
      destruct (Hopen Hin eq_refl) as (html' & markup' & Hh' & Hg' & Htype).
      exists html', markup'.
      assert (html' = html) as -> by congruence.
      assert (markup' = markup) as -> by congruence.
      split; [exact Hh|]. split; [exact Hg|].
      split; [now apply Hhne|]. split; [now apply Hgne|]. exact Htype.
    + discriminate.
  - destruct Hhtml as [m Hh]. destruct Hgut as [m' Hg].
    repeat split.
    + rewrite Hh. discriminate.
    + apply Hother.
    + rewrite Hg. discriminate.
    + apply Hother.
    + discriminate.
    + intros _ _. now exists m, m'.
Qed.

(** C2 as stated, that both compilers produce markup for every block of
    one of the four types, fails on a block of type [text] that carries the
    props of an image, which the type [Block] of the schema admits: both
    compilers throw. *)
Lemma text_block_with_image_props_throws :
  let block :=
    {| block_id := "b1"; block_type := "text";
       props := OfImage {| src := "/a.jpg"; alt := "A" |} |} in
  block_type block ∈ blockTypes
  /\ WordPress.compileBlockToHtml (WordPress.new ∅) block "#2563EB"
     = Throw (TypeError
                "Cannot read properties of undefined (reading 'replace')")
  /\ WordPress.compileBlockToGutenberg (WordPress.new ∅) block "#2563EB"
     = Throw (TypeError
                "Cannot read properties of undefined (reading 'replace')").
Proof.
  cbv zeta. split; [|split; reflexivity].
  rewrite elem_of_blockTypes. now left.
Qed.

(** C5: the compilers are stateless and deterministic.  Their results do
    not depend on the service object (its configuration, WP-CLI path and
    multisite URL); called inside an [async] method they do not depend on
    the world either, and leave it as it was: two calls on the same page and
    accent colour give the same string. *)
Theorem compilers_stateless `{Platform} (this1 this2 : WordPress.WordPressService)
    (w1 w2 : World) (page : Page) (accentColor : string) :
  WordPress.compilePageToHtml this1 page accentColor
  = WordPress.compilePageToHtml this2 page accentColor
  /\ WordPress.compilePageToGutenberg this1 page accentColor
     = WordPress.compilePageToGutenberg this2 page accentColor
  /\ fst (sync (WordPress.compilePageToHtml this1 page accentColor) w1)
     = fst (sync (WordPress.compilePageToHtml this2 page accentColor) w2)
  /\ snd (sync (WordPress.compilePageToHtml this1 page accentColor) w1) = w1
  /\ fst (sync (WordPress.compilePageToGutenberg this1 page accentColor) w1)
     = fst (sync (WordPress.compilePageToGutenberg this2 page accentColor) w2)
  /\ snd (sync (WordPress.compilePageToGutenberg this1 page accentColor) w1) = w1.
Proof.
  assert (Hblock : forall b,
             WordPress.compileBlockToHtml this1 b accentColor
             = WordPress.compileBlockToHtml this2 b accentColor) by reflexivity.
  assert (Hblock' : forall b,
             WordPress.compileBlockToGutenberg this1 b accentColor
             = WordPress.compileBlockToGutenberg this2 b accentColor) by reflexivity.
  assert (Hsection : forall s,
             WordPress.compileSectionToHtml this1 s accentColor
             = WordPress.compileSectionToHtml this2 s accentColor).
  { intros s. unfold WordPress.compileSectionToHtml.
    now rewrite (mapM_ext _ _ (blocks s) Hblock). }
  assert (Hsection' : forall s,
             WordPress.compileSectionToGutenberg this1 s accentColor
             = WordPress.compileSectionToGutenberg this2 s accentColor).
  { intros s. unfold WordPress.compileSectionToGutenberg.
    now rewrite (mapM_ext _ _ (blocks s) Hblock'). }
  assert (Hhtml : WordPress.compilePageToHtml this1 page accentColor
                  = WordPress.compilePageToHtml this2 page accentColor).
  { unfold WordPress.compilePageToHtml.
    now rewrite (mapM_ext _ _ (sections page) Hsection). }
  assert (Hgut : WordPress.compilePageToGutenberg this1 page accentColor
                 = WordPress.compilePageToGutenberg this2 page accentColor).
  { unfold WordPress.compilePageToGutenberg.
    now rewrite (mapM_ext _ _ (sections page) Hsection'). }
  unfold sync. cbn [fst snd]. repeat split; assumption.
Qed.

(** C7: both compilers end on every page and accent colour.  The page is a
    list of sections of lists of blocks, and a block holds no section or
    block, so the compilers are two nested [map]s; on a page whose blocks
    conform to the schema they return the markup, and on any other page they
    end with the [TypeError] of the property read that fails. *)
Theorem compilers_terminate (this : WordPress.WordPressService) (page : Page)
    (accentColor : string) :
  if conformsPage page
  then (exists html, WordPress.compilePageToHtml this page accentColor = Normal html)
       /\ (exists markup,
             WordPress.compilePageToGutenberg this page accentColor = Normal markup)
  else (exists m, WordPress.compilePageToHtml this page accentColor
                  = Throw (TypeError m))
       /\ (exists m, WordPress.compilePageToGutenberg this page accentColor
                     = Throw (TypeError m)).
Proof.
  pose proof (wrapped_mapM_outcome
                (fun section => WordPress.compileSectionToHtml this section accentColor)
                conformsSection (join nl) (sections page)
                (compileSectionToHtml_total this accentColor)) as Hhtml.
  pose proof (wrapped_mapM_outcome
                (fun section =>
                   WordPress.compileSectionToGutenberg this section accentColor)
                conformsSection (join (nl +:+ nl)) (sections page)
                (compileSectionToGutenberg_total this accentColor)) as Hgut.
  unfold conformsPage, WordPress.compilePageToHtml, WordPress.compilePageToGutenberg.
  destruct (forallb conformsSection (sections page)); split; assumption.
Qed.

(** C8: [escapeHtml] leaves no [<], [>], double quote or apostrophe in its
    result (the ampersand is rewritten first, then these four), and both
    compilers pass every text content, image alt text, button label and
    list-item title and description through it: the markup of a block is a
    frame, fixed by the block's other fields, around the escaped text.  The
    image's [src] and the button's [href] stand in the frame as they are. *)
Theorem escapeHtml_guards_texts_not_urls (this : WordPress.WordPressService)
    (accentColor : string) :
  (forall str,
      forallb (fun c => negb (occurs c (WordPress.escapeHtml this str)))
              htmlSpecials = true)
  /\ (forall str,
         WordPress.escapeHtml this str
         = replaceAll "'" "&#039;"
             (replaceAll "034" "&quot;"
                (replaceAll ">" "&gt;"
                   (replaceAll "<" "&lt;" (replaceAll "&" "&amp;" str)))))
  /\ (forall variant, exists pre post pre' post', forall id content,
         let block :=
           {| block_id := id; block_type := "text";
              props := OfText {| content := content;
                                 text_variant := variant |} |} in
         WordPress.compileBlockToHtml this block accentColor
         = Normal (pre +:+ WordPress.escapeHtml this content +:+ post)
         /\ WordPress.compileBlockToGutenberg this block accentColor
            = Normal (pre' +:+ WordPress.escapeHtml this content +:+ post'))
  /\ (exists pre mid post pre' mid' post', forall id src alt,
         let block :=
           {| block_id := id; block_type := "image";
              props := OfImage {| src := src; alt := alt |} |} in
         WordPress.compileBlockToHtml this block accentColor
         = Normal (pre +:+ src +:+ mid +:+ WordPress.escapeHtml this alt
                   +:+ post)
         /\ WordPress.compileBlockToGutenberg this block accentColor
            = Normal (pre' +:+ src +:+ mid' +:+ WordPress.escapeHtml this alt
                      +:+ post'))
  /\ (forall variant, exists pre mid post pre' mid' post', forall id text href,
         let block :=
           {| block_id := id; block_type := "button";
              props := OfButton {| text := text; href := href;
                                   button_variant := variant |} |} in
         WordPress.compileBlockToHtml this block accentColor
         = Normal (pre +:+ href +:+ mid +:+ WordPress.escapeHtml this text
                   +:+ post)
         /\ WordPress.compileBlockToGutenberg this block accentColor
            = Normal (pre' +:+ href +:+ mid' +:+ WordPress.escapeHtml this text
                      +:+ post'))
  /\ (forall layout, exists pre post pre' post', forall id items,
         let block :=
           {| block_id := id; block_type := "list";
              props := OfList {| items := items; layout := layout |} |} in
         WordPress.compileBlockToHtml this block accentColor
         = Normal
             (pre
              +:+ join ""
                    (map (fun item : ListItem =>
                            "<li><strong>"
                            +:+ WordPress.escapeHtml this (title item)
                            +:+ "</strong><p>"
                            +:+ WordPress.escapeHtml this (description item)
                            +:+ "</p></li>") items)
              +:+ post)
         /\ WordPress.compileBlockToGutenberg this block accentColor
            = Normal
                (pre'
                 +:+ join ""
                       (map (fun item : ListItem =>
                               "<li><strong>"
                               +:+ WordPress.escapeHtml this (title item)
                               +:+ "</strong> - "
                               +:+ WordPress.escapeHtml this (description item)
                               +:+ "</li>") items)
                 +:+ post')).
Proof.
  split; [exact (escapeHtml_clean this)|].
  split; [reflexivity|].
  split; [exact (text_frames this accentColor)|].
  split; [exact (image_frames this accentColor)|].
  split; [exact (button_frames this accentColor)|].
  exact (list_frames this accentColor).
Qed.

(** ** Reasoning about [async] computations *)

Section MonadLaws.
Context `{Platform}.

Lemma bind_run {A B} (m : M A) (k : A -> M B) (w : World) :
  (m ≫= k) w
  = match m w with
    | (Normal a, w') => k a w'
    | (Throw e, w') => (Throw e, w')
    end.
Proof. reflexivity. Qed.



Lemma bind_ret {A B} (a : A) (k : A -> M B) (w : World) :
  (mret a ≫= k) w = k a w.
Proof. reflexivity. Qed.

Lemma tryCatch_run {A} (body : M A) (handler : JsError -> M A) (w : World) :
  tryCatch body handler w
  = match body w with
    | (Normal a, w') => (Normal a, w')
    | (Throw e, w') => handler e w'
    end.
Proof. reflexivity. Qed.

Lemma call_run {A} (op : Ext -> Completion A * Ext) (w : World) :
  call op w = (fst (op (ext w)), setExt w (snd (op (ext w)))).
Proof. unfold call. now destruct (op (ext w)). Qed.

Lemma draw_run {A} (op : Ext -> A * Ext) (w : World) :
  draw op w = (Normal (fst (op (ext w))), setExt w (snd (op (ext w)))).
Proof. unfold draw. now destruct (op (ext w)). Qed.

(** *** Computations that return *)

Lemma returns_ret {A} (a : A) (P : A -> Prop) : P a -> returns (mret a) P.
Proof. intros Ha w. now exists a, w. Qed.

Lemma returns_ret_any {A} (a : A) : returns (mret a) (fun _ => True).
Proof. now apply returns_ret. Qed.

Lemma returns_bind {A B} (m : M A) (k : A -> M B) (P : A -> Prop)
    (Q : B -> Prop) :
  returns m P -> (forall a, P a -> returns (k a) Q) -> returns (m ≫= k) Q.
Proof.
  intros Hm Hk w. destruct (Hm w) as (a & w' & Hrun & Ha).
  rewrite bind_run, Hrun. now apply Hk.
Qed.

Lemma returns_weaken {A} (m : M A) (P Q : A -> Prop) :
  returns m P -> (forall a, P a -> Q a) -> returns m Q.
Proof.
  intros Hm HPQ w. destruct (Hm w) as (a & w' & Hrun & Ha). eauto.
Qed.

Lemma returns_draw {A} (op : Ext -> A * Ext) : returns (draw op) (fun _ => True).
Proof. intros w. rewrite draw_run. eauto. Qed.

Lemma returns_reads {A} (f : World -> A) : returns (reads f) (fun _ => True).
Proof. intros w. unfold reads. eauto. Qed.

Lemma returns_generateId : returns generateId (fun _ => True).
Proof.
  unfold generateId. eapply returns_bind; [apply returns_draw|].
  intros r _. now apply returns_ret.
Qed.

Lemma returns_getFullYear : returns getFullYear (fun _ => True).
Proof. apply returns_reads. Qed.

Lemma returns_mapM {A B} (f : A -> M B) (l : list A) :
  (forall x, returns (f x) (fun _ => True)) ->
  returns (mapM f l) (fun _ => True).
Proof.
  intros Hf. induction l as [|x l IH]; [now apply returns_ret|].
  change (mapM f (x :: l)) with (y ← f x; ys ← mapM f l; mret (y :: ys)).
  eapply returns_bind; [apply Hf|]. intros y _.
  eapply returns_bind; [apply IH|]. intros ys _. now apply returns_ret.
Qed.

(** *** What a computation ensures when it returns *)

Lemma ensures_any {A} (m : M A) : ensures m (fun _ => True).
Proof. now intros w a w' _. Qed.

Lemma ensures_ret {A} (a : A) (P : A -> Prop) : P a -> ensures (mret a) P.
Proof. intros Ha w b w' [= <- _]. exact Ha. Qed.

Lemma ensures_throw {A} (e : JsError) (P : A -> Prop) : ensures (throw e) P.
Proof. intros w a w'. discriminate. Qed.

Lemma ensures_bind {A B} (m : M A) (k : A -> M B) (Q : B -> Prop) :
  (forall a, ensures (k a) Q) -> ensures (m ≫= k) Q.
Proof.
  intros Hk w b w'. rewrite bind_run.
  destruct (m w) as [[a|e] w1]; [apply Hk | discriminate].
Qed.

Lemma ensures_of_returns {A} (m : M A) (P : A -> Prop) :
  returns m P -> ensures m P.
Proof.
  intros Hm w a w' Hrun. destruct (Hm w) as (b & w1 & Hrun' & Hb).
  congruence.
Qed.

Lemma returns_tryCatch {A} (body : M A) (handler : JsError -> M A)
    (P : A -> Prop) :
  ensures body P -> (forall e, returns (handler e) P) ->
  returns (tryCatch body handler) P.
Proof.
  intros Hbody Hhandler w. rewrite tryCatch_run.
  destruct (body w) as [[a|e] w'] eqn:Hrun.
  - exists a, w'. split; [reflexivity|]. eapply Hbody, Hrun.
  - apply Hhandler.
Qed.

End MonadLaws.

(** ** Computations that only look outside *)

Section Agreement.
Context `{Platform}.








End Agreement.


Section Fallback.
Context `{Platform}.


End Fallback.

(** ** [AiService] *)

Section Generation.
Context `{Platform}.
Variable this : Ai.AiService.
Variable settings_ : SiteSettings.

Ltac returning_any :=
  first [ apply returns_generateId
        | apply returns_getFullYear
        | apply returns_ret_any
        | apply returns_mapM; intros ?; returning_any
        | eapply returns_bind; [returning_any | intros ? _; returning_any] ].

Ltac returning :=
  repeat (eapply returns_bind; [returning_any | intros ? _]).

Lemma buildHomePage_returns (data : HomeData) svc tst :
  services data = Some svc -> testimonials data = Some tst ->
  returns (Ai.buildHomePage this settings_ (JsonObject data))
          (fun page => slug page = "home").
Proof.
  intros Hsvc Htst. unfold Ai.buildHomePage, Ai.readText, Ai.mapArray.
  rewrite Hsvc, Htst. returning. now apply returns_ret.
Qed.

Lemma buildHomePage_ensures (data : AiJson) :
  ensures (Ai.buildHomePage this settings_ data)
          (fun page => slug page = "home").
Proof.
  unfold Ai.buildHomePage.
  repeat (apply ensures_bind; intros ?). now apply ensures_ret.
Qed.

Lemma createFallbackHomePage_returns :
  returns (Ai.createFallbackHomePage this settings_)
          (fun page => slug page = "home").
Proof. unfold Ai.createFallbackHomePage. now eapply buildHomePage_returns. Qed.

Lemma generateContactPage_returns :
  returns (Ai.generateContactPage this settings_)
          (fun page => slug page = "contact").
Proof. unfold Ai.generateContactPage. returning. now apply returns_ret. Qed.

Lemma generateFallbackContent_returns :
  returns (Ai.generateFallbackContent this settings_)
          (homeThenContact settings_).
Proof.
  unfold Ai.generateFallbackContent.
  eapply returns_bind; [apply createFallbackHomePage_returns|].
  intros home Hhome. returning. apply returns_ret.
  split; [|reflexivity]. cbn. now rewrite Hhome.
Qed.

Lemma generateHomePage_ensures :
  ensures (Ai.generateHomePage this settings_) (fun page => slug page = "home").
Proof.
  unfold Ai.generateHomePage. apply ensures_bind. intros response.
  destruct (JSON_parse (default "" response)).
  - apply buildHomePage_ensures.
  - apply ensures_of_returns, createFallbackHomePage_returns.
Qed.

Lemma generateSiteContent_returns :
  returns (Ai.generateSiteContent this settings_)
          (homeThenContact settings_).
Proof.
  unfold Ai.generateSiteContent. destruct (Ai.openai this).
  - apply returns_tryCatch; [|intros _; apply generateFallbackContent_returns].
    intros w content w'. rewrite bind_run.
    destruct (Ai.generateHomePage this settings_ w) as [[home|e] w1] eqn:Hhome;
      [|discriminate].
    apply generateHomePage_ensures in Hhome.
    rewrite bind_run.
    destruct (Ai.generateContactPage this settings_ w1) as [[contact|e] w2]
      eqn:Hcontact; [|discriminate].
    apply (ensures_of_returns _ _ generateContactPage_returns) in Hcontact.
    intros [= <- _]. split; [|reflexivity]. cbn. now rewrite Hhome, Hcontact.
  - apply generateFallbackContent_returns.
Qed.




End Generation.


(** ** What a computation leaves unchanged *)

Section Preservation.
Context `{Platform}.
Variable R : World -> World -> Prop.
Hypothesis R_refl : forall w, R w w.
Hypothesis R_trans : forall w1 w2 w3, R w1 w2 -> R w2 w3 -> R w1 w3.

Lemma preserves_ret {A} (a : A) : preserves R (mret a).
Proof. intros w. apply R_refl. Qed.

Lemma preserves_throw {A} (e : JsError) : preserves R (throw (A := A) e).
Proof. intros w. apply R_refl. Qed.

Lemma preserves_sync {A} (c : Completion A) : preserves R (sync c).
Proof. intros w. apply R_refl. Qed.

Lemma preserves_reads {A} (f : World -> A) : preserves R (reads f).
Proof. intros w. apply R_refl. Qed.

Lemma preserves_bind {A B} (m : M A) (k : A -> M B) :
  preserves R m -> (forall a, preserves R (k a)) -> preserves R (m ≫= k).
Proof.
  intros Hm Hk w. rewrite bind_run. specialize (Hm w).
  destruct (m w) as [[a|e] w1]; cbn [snd] in *; [|exact Hm].
  eapply R_trans; [exact Hm | apply Hk].
Qed.

Lemma preserves_tryCatch {A} (body : M A) (handler : JsError -> M A) :
  preserves R body -> (forall e, preserves R (handler e)) ->
  preserves R (tryCatch body handler).
Proof.
  intros Hbody Hhandler w. rewrite tryCatch_run. specialize (Hbody w).
  destruct (body w) as [[a|e] w1]; cbn [snd] in *; [exact Hbody|].
  eapply R_trans; [exact Hbody | apply Hhandler].
Qed.

Lemma preserves_mapM {A B} (f : A -> M B) (l : list A) :
  (forall x, preserves R (f x)) -> preserves R (mapM f l).
Proof.
  intros Hf. induction l as [|x l IH]; [apply preserves_ret|].
  change (mapM f (x :: l)) with (y ← f x; ys ← mapM f l; mret (y :: ys)).
  apply preserves_bind; [apply Hf|]. intros y.
  apply preserves_bind; [apply IH|]. intros ys. apply preserves_ret.
Qed.

Lemma preserves_call {A} (op : Ext -> Completion A * Ext) :
  (forall w x, R w (setExt w x)) -> preserves R (call op).
Proof. intros Hext w. rewrite call_run. apply Hext. Qed.

Lemma preserves_draw {A} (op : Ext -> A * Ext) :
  (forall w x, R w (setExt w x)) -> preserves R (draw op).
Proof. intros Hext w. rewrite draw_run. apply Hext. Qed.

Lemma preserves_addJobLog jobId message :
  (forall w l, R w (Jobs.setJobLogs w l)) ->
  preserves R (Jobs.addJobLog jobId message).
Proof. intros Hlogs w. apply Hlogs. Qed.

Lemma preserves_updateJobStatus jobId status error :
  (forall w j, R w (Jobs.setJobs w j)) ->
  preserves R (Jobs.updateJobStatus jobId status error).
Proof.
  intros Hjobs w. unfold Jobs.updateJobStatus.
  destruct (jobs w !! jobId); [apply Hjobs | apply R_refl].
Qed.

Lemma preserves_siteUpdate id data :
  (forall w s, R w (Jobs.setSites w s)) ->
  preserves R (Jobs.siteUpdate id data).
Proof.
  intros Hsites w. unfold Jobs.siteUpdate.
  destruct (sites w !! id); [apply Hsites | apply R_refl].
Qed.

Lemma preserves_siteVersionCreate siteId number content :
  (forall w v x, R w (setExt (Jobs.setSiteVersions w v) x)) ->
  preserves R (Jobs.siteVersionCreate siteId number content).
Proof.
  intros Hversions w. unfold Jobs.siteVersionCreate.
  destruct (existsb _ _); [apply R_refl|].
  destruct (cuid (ext w)). apply Hversions.
Qed.

End Preservation.

Create HintDb preserve.
#[local] Hint Resolve preserves_ret preserves_throw preserves_sync
  preserves_reads preserves_call preserves_draw preserves_addJobLog
  preserves_updateJobStatus preserves_siteUpdate preserves_siteVersionCreate
  : preserve.

Ltac preserving :=
  repeat first
    [ solve [auto with preserve]
    | match goal with
      | |- preserves _ (_ ≫= _) =>
          apply preserves_bind; [assumption | | intros ?]
      | |- preserves _ (tryCatch _ _) =>
          apply preserves_tryCatch; [assumption | | intros ?]
      | |- preserves _ (mapM _ _) =>
          apply preserves_mapM; [assumption | assumption | intros ?]
      | |- preserves _ (match ?x with _ => _ end) => destruct x
      | |- preserves _ (let _ := _ in _) => cbv zeta
      end ].

Section Services.
Context `{Platform}.
Variable R : World -> World -> Prop.
Hypothesis R_refl : forall w, R w w.
Hypothesis R_trans : forall w1 w2 w3, R w1 w2 -> R w2 w3 -> R w1 w3.
Hypothesis R_ext : forall w x, R w (setExt w x).

Lemma preserves_generateId : preserves R generateId.
Proof. unfold generateId. preserving. Qed.

Lemma preserves_getFullYear : preserves R getFullYear.
Proof. unfold getFullYear. preserving. Qed.

#[local] Hint Resolve preserves_generateId preserves_getFullYear : preserve.

Lemma preserves_runWpCli this command :
  preserves R (WordPress.runWpCli this command).
Proof. unfold WordPress.runWpCli. preserving. Qed.

#[local] Hint Resolve preserves_runWpCli : preserve.

Lemma preserves_provisionSite this site :
  preserves R (WordPress.provisionSite this site).
Proof. unfold WordPress.provisionSite. preserving. Qed.

Lemma preserves_applyThemeAndPlugins this wpSiteId :
  preserves R (WordPress.applyThemeAndPlugins this wpSiteId).
Proof. unfold WordPress.applyThemeAndPlugins. preserving. Qed.

Lemma preserves_publishVersion this wpSiteId content :
  preserves R (WordPress.publishVersion this wpSiteId content).
Proof. unfold WordPress.publishVersion, WordPress.publishPage. preserving. Qed.

Lemma preserves_buildHomePage this settings_ data :
  preserves R (Ai.buildHomePage this settings_ data).
Proof. unfold Ai.buildHomePage, Ai.readText, Ai.mapArray. preserving. Qed.

#[local] Hint Resolve preserves_buildHomePage : preserve.

Lemma preserves_generateSiteContent this settings_ :
  preserves R (Ai.generateSiteContent this settings_).
Proof.
  unfold Ai.generateSiteContent, Ai.generateFallbackContent,
    Ai.generateHomePage, Ai.generateContactPage, Ai.createFallbackHomePage.
  preserving.
Qed.

End Services.

Section GenerateHandler.
Context `{Platform}.
Variable R : World -> World -> Prop.
Hypothesis R_refl : forall w, R w w.
Hypothesis R_trans : forall w1 w2 w3, R w1 w2 -> R w2 w3 -> R w1 w3.
Hypothesis R_ext : forall w x, R w (setExt w x).
Hypothesis R_logs : forall w l, R w (Jobs.setJobLogs w l).
Hypothesis R_sites : forall w s, R w (Jobs.setSites w s).
Hypothesis R_versions : forall w v x, R w (setExt (Jobs.setSiteVersions w v) x).

#[local] Hint Resolve preserves_generateSiteContent : preserve.

Lemma preserves_handleGenerate this jobId siteId metadata :
  preserves R (Jobs.handleGenerate this jobId siteId metadata).
Proof.
  unfold Jobs.handleGenerate, Jobs.siteFindUnique, Jobs.latestVersion.
  preserving.
Qed.

End GenerateHandler.

Section Handlers.
Context `{Platform}.
Variable R : World -> World -> Prop.
Hypothesis R_refl : forall w, R w w.
Hypothesis R_trans : forall w1 w2 w3, R w1 w2 -> R w2 w3 -> R w1 w3.
Hypothesis R_ext : forall w x, R w (setExt w x).
Hypothesis R_jobs : forall w j, R w (Jobs.setJobs w j).
Hypothesis R_logs : forall w l, R w (Jobs.setJobLogs w l).
Hypothesis R_sites : forall w s, R w (Jobs.setSites w s).
Hypothesis R_generate : forall this jobId siteId metadata,
    preserves R (Jobs.handleGenerate this jobId siteId metadata).

#[local] Hint Resolve preserves_provisionSite preserves_applyThemeAndPlugins
  preserves_publishVersion : preserve.

Lemma preserves_handleProvision this jobId siteId metadata :
  preserves R (Jobs.handleProvision this jobId siteId metadata).
Proof. unfold Jobs.handleProvision, Jobs.siteFindUnique. preserving. Qed.

Lemma preserves_handlePublish this jobId siteId metadata :
  preserves R (Jobs.handlePublish this jobId siteId metadata).
Proof.
  unfold Jobs.handlePublish, Jobs.siteFindUnique, Jobs.siteVersionFindUnique.
  preserving.
Qed.

Lemma preserves_handleRollback this jobId siteId metadata :
  preserves R (Jobs.handleRollback this jobId siteId metadata).
Proof.
  unfold Jobs.handleRollback, Jobs.siteFindUnique, Jobs.siteVersionFindUnique.
  preserving.
Qed.

#[local] Hint Resolve preserves_handleProvision preserves_handlePublish
  preserves_handleRollback : preserve.

Lemma preserves_dispatch this data : preserves R (Jobs.dispatch this data).
Proof. unfold Jobs.dispatch. preserving. Qed.

#[local] Hint Resolve preserves_dispatch : preserve.

Lemma preserves_processJob this data :
  preserves R (Jobs.processJob this data).
Proof. unfold Jobs.processJob. preserving. Qed.

End Handlers.

(** ** [JobsProcessor.processJob] *)

Section Lifecycle.
Context `{Platform}.

Lemma updateJobStatus_run (w : World) jobId status error row :
  jobs w !! jobId = Some row ->
  Jobs.updateJobStatus jobId status error w
  = (Normal tt,
     Jobs.setJobs w
       (<[jobId :=
            {| job_siteId := job_siteId row; job_type := job_type row;
               job_status := status;
               job_error := match error with
                            | Some m => Some m
                            | None => job_error row
                            end;
               job_statuses := job_statuses row ++ [status] |}]> (jobs w))).
Proof. intros Hrow. unfold Jobs.updateJobStatus. now rewrite Hrow. Qed.

Lemma dispatch_sameJobs this data (w : World) :
  jobs (snd (Jobs.dispatch this data w)) = jobs w.
Proof.
  assert (Htrans : forall w1 w2 w3 : World,
             sameJobs w1 w2 -> sameJobs w2 w3 -> sameJobs w1 w3).
  { unfold sameJobs. intros w1 w2 w3 H12 H23. congruence. }
  apply (preserves_dispatch sameJobs); try easy.
  intros. now apply preserves_handleGenerate.
Qed.

Lemma elem_of_jobTypes (ty : string) :
  ty ∈ jobTypes <->
  ty = "provision" \/ ty = "generate" \/ ty = "publish" \/ ty = "rollback".
Proof. unfold jobTypes. rewrite !elem_of_cons, elem_of_nil. tauto. Qed.

Lemma dispatch_unknown this data (w : World) :
  Jobs.type data ∉ jobTypes ->
  Jobs.dispatch this data w
  = (Throw (Error ("Unknown job type: " +:+ Jobs.type data)), w).
Proof.
  rewrite elem_of_jobTypes. intros Hty. unfold Jobs.dispatch.
  repeat match goal with
         | |- context [String.eqb ?a ?b] =>
             destruct (String.eqb_spec a b); [tauto|]
         end.
  reflexivity.
Qed.

End Lifecycle.

(** C4: the life cycle of a job.  [processJob] dispatches on the four type
    strings [provision], [generate], [publish] and [rollback], and throws
    [Unknown job type] for any other type.  The first thing it does is to set
    the job's status to [running]: for a job without a row this fails, and
    then nothing else has happened, nothing is logged and no handler has run.
    For a job with a row, the handler runs from the world [started], in which
    the status is [running] and the start is logged, and [processJob] ends in
    the world that the handler leaves, with the status set once more and one
    more log entry.  When the handler returns, [processJob] returns and the
    job is [completed]; when the handler or the dispatch throws, the job is
    [failed], the message of the error is recorded on it ([Unknown error] for
    a thrown value that is not an [Error]), and [processJob] throws the same
    error again.  In both cases the job's status has been written exactly
    twice, [running] first. *)
Theorem processJob_lifecycle `{Platform} (this : Jobs.JobsProcessor)
    (data : Jobs.JobData) (w : World) :
  let jobId := Jobs.jobId data in
  let entry message := {| log_jobId := jobId; log_message := message |} in
  (Jobs.type data = "provision" ->
   Jobs.dispatch this data
   = Jobs.handleProvision this jobId (Jobs.siteId data) (Jobs.metadata data))
  /\ (Jobs.type data = "generate" ->
      Jobs.dispatch this data
      = Jobs.handleGenerate this jobId (Jobs.siteId data) (Jobs.metadata data))
  /\ (Jobs.type data = "publish" ->
      Jobs.dispatch this data
      = Jobs.handlePublish this jobId (Jobs.siteId data) (Jobs.metadata data))
  /\ (Jobs.type data = "rollback" ->
      Jobs.dispatch this data
      = Jobs.handleRollback this jobId (Jobs.siteId data) (Jobs.metadata data))
  /\ (Jobs.type data ∉ jobTypes ->
      forall w1 : World,
        Jobs.dispatch this data w1
        = (Throw (Error ("Unknown job type: " +:+ Jobs.type data)), w1))
  /\ match jobs w !! jobId with
     | None => Jobs.processJob this data w = (Throw Jobs.recordNotFound, w)
     | Some row =>
         let started :=
           Jobs.setJobLogs
             (Jobs.setJobs w
                (<[jobId := withStatus row running None]> (jobs w)))
             (jobLogs w
              ++ [entry ("Starting " +:+ Jobs.type data +:+ " job")]) in
         let ended (w2 : World) status error message :=
           Jobs.setJobLogs
             (Jobs.setJobs w2
                (<[jobId := withStatus (withStatus row running None) status
                              error]> (jobs w2)))
             (jobLogs w2 ++ [entry message]) in
         Jobs.processJob this data w
         = match Jobs.dispatch this data started with
           | (Normal _, w2) =>
               (Normal tt,
                ended w2 completed None "Job completed successfully")
           | (Throw error, w2) =>
               (Throw error,
                ended w2 failed (Some (errorMessageOf error))
                  ("Job failed: " +:+ errorMessageOf error))
           end
         /\ exists row',
             jobs (snd (Jobs.processJob this data w)) !! jobId = Some row'
             /\ match fst (Jobs.processJob this data w) with
                | Normal _ =>
                    job_status row' = completed
                    /\ job_error row' = job_error row
                    /\ job_statuses row'
                       = job_statuses row ++ [running; completed]
                | Throw error =>
                    job_status row' = failed
                    /\ job_error row'
                       = Some (if instanceofError error then message error
                               else "Unknown error")
                    /\ job_statuses row'
                       = job_statuses row ++ [running; failed]
                end
     end.
Proof.
  intros jobId entry. subst jobId.
  repeat (split; [intros Hty; unfold Jobs.dispatch; now rewrite Hty|]).
  split; [intros Hty w1; now apply dispatch_unknown|].
  destruct (jobs w !! Jobs.jobId data) as [row|] eqn:Hrow.
  - intros started ended.
    pose proof (dispatch_sameJobs this data started) as Hsame.
    assert (Hrow2 : jobs (snd (Jobs.dispatch this data started))
                    !! Jobs.jobId data
                    = Some (withStatus row running None)).
    { rewrite Hsame. apply lookup_insert_eq. }
    assert (Hrun :
              Jobs.processJob this data w
              = match Jobs.dispatch this data started with
                | (Normal _, w2) =>
                    (Normal tt,
                     ended w2 completed None "Job completed successfully")
                | (Throw error, w2) =>
                    (Throw error,
                     ended w2 failed (Some (errorMessageOf error))
                       ("Job failed: " +:+ errorMessageOf error))
                end).
    { unfold Jobs.processJob. rewrite tryCatch_run, bind_run.
      rewrite (updateJobStatus_run w _ running None row Hrow).
      rewrite bind_run. unfold Jobs.addJobLog at 1. rewrite bind_run.
      change (Jobs.setJobLogs _ _) with started.
      destruct (Jobs.dispatch this data started) as [[[]|error] w2];
        cbn [snd] in Hrow2.
      - rewrite bind_run,
          (updateJobStatus_run w2 _ completed None _ Hrow2).
        reflexivity.
      - rewrite bind_run,
          (updateJobStatus_run w2 _ failed _ _ Hrow2).
        reflexivity. }
    split; [exact Hrun|].
    rewrite Hrun.
    destruct (Jobs.dispatch this data started) as [[[]|error] w2];
      cbn [fst snd]; eexists;
      (split; [apply lookup_insert_eq|]);
      cbn [withStatus job_status job_error job_statuses];
      rewrite <- app_assoc; repeat split.
  - unfold Jobs.processJob. rewrite tryCatch_run, bind_run.
    unfold Jobs.updateJobStatus at 1. rewrite Hrow.
    rewrite bind_run. unfold Jobs.updateJobStatus at 1. now rewrite Hrow.
Qed.

Lemma processJob_lifecycle_witness :
  exists w3 row',
    Jobs.processJob Demo.processor (Demo.jobData "deploy" None)
      (Demo.queuedWorld "deploy")
    = (Throw (Error "Unknown job type: deploy"), w3)
    /\ jobs w3 !! "job-1" = Some row'
    /\ job_status row' = failed
    /\ job_error row' = Some "Unknown job type: deploy"
    /\ job_statuses row' = [running; failed].
Proof.
  destruct (processJob_lifecycle (H := Demo.platform) Demo.processor
              (Demo.jobData "deploy" None) (Demo.queuedWorld "deploy"))
    as (_ & _ & _ & _ & Hunknown & Hrow).
  change (jobs (Demo.queuedWorld "deploy") !! "job-1")
    with (Some (Demo.queuedJob "deploy")) in Hrow.
  cbv beta iota zeta in Hrow. destruct Hrow as (Hrun & row' & Hrow' & Hend).
  rewrite Hunknown in Hrun
    by (rewrite elem_of_jobTypes; cbn; intuition discriminate).
  rewrite Hrun in Hrow', Hend. cbn [fst snd] in Hrow', Hend.
  eexists _, row'. split; [exact Hrun|]. split; [exact Hrow'|]. exact Hend.
Defined.

(** ** [WordPressService.provisionSite] *)

Section Provisioning.
Context `{Platform}.

Lemma runWpCli_run this command (w : World) :
  WordPress.runWpCli this command w
  = match execAsync (WordPress.fullCommandOf this command) (ext w) with
    | (Normal out, x) => (Normal (trim (fst out)), setExt w x)
    | (Throw error, x) => (Throw error, setExt w x)
    end.
Proof.
  unfold WordPress.runWpCli. rewrite tryCatch_run, bind_run, call_run.
  destruct (execAsync _ _) as [[out|error] x]; reflexivity.
Qed.

End Provisioning.

(** C6: when the [site create] command fails, or prints something that
    [parseInt] makes [NaN] of, [provisionSite] throws the error again, unless
    the [NODE_ENV] configuration value is [development]: then it returns a
    simulated result, with a random site id, whose two URLs are built from
    the configured multisite URL and the slug made of the site's name and the
    first 8 characters of its id. *)
Theorem provisionSite_on_failure `{Platform}
    (this : WordPress.WordPressService) (site : WordPress.Site) (w : World)
    (outcome : Completion (string * string)) (x : Ext) (error : JsError) :
  let siteSlug :=
    substring 0 50
      (stripEdgeDashes (dashRuns false (toLowerCase (WordPress.name site))))
    +:+ "-" +:+ substring 0 8 (WordPress.site_id site) in
  execAsync
    (WordPress.fullCommandOf this
       (WordPress.siteCreateCommand siteSlug (WordPress.name site)
          (WordPress.owner_email site)))
    (ext w) = (outcome, x) ->
  (outcome = Throw error
   \/ exists stdout stderr,
       outcome = Normal (stdout, stderr)
       /\ parseInt (trim stdout) = None
       /\ error = Error ("Failed to parse site ID from output: "
                         +:+ trim stdout)) ->
  WordPress.provisionSite this site w
  = if bool_decide
         (WordPress.configService this !! "NODE_ENV" = Some "development")
    then (Normal
            {| WordPress.wpSiteId :=
                 Rand_floorTimes (fst (Math_random x)) 10000;
               WordPress.wpAdminUrl :=
                 WordPress.wpMultisiteUrl this +:+ "/" +:+ siteSlug
                 +:+ "/wp-admin";
               WordPress.wpSiteUrl :=
                 WordPress.wpMultisiteUrl this +:+ "/" +:+ siteSlug |},
          setExt w (snd (Math_random x)))
    else (Throw error, setExt w x).
Proof.
  intros siteSlug Hexec Hfail.
  assert (Hbody :
            (createOutput ←
               WordPress.runWpCli this
                 (WordPress.siteCreateCommand siteSlug (WordPress.name site)
                    (WordPress.owner_email site));
             match parseInt createOutput with
             | None =>
                 throw (Error ("Failed to parse site ID from output: "
                               +:+ createOutput))
             | Some wpSiteId =>
                 mret {| WordPress.wpSiteId := wpSiteId;
                         WordPress.wpAdminUrl :=
                           (WordPress.wpMultisiteUrl this +:+ "/" +:+ siteSlug)
                           +:+ "/wp-admin";
                         WordPress.wpSiteUrl :=
                           WordPress.wpMultisiteUrl this +:+ "/" +:+ siteSlug |}
             end) w = (Throw error, setExt w x)).
  { rewrite bind_run, runWpCli_run, Hexec.
    destruct Hfail as [->|(stdout & stderr & -> & Hnan & ->)];
      [reflexivity|].
    cbn [fst]. now rewrite Hnan. }
  unfold WordPress.provisionSite, WordPress.siteSlugOf.
  fold siteSlug. cbv zeta. rewrite tryCatch_run, Hbody.
  destruct (bool_decide _); [|reflexivity].
  rewrite bind_run, draw_run. reflexivity.
Qed.

Lemma provisionSite_on_failure_witness :
  WordPress.provisionSite Demo.devService Demo.pizzaSite Demo.emptyWorld
  = (Normal
       {| WordPress.wpSiteId := 1;
          WordPress.wpAdminUrl :=
            "http://localhost:8080/joe-s-pizza-pasta-ckv9x2m4/wp-admin";
          WordPress.wpSiteUrl :=
            "http://localhost:8080/joe-s-pizza-pasta-ckv9x2m4" |},
     setExt Demo.emptyWorld 2).
Proof.
  refine (provisionSite_on_failure (H := Demo.platform) Demo.devService
            Demo.pizzaSite Demo.emptyWorld _ 1
            (Error _) eq_refl (or_introl eq_refl)).
Defined.

(** ** [BillingService.hasActiveSubscription] *)

(** C9: [hasActiveSubscription].  The Stripe client is absent exactly when
    no (non-empty) [STRIPE_SECRET_KEY] is configured, and then the answer is
    [true] for every user.  When the client is present the answer is [true]
    if and only if the table holds a subscription of that user whose status
    is [active].  The method changes nothing. *)
Theorem hasActiveSubscription_spec `{Platform} (config : gmap string string)
    (this : Billing.BillingService) (userId : string) (w : World) :
  (Billing.stripe (Billing.new config) = None
   <-> truthy (config !! "STRIPE_SECRET_KEY") = false)
  /\ (Billing.stripe this = None ->
      Billing.hasActiveSubscription this userId w = (Normal true, w))
  /\ (Billing.stripe this <> None ->
      exists answer,
        Billing.hasActiveSubscription this userId w = (Normal answer, w)
        /\ (answer = true
            <-> exists row,
                row ∈ stripeSubscriptions w
                /\ sub_userId row = userId /\ sub_status row = active)).
Proof.
  split; [|split].
  - cbn. unfold truthy. destruct (config !! "STRIPE_SECRET_KEY") as [key|];
      [|tauto].
    destruct (String.eqb key ""); cbn; split; congruence.
  - intros Hnone. unfold Billing.hasActiveSubscription. now rewrite Hnone.
  - intros Hsome. unfold Billing.hasActiveSubscription.
    destruct (Billing.stripe this) as [client|]; [clear Hsome|congruence].
    eexists. split; [reflexivity|].
    rewrite bool_decide_eq_true.
    set (matches := fun row : StripeSubscriptionRow => _ && _).
    destruct (find matches (stripeSubscriptions w)) as [row|] eqn:Hfind.
    + apply find_some in Hfind as [Hin Hrow].
      apply andb_prop in Hrow as [Huser Hstatus].
      apply bool_decide_eq_true in Huser, Hstatus.
      split; [|eauto]. intros _. exists row.
      rewrite list_elem_of_In. auto.
    + split; [intros [? [=]]|].
      intros (row & Hin & Huser & Hstatus).
      apply list_elem_of_In in Hin.
      pose proof (find_none _ _ Hfind row Hin) as Hno.
      unfold matches in Hno.
      rewrite !bool_decide_eq_true_2 in Hno by assumption. discriminate.
Qed.

(** ** Version numbers *)

Section Versions.

Lemma greatestVersion_nil rows :
  Jobs.greatestVersion rows = None <-> rows = [].
Proof.
  destruct rows as [|row rest]; [easy|]. cbn.
  destruct (Jobs.greatestVersion rest) as [best|]; [|easy].
  destruct (_ <? _)%Z; easy.
Qed.

Lemma greatestVersion_greatest rows best :
  Jobs.greatestVersion rows = Some best ->
  best ∈ rows
  /\ forall row, row ∈ rows -> (versionNumber row <= versionNumber best)%Z.
Proof.
  revert best. induction rows as [|row rest IH]; intros best; [easy|].
  cbn. destruct (Jobs.greatestVersion rest) as [best'|] eqn:Hrest.
  - destruct (IH best' eq_refl) as [Hin Hmax].
    destruct (Z.ltb_spec (versionNumber row) (versionNumber best')).
    + intros [= <-]. split; [now right|].
      intros r [->|Hr]%elem_of_cons; [lia | now apply Hmax].
    + intros [= <-]. split; [now left|].
      intros r [->|Hr]%elem_of_cons; [lia|].
      specialize (Hmax r Hr). lia.
  - apply greatestVersion_nil in Hrest as ->.
    intros [= <-]. split; [now left|].
    intros r [->|Hr]%elem_of_cons; [lia | inversion Hr].
Qed.

Lemma orZero_Some n : Jobs.orZero (Some n) = n.
Proof.
  unfold Jobs.orZero, Jobs.truthyNumber.
  destruct (Z.eqb_spec n 0); cbn; congruence.
Qed.

End Versions.

Section VersionTable.
Context `{Platform}.

Lemma siteUpdate_run id data (w : World) row :
  sites w !! id = Some row ->
  Jobs.siteUpdate id data w
  = (Normal tt, Jobs.setSites w (<[id := data row]> (sites w))).
Proof. intros Hrow. unfold Jobs.siteUpdate. now rewrite Hrow. Qed.

Lemma siteVersionCreate_run siteId number content (w : World) :
  (forall row, row ∈ Jobs.versionsOf siteId (siteVersions w) ->
               versionNumber row <> number) ->
  Jobs.siteVersionCreate siteId number content w
  = (Normal {| version_id := fst (cuid (ext w)); version_siteId := siteId;
               versionNumber := number; pageJson := content |},
     setExt
       (Jobs.setSiteVersions w
          (siteVersions w
           ++ [{| version_id := fst (cuid (ext w)); version_siteId := siteId;
                  versionNumber := number; pageJson := content |}]))
       (snd (cuid (ext w)))).
Proof.
  intros Hfree. unfold Jobs.siteVersionCreate.
  destruct (existsb _ _) eqn:Hexists.
  - apply existsb_exists in Hexists as (row & Hin & Hrow).
    apply bool_decide_eq_true in Hrow. apply list_elem_of_In in Hin.
    now destruct (Hfree row Hin).
  - now destruct (cuid (ext w)).
Qed.

Lemma generateSiteContent_run this settings_ (w : World) :
  exists content w',
    Ai.generateSiteContent this settings_ w = (Normal content, w')
    /\ sameDatabase w w'.
Proof.
  destruct (generateSiteContent_returns this settings_ w)
    as (content & w' & Hrun & _).
  exists content, w'. split; [exact Hrun|].
  pose proof (preserves_generateSiteContent sameDatabase) as Hsame.
  assert (Hrefl : forall w0 : World, sameDatabase w0 w0)
    by now unfold sameDatabase.
  assert (Htrans : forall w1 w2 w3 : World,
             sameDatabase w1 w2 -> sameDatabase w2 w3 -> sameDatabase w1 w3).
  { unfold sameDatabase.
    intros w1 w2 w3 (? & ? & ? & ? & ?) (? & ? & ? & ? & ?).
    repeat split; congruence. }
  assert (Hext : forall (w0 : World) x, sameDatabase w0 (setExt w0 x))
    by now unfold sameDatabase.
  specialize (Hsame Hrefl Htrans Hext this settings_ w).
  now rewrite Hrun in Hsame.
Qed.

End VersionTable.

Section GenerateJob.
Context `{Platform}.

Lemma reads_run {A} (f : World -> A) (w : World) :
  reads f w = (Normal (f w), w).
Proof. reflexivity. Qed.

Lemma addJobLog_run jobId message (w : World) :
  Jobs.addJobLog jobId message w
  = (Normal tt,
     Jobs.setJobLogs w
       (jobLogs w ++ [{| log_jobId := jobId; log_message := message |}])).
Proof. reflexivity. Qed.

Ltac step :=
  rewrite bind_run;
  first [ rewrite addJobLog_run | rewrite reads_run ];
  cbv beta iota.

Lemma handleGenerate_creates (this : Jobs.JobsProcessor)
    (jobId siteId : string) (metadata : option Jobs.Metadata) (w : World)
    (site : SiteRow) :
  sites w !! siteId = Some site ->
  (metadata ≫= Jobs.meta_settings <> None
   \/ Jobs.versionsOf siteId (siteVersions w) <> []) ->
  exists version w',
    Jobs.handleGenerate this jobId siteId metadata w = (Normal tt, w')
    /\ siteVersions w' = siteVersions w ++ [version]
    /\ version_siteId version = siteId
    /\ (Jobs.versionsOf siteId (siteVersions w) = [] ->
        versionNumber version = 1%Z)
    /\ (Jobs.versionsOf siteId (siteVersions w) <> [] ->
        exists latest,
          latest ∈ Jobs.versionsOf siteId (siteVersions w)
          /\ versionNumber version = (versionNumber latest + 1)%Z)
    /\ (forall older,
           older ∈ Jobs.versionsOf siteId (siteVersions w) ->
           (versionNumber older < versionNumber version)%Z)
    /\ exists site',
        sites w' !! siteId = Some site'
        /\ currentVersionId site' = Some (version_id version)
        /\ site_status site' = draft.
Proof.
  intros Hsite Hfound.
  set (rows := Jobs.versionsOf siteId (siteVersions w)) in *.
  assert (Hsettings :
            exists settings_,
              match metadata ≫= Jobs.meta_settings with
              | Some s => Some s
              | None => settings <$> (pageJson <$> Jobs.greatestVersion rows)
              end = Some settings_).
  { destruct (metadata ≫= Jobs.meta_settings) as [s|]; [now exists s|].
    destruct Hfound as [|Hrows]; [easy|].
    destruct (Jobs.greatestVersion rows) as [latest|] eqn:Hlatest;
      [now eexists|].
    now apply greatestVersion_nil in Hlatest. }
  destruct Hsettings as [settings_ Hsettings].
  set (number :=
         (Jobs.orZero (versionNumber <$> Jobs.greatestVersion rows) + 1)%Z).
  assert (Hhigher : forall older, older ∈ rows ->
                                  (versionNumber older < number)%Z).
  { intros older Hin. unfold number.
    destruct (Jobs.greatestVersion rows) as [latest|] eqn:Hlatest.
    - apply greatestVersion_greatest in Hlatest as [_ Hmax].
      change (versionNumber <$> Some latest)
        with (Some (versionNumber latest)).
      rewrite orZero_Some. specialize (Hmax older Hin). lia.
    - apply greatestVersion_nil in Hlatest. rewrite Hlatest in Hin.
      inversion Hin. }
  unfold Jobs.handleGenerate, Jobs.siteFindUnique, Jobs.latestVersion.
  step. step. step.
  change (sites (Jobs.setJobLogs w _)) with (sites w).
  change (siteVersions (Jobs.setJobLogs w _)) with (siteVersions w).
  rewrite Hsite. fold rows. rewrite Hsettings.
  rewrite bind_run.
  match goal with
  | |- context [Ai.generateSiteContent ?ai ?s ?w0] =>
      destruct (generateSiteContent_run ai s w0)
        as (content & wb & -> & (_ & _ & Hsites & Hversions & _))
  end.
  cbn [sites siteVersions Jobs.setJobLogs] in Hsites, Hversions.
  step. step.
  change (siteVersions (Jobs.setJobLogs wb _)) with (siteVersions wb).
  rewrite Hversions. fold rows. fold number.
  rewrite bind_run, siteVersionCreate_run; cycle 1.
  { change (siteVersions (Jobs.setJobLogs wb _)) with (siteVersions wb).
    rewrite Hversions. fold rows. intros row Hin.
    specialize (Hhigher row Hin). lia. }
  cbv beta iota. step.
  rewrite (siteUpdate_run _ _ _ site);
    [|exact (eq_trans (f_equal (.!! siteId) Hsites) Hsite)].
  do 2 eexists. split; [reflexivity|].
  cbn [siteVersions sites Jobs.setSites Jobs.setJobLogs setExt
       Jobs.setSiteVersions version_siteId versionNumber version_id].
  rewrite Hversions.
  split; [reflexivity|]. split; [reflexivity|].
  split.
  { intros Hnil. unfold number. now rewrite Hnil. }
  split.
  { intros Hrows. unfold number.
    destruct (Jobs.greatestVersion rows) as [latest|] eqn:Hlatest.
    - exists latest. split; [now apply greatestVersion_greatest|].
      change (versionNumber <$> Some latest)
        with (Some (versionNumber latest)).
      now rewrite orZero_Some.
    - now apply greatestVersion_nil in Hlatest. }
  split; [exact Hhigher|].
  eexists. split; [apply lookup_insert_eq|]. split; reflexivity.
Qed.

Lemma latestIsHighest_snoc rows version :
  latestIsHighest rows ->
  (forall older,
      older ∈ Jobs.versionsOf (version_siteId version) rows ->
      (versionNumber older < versionNumber version)%Z) ->
  latestIsHighest (rows ++ [version]).
Proof.
  intros Hinv Hhigher siteId earlier latest.
  unfold Jobs.versionsOf. rewrite filter_app.
  destruct (decide (version_siteId version = siteId)) as [<-|Hother].
  - rewrite (filter_cons_True _ version []) by reflexivity.
    rewrite filter_nil. intros [<- [= <-]]%app_inj_tail. exact Hhigher.
  - rewrite (filter_cons_False _ version []) by exact Hother.
    rewrite filter_nil, app_nil_r. apply Hinv.
Qed.

Lemma handleGenerate_keeps this jobId siteId metadata :
  preserves keepsLatestHighest
    (Jobs.handleGenerate this jobId siteId metadata).
Proof.
  intros w Hinv.
  destruct (sites w !! siteId) as [site|] eqn:Hsite.
  - destruct (metadata ≫= Jobs.meta_settings) as [s|] eqn:Hmeta;
      [|destruct (Jobs.versionsOf siteId (siteVersions w)) as [|row rows]
          eqn:Hrows].
    + destruct (handleGenerate_creates this jobId siteId metadata w site Hsite)
        as (version & w' & Hrun & Hrows' & Hid & _ & _ & Hhigher & _).
      { left. now rewrite Hmeta. }
      rewrite Hrun. cbn [snd]. rewrite Hrows'.
      apply latestIsHighest_snoc; [exact Hinv | now rewrite Hid].
    + unfold Jobs.handleGenerate, Jobs.siteFindUnique, Jobs.latestVersion.
      step. step. step.
      change (sites (Jobs.setJobLogs w _)) with (sites w).
      change (siteVersions (Jobs.setJobLogs w _)) with (siteVersions w).
      rewrite Hsite, Hmeta, Hrows. exact Hinv.
    + destruct (handleGenerate_creates this jobId siteId metadata w site Hsite)
        as (version & w' & Hrun & Hrows' & Hid & _ & _ & Hhigher & _).
      { right. now rewrite Hrows. }
      rewrite Hrun. cbn [snd]. rewrite Hrows'.
      apply latestIsHighest_snoc; [exact Hinv | now rewrite Hid].
  - unfold Jobs.handleGenerate, Jobs.siteFindUnique, Jobs.latestVersion.
    step. step. step.
    change (sites (Jobs.setJobLogs w _)) with (sites w).
    rewrite Hsite. exact Hinv.
Qed.

Lemma processJob_keeps this data :
  preserves keepsLatestHighest (Jobs.processJob this data).
Proof.
  apply preserves_processJob; try (unfold keepsLatestHighest; now auto).
  apply handleGenerate_keeps.
Qed.

Lemma handleGenerate_no_site this jobId siteId metadata (w : World) :
  sites w !! siteId = None ->
  Jobs.handleGenerate this jobId siteId metadata w
  = (Throw (Error "Site not found"),
     Jobs.setJobLogs w
       (jobLogs w ++ [{| log_jobId := jobId;
                         log_message := "Generating content with AI..." |}])).
Proof.
  intros Hsite.
  unfold Jobs.handleGenerate, Jobs.siteFindUnique, Jobs.latestVersion.
  step. step. step.
  change (sites (Jobs.setJobLogs w _)) with (sites w).
  now rewrite Hsite.
Qed.

Lemma handleGenerate_no_settings this jobId siteId metadata (w : World)
    site :
  sites w !! siteId = Some site ->
  metadata ≫= Jobs.meta_settings = None ->
  Jobs.versionsOf siteId (siteVersions w) = [] ->
  Jobs.handleGenerate this jobId siteId metadata w
  = (Throw (Error "No settings found for generation"),
     Jobs.setJobLogs w
       (jobLogs w ++ [{| log_jobId := jobId;
                         log_message := "Generating content with AI..." |}])).
Proof.
  intros Hsite Hmeta Hrows.
  unfold Jobs.handleGenerate, Jobs.siteFindUnique, Jobs.latestVersion.
  step. step. step.
  change (sites (Jobs.setJobLogs w _)) with (sites w).
  change (siteVersions (Jobs.setJobLogs w _)) with (siteVersions w).
  now rewrite Hsite, Hmeta, Hrows.
Qed.

End GenerateJob.

(** C10 (amended): version numbering.  A [generate] job whose site exists
    and for which settings are found (in the job's metadata or, failing
    that, in the site's latest version) creates one [SiteVersion], whose
    number is one greater than the greatest number among the site's versions
    (1 when the site has none) and so greater than all of them; it then sets
    the site's [currentVersionId] to the new version and its status to
    [draft].  A job that finds no site, or no settings, throws before
    anything is created.  So, whatever jobs are processed, the version
    created last for a site carries the site's highest number. *)
Theorem handleGenerate_numbers_versions `{Platform}
    (this : Jobs.JobsProcessor) (jobId siteId : string)
    (metadata : option Jobs.Metadata) (w : World) :
  let rows := Jobs.versionsOf siteId (siteVersions w) in
  let logged :=
    Jobs.setJobLogs w
      (jobLogs w ++ [{| log_jobId := jobId;
                        log_message := "Generating content with AI..." |}]) in
  match sites w !! siteId, metadata ≫= Jobs.meta_settings, rows with
  | None, _, _ =>
      Jobs.handleGenerate this jobId siteId metadata w
      = (Throw (Error "Site not found"), logged)
  | Some _, None, [] =>
      Jobs.handleGenerate this jobId siteId metadata w
      = (Throw (Error "No settings found for generation"), logged)
  | Some _, _, _ =>
      exists version w',
        Jobs.handleGenerate this jobId siteId metadata w = (Normal tt, w')
        /\ siteVersions w' = siteVersions w ++ [version]
        /\ version_siteId version = siteId
        /\ (rows = [] -> versionNumber version = 1%Z)
        /\ (rows <> [] ->
            exists latest,
              latest ∈ rows
              /\ versionNumber version = (versionNumber latest + 1)%Z)
        /\ (forall older,
               older ∈ rows ->
               (versionNumber older < versionNumber version)%Z)
        /\ exists site',
            sites w' !! siteId = Some site'
            /\ currentVersionId site' = Some (version_id version)
            /\ site_status site' = draft
  end
  /\ forall data w0,
      latestIsHighest (siteVersions w0) ->
      latestIsHighest (siteVersions (snd (Jobs.processJob this data w0))).
Proof.
  intros rows logged. split; [|intros data w0; apply processJob_keeps].
  destruct (sites w !! siteId) as [site|] eqn:Hsite;
    [|now apply handleGenerate_no_site].
  destruct (metadata ≫= Jobs.meta_settings) as [s|] eqn:Hmeta.
  - apply (handleGenerate_creates this jobId siteId metadata w site Hsite).
    left. now rewrite Hmeta.
  - destruct rows as [|row rest] eqn:Hrows.
    + now apply (handleGenerate_no_settings this jobId siteId metadata w site).
    + fold rows. rewrite <- Hrows.
      apply (handleGenerate_creates this jobId siteId metadata w site Hsite).
      right. fold rows. now rewrite Hrows.
Qed.

(** C10 as stated, that every [generate] job creates a version (numbered
    1 when the site has none), fails on a job without settings for a site
    that has no version yet: the job throws and the table stays empty. *)
Lemma generate_job_without_settings_creates_nothing :
  sites (Demo.queuedWorld "generate") !! "site-1" = Some Demo.newSite
  /\ Jobs.versionsOf "site-1" (siteVersions (Demo.queuedWorld "generate")) = []
  /\ fst (Jobs.processJob Demo.processor (Demo.jobData "generate" None)
            (Demo.queuedWorld "generate"))
     = Throw (Error "No settings found for generation")
  /\ siteVersions
       (snd (Jobs.processJob Demo.processor (Demo.jobData "generate" None)
               (Demo.queuedWorld "generate")))
     = [].
Proof. vm_compute. repeat split; reflexivity. Qed.

Lemma handleGenerate_numbers_versions_witness :
  exists version w',
    Jobs.handleGenerate Demo.processor "job-1" "site-1"
      (Some {| Jobs.meta_settings := Some Demo.acmeSettings;
               Jobs.meta_versionId := None |})
      (Demo.queuedWorld "generate") = (Normal tt, w')
    /\ siteVersions w' = [version]
    /\ versionNumber version = 1%Z
    /\ currentVersionId <$> sites w' !! "site-1"
       = Some (Some (version_id version)).
Proof.
  destruct (handleGenerate_numbers_versions (H := Demo.platform)
              Demo.processor "job-1" "site-1"
              (Some {| Jobs.meta_settings := Some Demo.acmeSettings;
                       Jobs.meta_versionId := None |})
              (Demo.queuedWorld "generate")) as [Hrun _].
  assert (Hsite : sites (Demo.queuedWorld "generate") !! "site-1"
                  = Some Demo.newSite) by reflexivity.
  rewrite Hsite in Hrun.
  destruct Hrun
    as (version & w' & Hrun & Hrows & _ & Hfirst & _ & _ & site' & Hsite'
        & Hcurrent & _).
  exists version, w'. split; [exact Hrun|]. split; [exact Hrows|].
  split; [now apply Hfirst|]. now rewrite Hsite', <- Hcurrent.
Defined.

(** * Further properties of the services *)

(** ** Escaping, read back *)

Section ReadBack.
Import WordPress.
Variable this : WordPressService.

Lemma append_nil_l (s : string) : "" +:+ s = s.
Proof. reflexivity. Qed.

(** What [escapeHtml] makes of one character *)
Lemma escapeHtml_one (a : ascii) :
  escapeHtml this (String a "")
  = if Ascii.eqb a "&" then "&amp;"
    else if Ascii.eqb a "<" then "&lt;"
    else if Ascii.eqb a ">" then "&gt;"
    else if Ascii.eqb a "034" then "&quot;"
    else if Ascii.eqb a "'" then "&#039;"
    else String a "".
Proof.
  destruct a as [[] [] [] [] [] [] [] []]; vm_compute; reflexivity.
Qed.

Lemma decodeEntities_other (a : ascii) (rest : string) :
  a <> "&"%char ->
  decodeEntities (String a rest) = String a (decodeEntities rest).
Proof.
  intros Ha.
  destruct a as [[] [] [] [] [] [] [] []];
    try reflexivity; now destruct Ha.
Qed.

Lemma decodeEntities_escapeHtml (str : string) :
  decodeEntities (escapeHtml this str) = str.
Proof.
  induction str as [|a rest IH]; [reflexivity|].
  change (String a rest) with (String a "" +:+ rest) at 1.
  rewrite escapeHtml_append, escapeHtml_one.
  destruct (Ascii.eqb_spec a "&") as [->|Hamp].
  { rewrite !append_cons, append_nil_l. cbn [decodeEntities]. now rewrite IH. }
  destruct (Ascii.eqb_spec a "<") as [->|Hlt].
  { rewrite !append_cons, append_nil_l. cbn [decodeEntities]. now rewrite IH. }
  destruct (Ascii.eqb_spec a ">") as [->|Hgt].
  { rewrite !append_cons, append_nil_l. cbn [decodeEntities]. now rewrite IH. }
  destruct (Ascii.eqb_spec a "034") as [->|Hdq].
  { rewrite !append_cons, append_nil_l. cbn [decodeEntities]. now rewrite IH. }
  destruct (Ascii.eqb_spec a "'") as [->|Hap].
  { rewrite !append_cons, append_nil_l. cbn [decodeEntities]. now rewrite IH. }
  rewrite append_cons, append_nil_l, decodeEntities_other by exact Hamp.
  now rewrite IH.
Qed.

Lemma shellWord_escapeShell (str : string) :
  shellWord true (escapeShell this str +:+ "'") = Some str.
Proof.
  induction str as [|a rest IH]; [reflexivity|].
  unfold escapeShell in *. cbn [replaceAll].
  destruct (Ascii.eqb_spec a "'") as [->|Hap].
  - rewrite append_assoc, !append_cons, append_nil_l.
    cbn [shellWord]. cbn. rewrite IH. reflexivity.
  - rewrite append_assoc, append_cons, append_nil_l. cbn [shellWord].
    apply Ascii.eqb_neq in Hap. rewrite Hap, IH. reflexivity.
Qed.

End ReadBack.

(** X1: [escapeHtml] loses nothing.  Reading the five character references
    of its output back as their characters gives the text again, so two
    different texts never escape to the same markup. *)
Theorem escapeHtml_reads_back (this : WordPress.WordPressService)
    (str other : string) :
  decodeEntities (WordPress.escapeHtml this str) = str
  /\ (WordPress.escapeHtml this str = WordPress.escapeHtml this other ->
      str = other).
Proof.
  split; [apply decodeEntities_escapeHtml|].
  intros Hsame.
  rewrite <- (decodeEntities_escapeHtml this str), Hsame.
  apply decodeEntities_escapeHtml.
Qed.

(** X2: a text escaped by [escapeShell] and put between single quotes, as
    the WP-CLI commands put it, is read by a POSIX shell as one word, and
    that word is the text: no quote of the text ends the quoting. *)
Theorem escapeShell_quotes_one_word (this : WordPress.WordPressService)
    (str : string) :
  shellWord false ("'" +:+ WordPress.escapeShell this str +:+ "'") = Some str.
Proof.
  rewrite append_cons. cbn [shellWord]. cbn.
  apply shellWord_escapeShell.
Qed.

(** ** What the markup does not depend on *)

Lemma mapM_ext_Forall {A B} (f g : A -> Completion B) (l : list A) :
  Forall (fun x => f x = g x) l -> mapM f l = mapM g l.
Proof.
  induction 1 as [|x l Hx _ IH]; [reflexivity|].
  rewrite !mapM_cons, Hx, IH. reflexivity.
Qed.

Lemma mapM_map {A B C} (f : B -> Completion C) (g : A -> B) (l : list A) :
  mapM f (map g l) = mapM (fun x => f (g x)) l.
Proof.
  induction l as [|x l IH]; [reflexivity|].
  cbn [map]. rewrite !mapM_cons, IH. reflexivity.
Qed.

Section Independence.
Import WordPress.
Variable this : WordPressService.

Lemma compileBlock_accent (block : Block) (c1 c2 : string) :
  String.eqb (block_type block) "button" = false ->
  compileBlockToHtml this block c1 = compileBlockToHtml this block c2
  /\ compileBlockToGutenberg this block c1
     = compileBlockToGutenberg this block c2.
Proof.
  intros Hty. unfold compileBlockToHtml, compileBlockToGutenberg.
  rewrite Hty. split; reflexivity.
Qed.

Lemma compileSection_accent (section : Section) (c1 c2 : string) :
  existsb (fun block : Block => String.eqb (block_type block) "button")
          (blocks section) = false ->
  compileSectionToHtml this section c1 = compileSectionToHtml this section c2
  /\ compileSectionToGutenberg this section c1
     = compileSectionToGutenberg this section c2.
Proof.
  intros Hnone.
  assert (Hblocks : Forall (fun block : Block =>
                              String.eqb (block_type block) "button" = false)
                           (blocks section)).
  { apply Forall_forall. intros block Hin.
    apply list_elem_of_In in Hin.
    destruct (String.eqb (block_type block) "button") eqn:Hty; [|reflexivity].
    rewrite <- Hnone. symmetry. apply existsb_exists. eauto. }
  unfold compileSectionToHtml, compileSectionToGutenberg.
  split; (erewrite mapM_ext_Forall; [reflexivity|]);
    (eapply Forall_impl; [exact Hblocks|]);
    intros block Hty; now apply compileBlock_accent.
Qed.

Lemma map_blankItem (g : ListItem -> string) (items_ : list ListItem) :
  (forall item, g (blankItem item) = g item) ->
  map g (map blankItem items_) = map g items_.
Proof.
  intros Hg. rewrite map_map. apply map_ext. exact Hg.
Qed.

Lemma compileBlock_blank (block : Block) (accentColor : string) :
  compileBlockToHtml this (blankBlock block) accentColor
  = compileBlockToHtml this block accentColor
  /\ compileBlockToGutenberg this (blankBlock block) accentColor
     = compileBlockToGutenberg this block accentColor.
Proof.
  destruct block as [id ty p].
  unfold compileBlockToHtml, compileBlockToGutenberg, blankBlock.
  cbn [block_type props].
  destruct p as [t|i|b|l]; cbn [blankProps]; try (split; reflexivity).
  destruct (String.eqb ty "text");
    [cbn [asTextProps mbind Completion_bind]; split; reflexivity|].
  destruct (String.eqb ty "image");
    [cbn [asImageProps mbind Completion_bind]; split; reflexivity|].
  destruct (String.eqb ty "button");
    [cbn [asButtonProps mbind Completion_bind]; split; reflexivity|].
  destruct (String.eqb ty "list"); [|split; reflexivity].
  cbn [asListProps mbind Completion_bind items layout].
  rewrite !map_blankItem by (intros item; reflexivity).
  split; reflexivity.
Qed.

Lemma compileSection_blank (keep : bool) (section : Section)
    (accentColor : string) :
  compileSectionToGutenberg this (blankSection keep section) accentColor
  = compileSectionToGutenberg this section accentColor
  /\ compileSectionToHtml this (blankSection true section) accentColor
     = compileSectionToHtml this section accentColor.
Proof.
  unfold compileSectionToGutenberg, compileSectionToHtml, blankSection.
  cbn [blocks section_type section_id]. rewrite !mapM_map.
  split; (erewrite mapM_ext; [reflexivity|]); intros block;
    apply compileBlock_blank.
Qed.

End Independence.

(** X3: the accent colour reaches the markup through button blocks only.  A
    page without a block of type [button] compiles to the same result, in
    HTML and in Gutenberg markup, under any two accent colours. *)
Theorem accent_colour_reaches_buttons_only (this : WordPress.WordPressService)
    (page : Page) (c1 c2 : string) :
  hasButton page = false ->
  WordPress.compilePageToHtml this page c1
  = WordPress.compilePageToHtml this page c2
  /\ WordPress.compilePageToGutenberg this page c1
     = WordPress.compilePageToGutenberg this page c2.
Proof.
  intros Hnone.
  assert (Hsections :
            Forall (fun section : Section =>
                      existsb (fun block : Block =>
                                 String.eqb (block_type block) "button")
                              (blocks section) = false)
                   (sections page)).
  { apply Forall_forall. intros section Hin. apply list_elem_of_In in Hin.
    destruct (existsb _ (blocks section)) eqn:Hsome; [|reflexivity].
    rewrite <- Hnone. symmetry. apply existsb_exists. eauto. }
  unfold WordPress.compilePageToHtml, WordPress.compilePageToGutenberg.
  split; (erewrite mapM_ext_Forall; [reflexivity|]);
    (eapply Forall_impl; [exact Hsections|]);
    intros section Hsection; now apply compileSection_accent.
Qed.

Lemma accent_colour_reaches_buttons_only_witness :
  hasButton Demo.plainPage = false
  /\ WordPress.compilePageToHtml (WordPress.new ∅) Demo.plainPage "#2563EB"
     = WordPress.compilePageToHtml (WordPress.new ∅) Demo.plainPage "#DC2626".
Proof.
  split; [reflexivity|].

  exact (proj1 (accent_colour_reaches_buttons_only (WordPress.new ∅) Demo.plainPage
           "#2563EB" "#DC2626" eq_refl)).
Defined.

(** X4: the compilers read neither the page's title and slug, nor the
    sections' variants, nor the ids of blocks and list items, nor the icons:
    blanking all of them changes neither output.  The Gutenberg markup
    ignores the ids of the sections as well; the HTML is the same once they
    are kept. *)
Theorem markup_leaves_ids_out (this : WordPress.WordPressService)
    (page : Page) (accentColor : string) :
  WordPress.compilePageToGutenberg this (blankPage false page) accentColor
  = WordPress.compilePageToGutenberg this page accentColor
  /\ WordPress.compilePageToHtml this (blankPage true page) accentColor
     = WordPress.compilePageToHtml this page accentColor.
Proof.
  unfold WordPress.compilePageToGutenberg, WordPress.compilePageToHtml,
    blankPage.
  cbn [sections]. rewrite !mapM_map.
  split; (erewrite mapM_ext; [reflexivity|]); intros section.
  - exact (proj1 (compileSection_blank this false section accentColor)).
  - exact (proj2 (compileSection_blank this true section accentColor)).
Qed.

(** ** The slug of a provisioned site *)

Section Slug.

Lemma doubleDash_cons (a : ascii) (rest : string) :
  doubleDash (String a rest)
  = (Ascii.eqb a "-" && leadingDash rest) || doubleDash rest.
Proof. reflexivity. Qed.

Lemma isSlugChar_dash : isSlugChar "-" = true.
Proof. reflexivity. Qed.

Lemma isLowerAlnum_not_dash (a : ascii) :
  isLowerAlnum a = true -> Ascii.eqb a "-" = false.
Proof.
  destruct (Ascii.eqb_spec a "-") as [->|]; [discriminate | reflexivity].
Qed.

(** The runs are collapsed: what [dashRuns] returns has slug characters
    only and no two dashes in a row, and does not start with a dash when a
    run is under way. *)
Lemma dashRuns_shape (inRun : bool) (str : string) :
  allChars isSlugChar (dashRuns inRun str) = true
  /\ doubleDash (dashRuns inRun str) = false
  /\ (inRun = true -> leadingDash (dashRuns inRun str) = false).
Proof.
  revert inRun. induction str as [|a rest IH]; intros inRun; [easy|].
  cbn [dashRuns].
  destruct (isLowerAlnum a) eqn:Ha.
  - destruct (IH false) as (Hchars & Hdouble & _).
    cbn [allChars leadingDash]. rewrite doubleDash_cons.
    unfold isSlugChar at 1. rewrite Ha, Hchars, Hdouble.
    rewrite (isLowerAlnum_not_dash a Ha). easy.
  - destruct (IH true) as (Hchars & Hdouble & Hlead).
    destruct inRun; [easy|].
    cbn [allChars leadingDash]. rewrite doubleDash_cons.
    rewrite isSlugChar_dash, Hchars, Hdouble, (Hlead eq_refl). easy.
Qed.

Lemma dropLeadingDash_shape (str : string) :
  allChars isSlugChar str = true -> doubleDash str = false ->
  allChars isSlugChar (dropLeadingDash str) = true
  /\ doubleDash (dropLeadingDash str) = false
  /\ leadingDash (dropLeadingDash str) = false.
Proof.
  destruct str as [|a rest]; [easy|].
  cbn [allChars]. rewrite doubleDash_cons. intros Hchars Hdouble.
  apply andb_prop in Hchars as [Ha Hrest].
  apply orb_false_elim in Hdouble as [Hpair Hdouble].
  destruct (Ascii.eqb_spec a "-") as [->|Hne].
  - cbn [dropLeadingDash]. cbn in Hpair. easy.
  - assert (Hkeep : dropLeadingDash (String a rest) = String a rest).
    { destruct a as [[] [] [] [] [] [] [] []]; try reflexivity.
      now destruct Hne. }
    rewrite Hkeep. cbn [allChars leadingDash]. rewrite doubleDash_cons.
    apply Ascii.eqb_neq in Hne. rewrite Ha, Hrest, Hne, Hdouble. easy.
Qed.

Lemma dropTrailingDash_lead (str : string) :
  leadingDash str = false -> leadingDash (dropTrailingDash str) = false.
Proof.
  destruct str as [|a rest]; [easy|]. cbn [leadingDash dropTrailingDash].
  intros Ha. rewrite Ha. cbn [andb leadingDash]. exact Ha.
Qed.

Lemma dropTrailingDash_shape (str : string) :
  allChars isSlugChar str = true -> doubleDash str = false ->
  allChars isSlugChar (dropTrailingDash str) = true
  /\ doubleDash (dropTrailingDash str) = false.
Proof.
  induction str as [|a rest IH]; [easy|].
  cbn [allChars]. rewrite doubleDash_cons. intros Hchars Hdouble.
  apply andb_prop in Hchars as [Ha Hrest].
  apply orb_false_elim in Hdouble as [Hpair Hdouble].
  destruct (IH Hrest Hdouble) as [Hchars' Hdouble'].
  cbn [dropTrailingDash].
  destruct (Ascii.eqb a "-" && String.eqb rest "") eqn:Hlast; [easy|].
  cbn [allChars]. rewrite doubleDash_cons, Ha, Hchars', Hdouble'.
  split; [reflexivity|]. rewrite orb_false_r.
  destruct (Ascii.eqb a "-"); [|reflexivity]. cbn [andb] in *.
  now apply dropTrailingDash_lead.
Qed.

Lemma prefix_chars (p : ascii -> bool) (n : nat) (str : string) :
  allChars p str = true -> allChars p (String.substring 0 n str) = true.
Proof.
  revert str. induction n as [|n IH]; intros [|a rest]; try easy.
  cbn [allChars String.substring]. intros [Ha Hrest]%andb_prop.
  now rewrite Ha, IH.
Qed.

Lemma prefix_lead (n : nat) (str : string) :
  leadingDash str = false -> leadingDash (String.substring 0 n str) = false.
Proof. destruct n, str; easy. Qed.

Lemma prefix_double (n : nat) (str : string) :
  doubleDash str = false -> doubleDash (String.substring 0 n str) = false.
Proof.
  revert str. induction n as [|n IH]; intros [|a rest]; try easy.
  cbn [String.substring]. rewrite !doubleDash_cons.
  intros [Hpair Hdouble]%orb_false_elim.
  rewrite (IH rest Hdouble), orb_false_r.
  destruct (Ascii.eqb a "-"); [|reflexivity]. cbn [andb] in *.
  now apply prefix_lead.
Qed.

Lemma prefix_length (n : nat) (str : string) :
  String.length (String.substring 0 n str) <= n.
Proof.
  revert str. induction n as [|n IH]; intros [|a rest]; cbn; try lia.
  specialize (IH rest). lia.
Qed.

End Slug.

(** X5: the slug under which [provisionSite] creates a site is a part made
    of the site's name, a dash and the first eight characters of the site's
    id.  The part made of the name is at most 50 characters long, holds
    only lower-case letters, digits and dashes, never two dashes in a row,
    and does not start with a dash. *)
Theorem siteSlug_shape (site : WordPress.Site) :
  exists slug,
    WordPress.siteSlugOf site
    = slug +:+ "-" +:+ substring 0 8 (WordPress.site_id site)
    /\ String.length slug <= 50
    /\ allChars isSlugChar slug = true
    /\ doubleDash slug = false
    /\ leadingDash slug = false.
Proof.
  eexists. split; [reflexivity|].
  set (name := toLowerCase (WordPress.name site)).
  destruct (dashRuns_shape false name) as (Hchars & Hdouble & _).
  destruct (dropLeadingDash_shape _ Hchars Hdouble) as (Hchars1 & Hdouble1 & Hlead1).
  destruct (dropTrailingDash_shape _ Hchars1 Hdouble1) as (Hchars2 & Hdouble2).
  pose proof (dropTrailingDash_lead _ Hlead1) as Hlead2.
  unfold substring, stripEdgeDashes. rewrite Nat.sub_0_r.
  split; [apply prefix_length|].
  split; [now apply prefix_chars|].
  split; [now apply prefix_double | now apply prefix_lead].
Qed.

(** ** Computations that throw *)

Section Throwing.
Context `{Platform}.

Lemma throws_throw {A} (e : JsError) : throws (throw (A := A) e).
Proof. intros w. now exists e, w. Qed.

Lemma throws_bind_l {A B} (m : M A) (k : A -> M B) :
  throws m -> throws (m ≫= k).
Proof.
  intros Hm w. destruct (Hm w) as (e & w' & Hrun).
  exists e, w'. now rewrite bind_run, Hrun.
Qed.

Lemma throws_bind_r {A B} (m : M A) (k : A -> M B) :
  returns m (fun _ => True) -> (forall a, throws (k a)) -> throws (m ≫= k).
Proof.
  intros Hm Hk w. destruct (Hm w) as (a & w' & Hrun & _).
  rewrite bind_run, Hrun. apply Hk.
Qed.

Lemma ensures_tryCatch {A} (body : M A) (handler : JsError -> M A)
    (P : A -> Prop) :
  ensures body P -> (forall e, ensures (handler e) P) ->
  ensures (tryCatch body handler) P.
Proof.
  intros Hbody Hhandler w a w'. rewrite tryCatch_run.
  destruct (body w) as [[b|e] w1] eqn:Hrun.
  - intros [= <- <-]. eapply Hbody, Hrun.
  - apply Hhandler.
Qed.

Lemma sameDatabase_refl (w : World) : sameDatabase w w.
Proof. now unfold sameDatabase. Qed.

Lemma sameDatabase_trans (w1 w2 w3 : World) :
  sameDatabase w1 w2 -> sameDatabase w2 w3 -> sameDatabase w1 w3.
Proof.
  unfold sameDatabase. intros (? & ? & ? & ? & ?) (? & ? & ? & ? & ?).
  repeat split; congruence.
Qed.

Lemma sameDatabase_setExt (w : World) x : sameDatabase w (setExt w x).
Proof. now unfold sameDatabase. Qed.

End Throwing.

#[local] Hint Resolve sameDatabase_refl sameDatabase_trans sameDatabase_setExt
  : preserve.

Ltac returns_any :=
  first [ apply returns_generateId
        | apply returns_getFullYear
        | apply returns_ret_any
        | apply returns_mapM; intros ?; returns_any
        | eapply returns_bind; [returns_any | intros ? _; returns_any] ].

Ltac throwing :=
  repeat first
    [ apply throws_throw
    | apply throws_bind_l; apply throws_throw
    | apply throws_bind_r; [returns_any | intros ?] ].

Section Answers.
Context `{Platform}.
Variable this : Ai.AiService.
Variable settings_ : SiteSettings.

Lemma buildHomePage_throws (data : AiJson) :
  answerIncomplete data -> throws (Ai.buildHomePage this settings_ data).
Proof.
  unfold Ai.buildHomePage.
  destruct data as [|d]; cbn [answerIncomplete Ai.readText Ai.mapArray].
  - intros _. throwing.
  - destruct (services d) as [svc|] eqn:Hsvc.
    + intros [|Htst]; [easy|]. rewrite Htst. throwing.
    + intros _. throwing.
Qed.

Lemma generateHomePage_parsed (w : World) response x data :
  chatCompletionsCreate (Ai.homePagePrompt settings_) (ext w)
  = (Normal response, x) ->
  JSON_parse (default "" response) = Normal data ->
  Ai.generateHomePage this settings_ w
  = Ai.buildHomePage this settings_ data (setExt w x).
Proof.
  intros Hchat Hparse. unfold Ai.generateHomePage.
  rewrite bind_run, call_run, Hchat. cbn [fst snd]. now rewrite Hparse.
Qed.

End Answers.

(** X6: with an API key, when the model's answer parses but lacks what
    [buildHomePage] reads (it is [null], or it has no services or no
    testimonials), [generateSiteContent] does not fail: it returns what
    [generateFallbackContent] returns, run on the same database. *)
Theorem incomplete_answer_falls_back `{Platform} (this : Ai.AiService)
    (settings_ : SiteSettings) (w : World) (response : option string)
    (x : Ext) (data : AiJson) :
  Ai.openai this <> None ->
  chatCompletionsCreate (Ai.homePagePrompt settings_) (ext w)
  = (Normal response, x) ->
  JSON_parse (default "" response) = Normal data ->
  match data with
  | JsonNull => True
  | JsonObject d => services d = None \/ testimonials d = None
  end ->
  exists w1,
    Ai.generateSiteContent this settings_ w
    = Ai.generateFallbackContent this settings_ w1
    /\ sameDatabase w w1.
Proof.
  intros Hclient Hchat Hparse Hdata.
  unfold Ai.generateSiteContent.
  destruct (Ai.openai this) as [client|]; [clear Hclient|congruence].
  rewrite tryCatch_run, bind_run.
  rewrite (generateHomePage_parsed this settings_ w response x data Hchat Hparse).
  destruct (buildHomePage_throws this settings_ data Hdata (setExt w x))
    as (e & w1 & Hrun).
  pose proof (preserves_buildHomePage sameDatabase sameDatabase_refl
                sameDatabase_trans sameDatabase_setExt this settings_ data
                (setExt w x)) as Hsame.
  rewrite Hrun in *. cbn [snd] in Hsame.
  exists w1. split; [reflexivity|].
  eapply sameDatabase_trans; [apply sameDatabase_setExt | exact Hsame].
Qed.

Lemma incomplete_answer_falls_back_witness :
  exists w1,
    Ai.generateSiteContent (H := Demo.hosted) Demo.aiService
      Demo.acmeSettings (Demo.hostedWorld 0)
    = Ai.generateFallbackContent Demo.aiService Demo.acmeSettings w1
    /\ sameDatabase (Demo.hostedWorld 0) w1.
Proof.
  apply (incomplete_answer_falls_back (H := Demo.hosted) Demo.aiService
           Demo.acmeSettings (Demo.hostedWorld 0) (Some "null") 1 JsonNull).
  - discriminate.
  - reflexivity.
  - reflexivity.
  - exact I.
Defined.

(** ** Generated content and the compilers *)

Section Compiles.
Import WordPress.
Variable this : WordPressService.
Variable accentColor : string.

Lemma compilePage_outcome (page : Page) :
  if conformsPage page
  then (exists html, compilePageToHtml this page accentColor = Normal html)
       /\ (exists markup,
              compilePageToGutenberg this page accentColor = Normal markup)
  else (exists m, compilePageToHtml this page accentColor = Throw (TypeError m))
       /\ (exists m,
              compilePageToGutenberg this page accentColor
              = Throw (TypeError m)).
Proof.
  pose proof (wrapped_mapM_outcome
                (fun section => compileSectionToHtml this section accentColor)
                conformsSection (join nl) (sections page)
                (compileSectionToHtml_total this accentColor)) as Hhtml.
  pose proof (wrapped_mapM_outcome
                (fun section => compileSectionToGutenberg this section accentColor)
                conformsSection (join (nl +:+ nl)) (sections page)
                (compileSectionToGutenberg_total this accentColor)) as Hgut.
  unfold conformsPage, compilePageToHtml, compilePageToGutenberg.
  destruct (forallb conformsSection (sections page)); split; assumption.
Qed.

End Compiles.

Section Conforming.
Context `{Platform}.
Variable this : Ai.AiService.
Variable settings_ : SiteSettings.

Lemma buildHomePage_conforms (data : AiJson) :
  ensures (Ai.buildHomePage this settings_ data)
          (fun page => conformsPage page = true).
Proof.
  unfold Ai.buildHomePage.
  repeat (apply ensures_bind; intros ?). now apply ensures_ret.
Qed.

Lemma generateContactPage_conforms :
  ensures (Ai.generateContactPage this settings_)
          (fun page => conformsPage page = true).
Proof.
  unfold Ai.generateContactPage.
  repeat (apply ensures_bind; intros ?). now apply ensures_ret.
Qed.

Lemma generateFallbackContent_conforms :
  ensures (Ai.generateFallbackContent this settings_)
          (fun content => forallb conformsPage (pages content) = true).
Proof.
  unfold Ai.generateFallbackContent.
  intros w content w'. rewrite bind_run.
  destruct (Ai.createFallbackHomePage this settings_ w) as [[home|e] w1]
    eqn:Hhome; [|discriminate].
  apply buildHomePage_conforms in Hhome. revert w1 content w'.
  match goal with
  | |- forall w1 content w', ?m w1 = _ -> _ =>
      change (ensures m
                (fun content => forallb conformsPage (pages content) = true))
  end.
  repeat (apply ensures_bind; intros ?). apply ensures_ret.
  cbn [pages forallb]. now rewrite Hhome.
Qed.

End Conforming.

(** X7: the content that [generateSiteContent] falls back to can always be
    published.  [generateFallbackContent] returns, and every page of what it
    returns conforms to the schema and compiles without an error, to HTML
    and to Gutenberg markup, under the content's accent colour. *)
Theorem fallback_content_compiles `{Platform} (ai : Ai.AiService)
    (wp : WordPress.WordPressService) (settings_ : SiteSettings) (w : World) :
  exists content w',
    Ai.generateFallbackContent ai settings_ w = (Normal content, w')
    /\ settings content = settings_
    /\ Forall (fun page =>
                 conformsPage page = true
                 /\ (exists html,
                        WordPress.compilePageToHtml wp page
                          (accentColor settings_) = Normal html)
                 /\ (exists markup,
                        WordPress.compilePageToGutenberg wp page
                          (accentColor settings_) = Normal markup))
              (pages content).
Proof.
  destruct (generateFallbackContent_returns ai settings_ w)
    as (content & w' & Hrun & _ & Hsettings).
  exists content, w'. split; [exact Hrun|]. split; [exact Hsettings|].
  apply generateFallbackContent_conforms in Hrun.
  apply Forall_forall. intros page Hin.
  assert (Hpage : conformsPage page = true).
  { rewrite forallb_forall in Hrun. apply Hrun. now apply list_elem_of_In. }
  split; [exact Hpage|].
  pose proof (compilePage_outcome wp (accentColor settings_) page) as Hout.
  now rewrite Hpage in Hout.
Qed.

(** ** The layout of the home page *)

Section Layout.
Context `{Platform}.

Lemma returns_mapM_each {A B} (f : A -> M B) (Q : A -> B -> Prop)
    (l : list A) :
  (forall x, returns (f x) (Q x)) ->
  returns (mapM f l) (fun ys => Forall2 Q l ys).
Proof.
  intros Hf. induction l as [|x l IH].
  - apply returns_ret. constructor.
  - change (mapM f (x :: l)) with (y ← f x; ys ← mapM f l; mret (y :: ys)).
    eapply returns_bind; [apply Hf|]. intros y Hy.
    eapply returns_bind; [apply IH|]. intros ys Hys.
    apply returns_ret. now constructor.
Qed.

Lemma returns_items {A} (texts : A -> string * string) (l : list A) :
  returns
    (mapM (fun x : A =>
             id ← generateId;
             mret {| item_id := id; title := fst (texts x);
                     description := snd (texts x); icon := None |}) l)
    (fun items_ =>
       map (fun item => (title item, description item)) items_ = map texts l).
Proof.
  eapply returns_weaken.
  - apply (returns_mapM_each _
             (fun x item => (title item, description item) = texts x)).
    intros x. eapply returns_bind; [apply returns_generateId|].
    intros id _. apply returns_ret. cbn. now destruct (texts x).
  - intros items_ Hall. induction Hall as [|x item l items' Hx _ IH];
      [reflexivity|].
    cbn [map]. now rewrite Hx, IH.
Qed.

Lemma returns_bind_ret {A B} (a : A) (k : A -> M B) (Q : B -> Prop) :
  returns (k a) Q -> returns (mret a ≫= k) Q.
Proof. intros Hk w. apply Hk. Qed.

Lemma returns_sameDatabase {A} (m : M A) (P : A -> Prop) (w : World) :
  returns m P -> preserves sameDatabase m ->
  exists a w', m w = (Normal a, w') /\ P a /\ sameDatabase w w'.
Proof.
  intros Hm Hsame. destruct (Hm w) as (a & w' & Hrun & Ha).
  exists a, w'. specialize (Hsame w). rewrite Hrun in Hsame. auto.
Qed.

End Layout.

(** X8: from an answer with services and testimonials, [buildHomePage]
    returns, leaving the database alone, the page [Home] of six sections:
    hero, about, services, testimonials, contact and footer, in this order,
    with the block types listed.  Its texts are the answer's headlines and
    about texts, the fixed headings and the contact lines of the settings;
    its two lists hold the answer's services and testimonials, in the
    answer's order. *)
Theorem buildHomePage_layout `{Platform} (this : Ai.AiService)
    (settings_ : SiteSettings) (d : HomeData) (svc : list ServiceJson)
    (tst : list TestimonialJson) (w : World) :
  services d = Some svc ->
  testimonials d = Some tst ->
  exists page w',
    Ai.buildHomePage this settings_ (JsonObject d) w = (Normal page, w')
    /\ (page_title page = "Home"
        /\ map section_type (sections page) = sectionTypes
        /\ map (fun section => map block_type (blocks section)) (sections page)
           = [ ["text"; "text"; "button"; "image"];
               ["text"; "text"; "image"];
               ["text"; "list"];
               ["text"; "list"];
               ["text"; "text"; "text"; "button"];
               ["text"] ]
        /\ (exists footer,
               map (fun section => omap Ai.contentOf (blocks section))
                   (sections page)
               = [ [heroHeadline d; heroSubheadline d];
                   [aboutTitle d; aboutText d];
                   ["Our Services"];
                   ["What Our Clients Say"];
                   ["Get In Touch"; "Email: " +:+ contactEmail settings_;
                    "Phone: " +:+ contactPhone settings_];
                   [footer] ])
        /\ map (fun section => flat_map itemTexts (blocks section))
               (sections page)
           = [ []; [];
               map (fun s => (service_title s, service_description s)) svc;
               map (fun t => (testimonial_name t, quote t)) tst;
               []; [] ])
    /\ sameDatabase w w'.
Proof.
  intros Hsvc Htst.
  apply returns_sameDatabase;
    [|exact (preserves_buildHomePage sameDatabase sameDatabase_refl
               sameDatabase_trans sameDatabase_setExt this settings_ _)].
  unfold Ai.buildHomePage, Ai.readText, Ai.mapArray. rewrite Hsvc, Htst.
  repeat first
    [ apply returns_bind_ret
    | eapply returns_bind;
      [ apply (returns_items
                 (fun s => (service_title s, service_description s)))
      | intros ? ? ]
    | eapply returns_bind;
      [ apply (returns_items (fun t => (testimonial_name t, quote t)))
      | intros ? ? ]
    | eapply returns_bind; [returns_any | intros ? _] ].
  apply returns_ret.
  split; [reflexivity|]. split; [reflexivity|]. split; [reflexivity|].
  split.
  { eexists. cbn [sections map blocks]. unfold Ai.textBlock, Ai.buttonBlock,
      Ai.imageBlock, Ai.listBlock. cbn. reflexivity. }
  cbn [sections map blocks flat_map itemTexts props Ai.textBlock Ai.listBlock
       Ai.buttonBlock Ai.imageBlock items app].
  rewrite !app_nil_r.
  repeat match goal with
         | Heq : (fun _ => _) _ |- _ => cbv beta in Heq; rewrite Heq; clear Heq
         end.
  reflexivity.
Qed.

Lemma buildHomePage_layout_witness :
  exists page w',
    Ai.buildHomePage (H := Demo.hosted) Demo.aiService Demo.acmeSettings
      (JsonObject Demo.sampleAnswer) (Demo.hostedWorld 0)
    = (Normal page, w')
    /\ map (fun section => flat_map itemTexts (blocks section)) (sections page)
       = [ []; [];
           [("Repairs", "Leaks & burst pipes"); ("Boilers", "Fitted in a day")];
           [("Ann", "Quick and tidy.")];
           []; [] ].
Proof.
  destruct (buildHomePage_layout (H := Demo.hosted) Demo.aiService
              Demo.acmeSettings Demo.sampleAnswer _ _ (Demo.hostedWorld 0)
              eq_refl eq_refl)
    as (page & w' & Hrun & (_ & _ & _ & _ & Hitems) & _).
  exists page, w'. split; [exact Hrun | exact Hitems].
Defined.

(** ** [AiService.generateSectionVariations] *)

Section VariationsKept.
Context `{Platform} `{Ai.VariationsReader}.

Lemma ensures_mapM_each {A B} (f : A -> M B) (Q : A -> B -> Prop)
    (l : list A) :
  (forall x, ensures (f x) (Q x)) ->
  ensures (mapM f l) (fun ys => Forall2 Q l ys).
Proof.
  intros Hf. induction l as [|x l IH].
  - apply ensures_ret. constructor.
  - change (mapM f (x :: l)) with (y ← f x; ys ← mapM f l; mret (y :: ys)).
    intros w zs w'. rewrite bind_run.
    destruct (f x w) as [[y|e] w1] eqn:Hx; [|discriminate].
    rewrite bind_run.
    destruct (mapM f l w1) as [[ys|e] w2] eqn:Hl; [|discriminate].
    intros [= <- _]. constructor; [eapply Hf, Hx | eapply IH, Hl].
Qed.

Lemma varyBlock_kept v block : ensures (Ai.varyBlock v block) (kept block).
Proof.
  unfold Ai.varyBlock. cbv zeta.
  assert (Hkeep : ensures (id ← generateId; mret (Ai.blockWithId block id))
                          (kept block)).
  { apply ensures_bind. intros id. now apply ensures_ret. }
  destruct (String.eqb (block_type block) "text"); [|exact Hkeep].
  destruct (Ai.variantOf (props block)) as [variant|]; [|exact Hkeep].
  destruct (_ || _).
  { apply ensures_bind. intros id. apply ensures_bind. intros content_.
    now apply ensures_ret. }
  destruct (String.eqb variant "body"); [|exact Hkeep].
  apply ensures_bind. intros id. apply ensures_bind. intros content_.
  now apply ensures_ret.
Qed.

Lemma keptSection_blocks section id variant blocks_ :
  Forall2 kept (blocks section) blocks_ ->
  keptSection section
    {| section_id := id; section_type := section_type section;
       section_variant := variant; blocks := blocks_ |}.
Proof.
  intros Hall. split; [reflexivity|]. cbn [blocks].
  induction Hall as [|old new olds news Hty _ IHty]; [reflexivity|].
  cbn [map]. unfold kept in Hty. now rewrite Hty, IHty.
Qed.

Lemma keptSection_refl section : keptSection section section.
Proof. now unfold keptSection. Qed.

Lemma keptSection_withId section id :
  keptSection section (Ai.sectionWithId section id).
Proof. now unfold keptSection. Qed.

Lemma varySection_kept section i v :
  ensures (Ai.varySection section i v) (keptSection section).
Proof.
  unfold Ai.varySection. apply ensures_bind. intros id.
  intros w s w'. rewrite bind_run.
  destruct (mapM (Ai.varyBlock v) (blocks section) w) as [[blocks_|e] w1]
    eqn:Hblocks; [|discriminate].
  intros [= <- _]. apply keptSection_blocks.
  eapply (ensures_mapM_each _ kept), Hblocks. intros block.
  apply varyBlock_kept.
Qed.

Lemma threeCopies_returns section :
  returns (Ai.threeCopies section)
    (fun result =>
       exists id1 id2,
         result = [section; Ai.sectionWithId section id1;
                   Ai.sectionWithId section id2]).
Proof.
  unfold Ai.threeCopies.
  eapply returns_bind; [apply returns_generateId|]. intros id1 _.
  eapply returns_bind; [apply returns_generateId|]. intros id2 _.
  apply returns_ret. eauto.
Qed.

Lemma threeCopies_kept section :
  returns (Ai.threeCopies section) (Forall (keptSection section)).
Proof.
  eapply returns_weaken; [apply threeCopies_returns|].
  intros result (id1 & id2 & ->).
  repeat constructor; auto using keptSection_refl, keptSection_withId.
Qed.

Lemma Forall2_Forall_r {A B} (Q : B -> Prop) (l : list A) (ys : list B) :
  Forall2 (fun _ y => Q y) l ys -> Forall Q ys.
Proof. induction 1; constructor; auto. Qed.

Lemma generateSectionVariations_kept this section settings_ :
  returns (Ai.generateSectionVariations this section settings_)
          (Forall (keptSection section)).
Proof.
  unfold Ai.generateSectionVariations.
  destruct (Ai.openai this); [|apply threeCopies_kept]. cbv zeta.
  apply returns_tryCatch; [|intros _; apply threeCopies_kept].
  apply ensures_bind. intros response. apply ensures_bind.
  intros [| |elements]; try apply ensures_throw.
  intros w result w' Hrun.
  eapply Forall2_Forall_r.
  eapply (ensures_mapM_each _ (fun _ => keptSection section)), Hrun.
  intros [i v]. apply varySection_kept.
Qed.

Lemma preserves_generateSectionVariations this section settings_ :
  preserves sameDatabase
    (Ai.generateSectionVariations this section settings_).
Proof.
  pose proof sameDatabase_refl as Hrefl.
  pose proof sameDatabase_trans as Htrans.
  pose proof sameDatabase_setExt as Hext.
  pose proof (preserves_generateId sameDatabase Hrefl Htrans Hext) as Hid.
  unfold Ai.generateSectionVariations, Ai.threeCopies, Ai.varySection,
    Ai.varyBlock, Ai.readVariation.
  preserving.
Qed.

End VariationsKept.

Section VariationsRun.
Context `{Platform} `{Ai.VariationsReader}.

Lemma generateSectionVariations_copies this section settings_ (w : World) :
  Ai.openai this = None
  \/ (forall response x elements,
         chatCompletionsCreate (Ai.variationsPrompt section settings_) (ext w)
         = (Normal response, x) ->
         Ai.JSON_parse_variations (default "" response)
         <> Normal (Ai.VariationsArray elements)) ->
  exists w1,
    Ai.generateSectionVariations this section settings_ w
    = Ai.threeCopies section w1.
Proof.
  intros Hfails. unfold Ai.generateSectionVariations.
  destruct (Ai.openai this) as [client|]; [|now exists w].
  destruct Hfails as [|Hfails]; [easy|]. cbv zeta.
  rewrite tryCatch_run, bind_run, call_run.
  destruct (chatCompletionsCreate _ (ext w)) as [[response|e] x] eqn:Hchat;
    cbn [fst snd]; [|now eexists].
  specialize (Hfails response x).
  rewrite bind_run. unfold sync at 1.
  destruct (Ai.JSON_parse_variations (default "" response))
    as [[| |elements]|e]; try (now eexists).
  now destruct (Hfails elements).
Qed.

End VariationsRun.

(** X9: [generateSectionVariations] never throws and never writes to the
    database, and every section it returns has the type of the given section
    and blocks of the same types, in the same order.  Without an API key, and
    whenever the request fails or its answer is not an array, it returns
    three sections: the given one and two copies of it under new ids. *)
Theorem generateSectionVariations_always_returns `{Platform}
    `{Ai.VariationsReader} (this : Ai.AiService) (section : Section)
    (settings_ : SiteSettings) (w : World) :
  exists result w',
    Ai.generateSectionVariations this section settings_ w = (Normal result, w')
    /\ sameDatabase w w'
    /\ Forall (keptSection section) result
    /\ (Ai.openai this = None
        \/ (forall response x elements,
               chatCompletionsCreate (Ai.variationsPrompt section settings_)
                 (ext w) = (Normal response, x) ->
               Ai.JSON_parse_variations (default "" response)
               <> Normal (Ai.VariationsArray elements)) ->
        exists id1 id2,
          result = [section; Ai.sectionWithId section id1;
                    Ai.sectionWithId section id2]).
Proof.
  destruct (generateSectionVariations_kept this section settings_ w)
    as (result & w' & Hrun & Hkept).
  exists result, w'. split; [exact Hrun|].
  split.
  { pose proof (preserves_generateSectionVariations this section settings_ w)
      as Hsame.
    now rewrite Hrun in Hsame. }
  split; [exact Hkept|].
  intros Hfails.
  destruct (generateSectionVariations_copies this section settings_ w Hfails)
    as [w1 Hcopies].
  destruct (threeCopies_returns section w1) as (copies & w2 & Hrun' & Hshape).
  rewrite Hcopies, Hrun' in Hrun. injection Hrun as <- _. exact Hshape.
Qed.

Section Rewording.
Context `{Platform} `{Ai.VariationsReader}.

Lemma reworded_blockWithId v block id :
  (forall t, block_type block = "text" -> props block = OfText t ->
             rewordedContent v t = content t) ->
  reworded v block (Ai.blockWithId block id).
Proof.
  intros Hsame. split; [reflexivity|]. split; [reflexivity|].
  intros t Hty Hprops. cbn [Ai.blockWithId props].
  rewrite (Hsame t Hty Hprops), Hprops. now destruct t.
Qed.

Lemma varyBlock_reworded v block :
  returns (Ai.varyBlock (Some v) block) (reworded v block).
Proof.
  unfold Ai.varyBlock. cbv zeta.
  assert (Hkeep :
            (forall t, block_type block = "text" -> props block = OfText t ->
                       rewordedContent v t = content t) ->
            returns (id ← generateId; mret (Ai.blockWithId block id))
                    (reworded v block)).
  { intros Hsame. eapply returns_bind; [apply returns_generateId|].
    intros id _. now apply returns_ret, reworded_blockWithId. }
  destruct (String.eqb_spec (block_type block) "text") as [Hty|Hty];
    [|now apply Hkeep].
  destruct (props block) as [t|i|b|l] eqn:Hprops; cbn [Ai.variantOf];
    try (apply Hkeep; intros t' _ Ht; try rewrite Hprops in Ht; discriminate).
  - destruct (_ || _) eqn:Hheading.
    { eapply returns_bind; [apply returns_generateId|]. intros id _.
      apply returns_bind_ret, returns_ret.
      split; [reflexivity|]. split; [easy|].
      intros t' _ Ht. try rewrite Hprops in Ht. injection Ht as <-.
      cbn [props Ai.withContent].
      unfold rewordedContent. now rewrite Hheading. }
    destruct (String.eqb (text_variant t) "body") eqn:Hbody.
    { eapply returns_bind; [apply returns_generateId|]. intros id _.
      apply returns_bind_ret, returns_ret.
      split; [reflexivity|]. split; [easy|].
      intros t' _ Ht. try rewrite Hprops in Ht. injection Ht as <-.
      cbn [props Ai.withContent].
      unfold rewordedContent. now rewrite Hheading, Hbody. }
    apply Hkeep. intros t' _ Ht. try rewrite Hprops in Ht. injection Ht as <-.
    unfold rewordedContent. now rewrite Hheading, Hbody.
  - destruct (_ || _).
    { eapply returns_bind; [apply returns_generateId|]. intros id _.
      apply returns_bind_ret, returns_ret.
      split; [reflexivity|]. split; [easy|].
      intros t' _ Ht. try rewrite Hprops in Ht. discriminate. }
    destruct (String.eqb (button_variant b) "body").
    { eapply returns_bind; [apply returns_generateId|]. intros id _.
      apply returns_bind_ret, returns_ret.
      split; [reflexivity|]. split; [easy|].
      intros t' _ Ht. try rewrite Hprops in Ht. discriminate. }
    apply Hkeep. intros t' _ Ht. try rewrite Hprops in Ht. discriminate.
Qed.

Lemma varySection_reworded section i v :
  returns (Ai.varySection section i (Some v))
    (fun s =>
       section_variant s = i + 1
       /\ section_type s = section_type section
       /\ Forall2 (reworded v) (blocks section) (blocks s)).
Proof.
  unfold Ai.varySection.
  eapply returns_bind; [apply returns_generateId|]. intros id _.
  eapply returns_bind;
    [apply (returns_mapM_each _ (reworded v)); intros block;
     apply varyBlock_reworded|].
  intros blocks_ Hall. now apply returns_ret.
Qed.

Lemma variations_reworded section (vs : list Ai.Variation) (k : nat) :
  returns
    (mapM (fun iv : nat * option Ai.Variation =>
             Ai.varySection section (fst iv) (snd iv))
          (imap (fun i => pair (k + i)) (map Some vs)))
    (fun result =>
       map section_variant result = seq (k + 1) (length vs)
       /\ Forall2 (fun v s =>
                     section_type s = section_type section
                     /\ Forall2 (reworded v) (blocks section) (blocks s))
                  vs result).
Proof.
  revert k. induction vs as [|v vs IH]; intros k.
  - apply returns_ret. split; [reflexivity | constructor].
  - cbn [map imap].
    match goal with
    | |- returns (mapM ?f (?x :: ?l)) _ =>
        change (mapM f (x :: l)) with (y ← f x; ys ← mapM f l; mret (y :: ys))
    end.
    eapply returns_bind; [apply varySection_reworded|].
    intros s (Hvariant & Htype & Hblocks).
    rewrite (imap_ext _ (fun i => pair (S k + i)));
      [|intros i x _; cbn; f_equal; lia].
    eapply returns_bind; [apply IH|]. intros rest [Hvariants Hrest].
    apply returns_ret. split.
    + cbn [map length seq]. rewrite Hvariant, Hvariants.
      rewrite Nat.add_0_r. reflexivity.
    + now constructor.
Qed.

End Rewording.

(** X10: when the answer parses to an array of variations,
    [generateSectionVariations] returns one section for each, numbered 1, 2,
    ... as variants, in the answer's order.  Each has the type of the given
    section and its blocks in order, reworded: a heading ([h1], [h2]) takes
    the variation's headline, a [body] text its subtext, and every other
    text and every other block keeps its props. *)
Theorem generateSectionVariations_rewords `{Platform}
    `{Ai.VariationsReader} (this : Ai.AiService) (section : Section)
    (settings_ : SiteSettings) (w : World) (response : option string)
    (x : Ext) (vs : list Ai.Variation) :
  Ai.openai this <> None ->
  chatCompletionsCreate (Ai.variationsPrompt section settings_) (ext w)
  = (Normal response, x) ->
  Ai.JSON_parse_variations (default "" response)
  = Normal (Ai.VariationsArray (map Some vs)) ->
  exists result w',
    Ai.generateSectionVariations this section settings_ w = (Normal result, w')
    /\ map section_variant result = seq 1 (length vs)
    /\ Forall2 (fun v s =>
                  section_type s = section_type section
                  /\ Forall2 (reworded v) (blocks section) (blocks s))
               vs result.
Proof.
  intros Hclient Hchat Hparse. unfold Ai.generateSectionVariations.
  destruct (Ai.openai this) as [client|]; [clear Hclient|congruence].
  cbv zeta. rewrite tryCatch_run, bind_run, call_run, Hchat. cbn [fst snd].
  rewrite bind_run. unfold sync at 1. rewrite Hparse.
  destruct (variations_reworded section vs 0 (setExt w x))
    as (result & w' & Hrun & Hresult).
  change (imap (fun i => pair (0 + i)) (map Some vs))
    with (imap pair (map Some vs)) in Hrun.
  rewrite Hrun. now exists result, w'.
Qed.

Lemma generateSectionVariations_rewords_witness :
  exists result w',
    Ai.generateSectionVariations (H := Demo.hosted) (H0 := Demo.reader)
      Demo.aiService Demo.heroSection Demo.acmeSettings (Demo.hostedWorld 1)
    = (Normal result, w')
    /\ map section_variant result = [1; 2]
    /\ map (fun s => omap Ai.contentOf (blocks s)) result
       = [ ["Leaks? Gone."; "One call does it."];
           ["Dry floors, fast"; "We come the same day."] ].
Proof.
  destruct (generateSectionVariations_rewords (H := Demo.hosted)
              (H0 := Demo.reader) Demo.aiService Demo.heroSection
              Demo.acmeSettings (Demo.hostedWorld 1) (Some "{ }") 2
              [ {| Ai.headline := "Leaks? Gone.";
                   Ai.subtext := "One call does it." |};
                {| Ai.headline := "Dry floors, fast";
                   Ai.subtext := "We come the same day." |} ])
    as (result & w' & Hrun & Hvariants & _);
    [discriminate | reflexivity | reflexivity |].
  exists result, w'. split; [exact Hrun|]. split; [exact Hvariants|].
  vm_compute in Hrun. injection Hrun as <- _. reflexivity.
Defined.

(** ** [createDefaultSection] *)

Section DefaultSections.
Context `{Platform}.

Lemma elem_of_sectionTypes (ty : string) :
  ty ∈ sectionTypes <->
  ty = "hero" \/ ty = "about" \/ ty = "services" \/ ty = "testimonials"
  \/ ty = "contact" \/ ty = "footer".
Proof. unfold sectionTypes. rewrite !elem_of_cons, elem_of_nil. tauto. Qed.

Lemma preserves_createDefaultSection type settings_ :
  preserves sameDatabase (Shared.createDefaultSection type settings_).
Proof.
  pose proof sameDatabase_refl as Hrefl.
  pose proof sameDatabase_trans as Htrans.
  pose proof sameDatabase_setExt as Hext.
  pose proof (preserves_generateId sameDatabase Hrefl Htrans Hext) as Hid.
  pose proof (preserves_getFullYear sameDatabase Hrefl) as Hyear.
  unfold Shared.createDefaultSection. preserving.
Qed.

End DefaultSections.

(** X11: [createDefaultSection] returns a section for the six section types
    of the schema and [undefined] for every other type.  The section has the
    type asked for and variant 1, and conforms to the schema; the database
    is left alone. *)
Theorem createDefaultSection_by_type `{Platform} (type : string)
    (settings_ : SiteSettings) (w : World) :
  exists result w',
    Shared.createDefaultSection type settings_ w = (Normal result, w')
    /\ match result with
       | Some section =>
           type ∈ sectionTypes
           /\ section_type section = type
           /\ section_variant section = 1
           /\ conformsSection section = true
       | None => type ∉ sectionTypes
       end
    /\ sameDatabase w w'.
Proof.
  apply returns_sameDatabase; [|apply preserves_createDefaultSection].
  unfold Shared.createDefaultSection.
  eapply returns_bind; [apply returns_generateId|]. intros id _.
  repeat match goal with
         | |- context [String.eqb type ?ty] =>
             destruct (String.eqb_spec type ty) as [->|?]
         end;
    repeat (eapply returns_bind; [returns_any | intros ? _]);
    apply returns_ret;
    rewrite elem_of_sectionTypes; try (repeat split; auto 7; fail).
  tauto.
Qed.

(** ** The WP-CLI procedures *)

Section CliFailures.
Context `{Platform}.
Import WordPress.

Lemma swallowed (this : WordPressService) (body : M unit) (w : World) :
  configService this !! "NODE_ENV" = Some "development" ->
  exists w',
    tryCatch body
      (fun error =>
         if bool_decide (configService this !! "NODE_ENV" = Some "development")
         then mret tt else throw error) w
    = (Normal tt, w')
    /\ w' = snd (body w).
Proof.
  intros Hdev. rewrite tryCatch_run.
  destruct (body w) as [[[]|e] w1]; [now exists w1|].
  rewrite bool_decide_eq_true_2 by exact Hdev. now exists w1.
Qed.

Lemma rethrown {A} (this : WordPressService) (body : M A) (fallback : M A)
    (w : World) :
  configService this !! "NODE_ENV" <> Some "development" ->
  tryCatch body
    (fun error =>
       if bool_decide (configService this !! "NODE_ENV" = Some "development")
       then fallback else throw error) w
  = body w.
Proof.
  intros Hprod. rewrite tryCatch_run.
  destruct (body w) as [[a|e] w1]; [reflexivity|].
  now rewrite bool_decide_eq_false_2 by exact Hprod.
Qed.

Lemma throws_mapM_publishPage this urlFlag accentColor (l : list Page)
    (w : World) :
  forallb conformsPage l = false ->
  exists e w', mapM (publishPage this urlFlag accentColor) l w = (Throw e, w').
Proof.
  revert w. induction l as [|page l IH]; intros w; [discriminate|].
  cbn [forallb]. intros Hsome.
  match goal with
  | |- context [mapM ?f (?x :: ?l)] =>
      change (mapM f (x :: l)) with (y ← f x; ys ← mapM f l; mret (y :: ys))
  end.
  rewrite bind_run.
  destruct (publishPage this urlFlag accentColor page w) as [[[]|e] w1]
    eqn:Hpage; [|now eauto].
  destruct (conformsPage page) eqn:Hconf.
  - cbn [andb] in Hsome. destruct (IH w1 Hsome) as (e & w' & Hrest).
    exists e, w'. now rewrite bind_run, Hrest.
  - exfalso. revert Hpage. unfold publishPage. rewrite bind_run.
    unfold sync at 1.
    pose proof (compilePage_outcome this accentColor page) as Hout.
    rewrite Hconf in Hout. destruct Hout as [[m ->] _]. discriminate.
Qed.

End CliFailures.

(** X12: in development mode [applyThemeAndPlugins] and [publishVersion]
    return normally whatever happens inside, a failing WP-CLI command as
    well as content that does not compile, and leave the database alone. *)
Theorem development_swallows_failures `{Platform}
    (this : WordPress.WordPressService) (wpSiteId : Z) (content : SiteContent)
    (w : World) :
  WordPress.configService this !! "NODE_ENV" = Some "development" ->
  (exists w',
      WordPress.applyThemeAndPlugins this wpSiteId w = (Normal tt, w')
      /\ sameDatabase w w')
  /\ (exists w',
         WordPress.publishVersion this wpSiteId content w = (Normal tt, w')
         /\ sameDatabase w w').
Proof.
  intros Hdev. split.
  - pose proof (preserves_applyThemeAndPlugins sameDatabase sameDatabase_refl
                  sameDatabase_trans sameDatabase_setExt this wpSiteId w)
      as Hsame.
    unfold WordPress.applyThemeAndPlugins in *.
    match goal with
    | |- context [tryCatch ?body _ w] =>
        destruct (swallowed this body w Hdev) as (w' & Hrun & _)
    end.
    rewrite Hrun in *. now exists w'.
  - pose proof (preserves_publishVersion sameDatabase sameDatabase_refl
                  sameDatabase_trans sameDatabase_setExt this wpSiteId content w)
      as Hsame.
    unfold WordPress.publishVersion in *.
    match goal with
    | |- context [tryCatch ?body _ w] =>
        destruct (swallowed this body w Hdev) as (w' & Hrun & _)
    end.
    rewrite Hrun in *. now exists w'.
Qed.

Lemma development_swallows_failures_witness :
  (exists w',
      WordPress.applyThemeAndPlugins Demo.devService 7 Demo.emptyWorld
      = (Normal tt, w')
      /\ sameDatabase Demo.emptyWorld w')
  /\ (exists w',
         WordPress.publishVersion Demo.devService 7 Demo.brokenContent
           Demo.emptyWorld = (Normal tt, w')
         /\ sameDatabase Demo.emptyWorld w').
Proof.
  exact (development_swallows_failures (H := Demo.platform) Demo.devService 7
           Demo.brokenContent Demo.emptyWorld eq_refl).
Defined.

(** X13: outside development mode [applyThemeAndPlugins] is its one WP-CLI
    command: it fails exactly when the command fails, with the command's
    error.  [publishVersion] throws, without a write to the database, when
    some page of the content does not conform to the schema, and does nothing
    at all when the content has no page. *)
Theorem production_reports_failures `{Platform}
    (this : WordPress.WordPressService) (wpSiteId : Z) (content : SiteContent)
    (w : World) :
  WordPress.configService this !! "NODE_ENV" <> Some "development" ->
  WordPress.applyThemeAndPlugins this wpSiteId w
  = (let command :=
       "theme activate twentytwentyfour --url="
       +:+ WordPress.wpMultisiteUrl this +:+ "/?blog_id="
       +:+ numberToString wpSiteId in
     match WordPress.runWpCli this command w with
     | (Normal _, w') => (Normal tt, w')
     | (Throw error, w') => (Throw error, w')
     end)
  /\ (forallb conformsPage (pages content) = false ->
      exists error w',
        WordPress.publishVersion this wpSiteId content w = (Throw error, w')
        /\ sameDatabase w w')
  /\ (pages content = [] ->
      WordPress.publishVersion this wpSiteId content w = (Normal tt, w)).
Proof.
  intros Hprod. split; [|split].
  - unfold WordPress.applyThemeAndPlugins. rewrite rethrown by exact Hprod.
    cbv zeta. rewrite bind_run. unfold WordPress.urlFlagOf.
    now destruct (WordPress.runWpCli _ _ w) as [[out|e] w'].
  - intros Hbroken.
    pose proof (preserves_publishVersion sameDatabase sameDatabase_refl
                  sameDatabase_trans sameDatabase_setExt this wpSiteId content w)
      as Hsame.
    unfold WordPress.publishVersion in *. rewrite rethrown in * by exact Hprod.
    cbv zeta in *. rewrite bind_run in *.
    destruct (throws_mapM_publishPage this (WordPress.urlFlagOf this wpSiteId)
                (accentColor (settings content)) (pages content) w Hbroken)
      as (e & w' & Hrun).
    rewrite Hrun in *. now exists e, w'.
  - intros Hnone. unfold WordPress.publishVersion.
    rewrite rethrown by exact Hprod. now rewrite Hnone.
Qed.

Lemma production_reports_failures_witness :
  exists error w',
    WordPress.publishVersion (WordPress.new ∅) 7 Demo.brokenContent
      Demo.emptyWorld = (Throw error, w')
    /\ sameDatabase Demo.emptyWorld w'.
Proof.
  refine (proj1 (proj2 (production_reports_failures (H := Demo.platform)
                          (WordPress.new ∅) 7 Demo.brokenContent
                          Demo.emptyWorld _)) eq_refl).
  discriminate.
Defined.

(** X14: when the [site create] command succeeds and its trimmed output
    starts with a number of at most 2^53 in absolute value, which a
    JavaScript number holds exactly, [provisionSite] returns that number as
    the site's id, with the site and admin URLs made of the multisite URL and
    the slug, whatever the mode; it runs no other command. *)
Theorem provisionSite_reads_site_id `{Platform}
    (this : WordPress.WordPressService) (site : WordPress.Site) (w : World)
    (stdout stderr : string) (x : Ext) (wpSiteId : Z) :
  execAsync
    (WordPress.fullCommandOf this
       (WordPress.siteCreateCommand (WordPress.siteSlugOf site)
          (WordPress.name site) (WordPress.owner_email site)))
    (ext w) = (Normal (stdout, stderr), x) ->
  parseInt (trim stdout) = Some wpSiteId ->
  (Z.abs wpSiteId <= 2 ^ 53)%Z ->
  WordPress.provisionSite this site w
  = (Normal
       {| WordPress.wpSiteId := wpSiteId;
          WordPress.wpAdminUrl :=
            WordPress.wpMultisiteUrl this +:+ "/" +:+ WordPress.siteSlugOf site
            +:+ "/wp-admin";
          WordPress.wpSiteUrl :=
            WordPress.wpMultisiteUrl this +:+ "/" +:+ WordPress.siteSlugOf site |},
     setExt w x).
Proof.
  intros Hexec Hparse _. unfold WordPress.provisionSite. cbv zeta.
  rewrite tryCatch_run, bind_run, runWpCli_run, Hexec. cbn [fst].
  rewrite Hparse. cbn. now rewrite append_assoc.
Qed.

Lemma provisionSite_reads_site_id_witness :
  WordPress.provisionSite (H := Demo.hosted) (WordPress.new ∅) Demo.pizzaSite
    (Demo.hostedWorld 0)
  = (Normal
       {| WordPress.wpSiteId := 42;
          WordPress.wpAdminUrl :=
            "http://localhost:8080/joe-s-pizza-pasta-ckv9x2m4/wp-admin";
          WordPress.wpSiteUrl :=
            "http://localhost:8080/joe-s-pizza-pasta-ckv9x2m4" |},
     setExt (Demo.hostedWorld 0) 1).
Proof.
  exact (provisionSite_reads_site_id (H := Demo.hosted) (WordPress.new ∅)
           Demo.pizzaSite (Demo.hostedWorld 0) (" 42" +:+ nl) "Warning: cache"
           1 42 eq_refl eq_refl ltac:(lia)).
Defined.

(** ** Subscriptions *)

(** X15: [mapStripeStatus] maps each of the five status names of the
    database's enum to the status of that name, and no other name to
    [active]; a name outside the enum, such as [unpaid] or [paused], gives
    [incomplete]. *)
Theorem mapStripeStatus_keeps_names (this : Billing.BillingService)
    (status : SubscriptionStatus) (name : string) :
  Webhooks.mapStripeStatus this (statusName status) = status
  /\ (Webhooks.mapStripeStatus this name = active <-> name = "active")
  /\ ((forall known, name <> statusName known) ->
      Webhooks.mapStripeStatus this name = incomplete).
Proof.
  split; [now destruct status|].
  unfold Webhooks.mapStripeStatus.
  destruct (String.eqb_spec name "active") as [->|Hactive].
  { split; [easy|]. intros Hnone. now destruct (Hnone active). }
  destruct (String.eqb_spec name "canceled") as [->|Hcanceled].
  { split; [easy|]. intros Hnone. now destruct (Hnone canceled). }
  destruct (String.eqb_spec name "past_due") as [->|Hpast].
  { split; [easy|]. intros Hnone. now destruct (Hnone past_due). }
  destruct (String.eqb_spec name "trialing") as [->|Htrial].
  { split; [easy|]. intros Hnone. now destruct (Hnone trialing). }
  easy.
Qed.

Section Deleted.
Context `{Platform}.

Lemma find_existsb {A} (p : A -> bool) (l : list A) :
  bool_decide (is_Some (find p l)) = existsb p l.
Proof.
  induction l as [|x l IH]; [reflexivity|].
  cbn [find existsb]. destruct (p x); [reflexivity | exact IH].
Qed.

Lemma hasActiveSubscription_answer (this : Billing.BillingService)
    (userId : string) (w : World) :
  Billing.stripe this <> None ->
  Billing.hasActiveSubscription this userId w
  = (Normal
       (existsb (fun row =>
                   bool_decide (sub_userId row = userId)
                   && bool_decide (sub_status row = active))
                (stripeSubscriptions w)), w).
Proof.
  intros Hclient. unfold Billing.hasActiveSubscription.
  destruct (Billing.stripe this); [|congruence].
  unfold Billing.findFirstSubscription.
  change ((reads _ ≫= _) w) with
    (Normal (bool_decide
               (is_Some
                  (find (fun row =>
                           bool_decide (sub_userId row = userId)
                           && bool_decide (sub_status row = active))
                        (stripeSubscriptions w)))), w).
  now rewrite find_existsb.
Qed.

End Deleted.

(** X16: with Stripe configured, once [handleSubscriptionDeleted] has
    returned, a user has an active subscription exactly when they had an
    active one other than the deleted one; the handler writes to no other
    table.  For a subscription id that the table does not hold, the handler
    throws Prisma's record-not-found error and changes nothing. *)
Theorem deleted_subscription_stops_counting `{Platform}
    (this : Billing.BillingService) (subscription : Webhooks.StripeSubscription)
    (userId : string) (w : World) :
  Billing.stripe this <> None ->
  if existsb (fun row =>
                bool_decide (stripeSubscriptionId row
                             = Webhooks.id subscription))
             (stripeSubscriptions w)
  then
    exists w',
      Webhooks.handleSubscriptionDeleted this subscription w = (Normal tt, w')
      /\ jobs w' = jobs w /\ jobLogs w' = jobLogs w /\ sites w' = sites w
      /\ siteVersions w' = siteVersions w
      /\ (fst (Billing.hasActiveSubscription this userId w') = Normal true
          <-> exists row,
              row ∈ stripeSubscriptions w
              /\ sub_userId row = userId /\ sub_status row = active
              /\ stripeSubscriptionId row <> Webhooks.id subscription)
  else
    Webhooks.handleSubscriptionDeleted this subscription w
    = (Throw Jobs.recordNotFound, w).
Proof.
  intros Hclient.
  unfold Webhooks.handleSubscriptionDeleted, Webhooks.subscriptionUpdateStatus.
  destruct (existsb _ _); [|reflexivity].
  eexists. split; [reflexivity|]. repeat (split; [reflexivity|]).
  rewrite hasActiveSubscription_answer by exact Hclient.
  cbn [fst stripeSubscriptions Webhooks.setStripeSubscriptions].
  split.
  - intros [= Hsome]. apply existsb_exists in Hsome as (row' & Hin & Hrow).
    apply in_map_iff in Hin as (row & <- & Hin).
    exists row. rewrite list_elem_of_In. split; [exact Hin|].
    destruct (bool_decide (stripeSubscriptionId row = _)) eqn:Hid;
      cbn in Hrow; apply andb_prop in Hrow as [Huser Hstatus];
      apply bool_decide_eq_true in Huser, Hstatus; [discriminate|].
    apply bool_decide_eq_false in Hid. auto.
  - intros (row & Hin & Huser & Hstatus & Hid). f_equal.
    apply existsb_exists.
    exists row. split.
    + apply in_map_iff. exists row. rewrite <- list_elem_of_In.
      split; [|exact Hin]. now rewrite bool_decide_eq_false_2.
    + now rewrite !bool_decide_eq_true_2.
Qed.

Lemma deleted_subscription_stops_counting_witness :
  exists w',
    Webhooks.handleSubscriptionDeleted Demo.billing Demo.deleted
      Demo.subscribed = (Normal tt, w')
    /\ fst (Billing.hasActiveSubscription Demo.billing "u1" Demo.subscribed)
       = Normal true
    /\ fst (Billing.hasActiveSubscription Demo.billing "u1" w') = Normal false.
Proof.
  destruct (deleted_subscription_stops_counting (H := Demo.platform)
              Demo.billing Demo.deleted "u1" Demo.subscribed)
    as (w' & Hrun & _); [discriminate|].
  exists w'. split; [exact Hrun|]. split; [reflexivity|].
  injection Hrun as <-. reflexivity.
Defined.

(** ** The handlers of [publish] and [rollback] jobs *)

Section PublishJob.
Context `{Platform}.

Lemma publishVersion_run this wpSiteId content (w : World) :
  exists outcome w',
    WordPress.publishVersion this wpSiteId content w = (outcome, w')
    /\ sameDatabase w w'.
Proof.
  pose proof (preserves_publishVersion sameDatabase sameDatabase_refl
                sameDatabase_trans sameDatabase_setExt this wpSiteId content w)
    as Hsame.
  destruct (WordPress.publishVersion this wpSiteId content w) as [outcome w'].
  now exists outcome, w'.
Qed.

Lemma truthyString_Some value s :
  Jobs.truthyString value = Some s <-> value = Some s /\ s <> "".
Proof.
  unfold Jobs.truthyString. destruct value as [s'|]; [|easy].
  destruct (String.eqb_spec s' "") as [->|Hs].
  - split; [discriminate|]. intros [[= <-] Hne]. now destruct Hne.
  - split; [intros [= <-]; auto | tauto].
Qed.

Lemma truthyString_None value :
  Jobs.truthyString value = None <-> value = None \/ value = Some "".
Proof.
  unfold Jobs.truthyString. destruct value as [s'|]; [|tauto].
  destruct (String.eqb_spec s' "") as [->|Hs].
  - tauto.
  - split; [discriminate|]. intros [|[= ->]]; easy.
Qed.

Lemma truthyNumber_Some value n :
  Jobs.truthyNumber value = Some n <-> value = Some n /\ n <> 0%Z.
Proof.
  unfold Jobs.truthyNumber. destruct value as [n'|]; [|easy].
  destruct (Z.eqb_spec n' 0) as [->|Hn].
  - split; [discriminate|]. intros [[= <-] Hne]. now destruct Hne.
  - split; [intros [= <-]; auto | tauto].
Qed.

Lemma truthyNumber_None value :
  Jobs.truthyNumber value = None <-> value = None \/ value = Some 0%Z.
Proof.
  unfold Jobs.truthyNumber. destruct value as [n'|]; [|tauto].
  destruct (Z.eqb_spec n' 0) as [->|Hn].
  - tauto.
  - split; [discriminate|]. intros [|[= ->]]; easy.
Qed.

Lemma find_version id rows version :
  find (fun row => bool_decide (version_id row = id)) rows = Some version ->
  version ∈ rows /\ version_id version = id.
Proof.
  intros [Hin Hid]%find_some. apply bool_decide_eq_true in Hid.
  now rewrite list_elem_of_In.
Qed.

End PublishJob.

Ltac run_log := rewrite bind_run, addJobLog_run; cbv beta iota.
Ltac run_read := rewrite bind_run, reads_run; cbv beta iota.
Ltac tables :=
  cbn [sites siteVersions jobs jobLogs stripeSubscriptions ext
       Jobs.setJobLogs Jobs.setSites Jobs.setSiteVersions Jobs.setJobs setExt
       fst snd].

Ltac settle :=
  repeat split; try reflexivity; try discriminate;
  intros;
  repeat match goal with
         | Heq : Some _ = Some _ |- _ => injection Heq as ?; subst
         | Hor : _ \/ _ |- _ => destruct Hor
         end;
  try congruence; try reflexivity.

Section Outcomes.
Context `{Platform}.

Lemma handlePublish_post (this : Jobs.JobsProcessor)
    (jobId siteId : string) (metadata : option Jobs.Metadata) (w : World) :
  let outcome := Jobs.handlePublish this jobId siteId metadata w in
  siteVersions (snd outcome) = siteVersions w
  /\ match fst outcome with
     | Normal _ =>
         exists site site' version number,
           sites w !! siteId = Some site
           /\ wpSiteId site = Some number /\ number <> 0%Z
           /\ version ∈ siteVersions w
           /\ currentVersionId site = Some (version_id version)
           /\ sites (snd outcome) = <[siteId := site']> (sites w)
           /\ site_status site' = published
           /\ publishedVersionId site' = currentVersionId site
           /\ currentVersionId site' = currentVersionId site
           /\ wpSiteId site' = wpSiteId site
     | Throw _ => sites (snd outcome) = sites w
     end.
Proof.
  cbv zeta.
  unfold Jobs.handlePublish, Jobs.siteFindUnique, Jobs.siteVersionFindUnique.
  run_log. run_read. tables.
  destruct (sites w !! siteId) as [site|] eqn:Hsite; [|settle].
  destruct (Jobs.truthyString (currentVersionId site)) as [current|]
    eqn:Hcurrent; [apply truthyString_Some in Hcurrent as [Hcurrent Hne]|settle].
  destruct (Jobs.truthyNumber (wpSiteId site)) as [number|] eqn:Hnumber;
    [apply truthyNumber_Some in Hnumber as [Hnumber Hnonzero]|settle].
  run_read. tables.
  destruct (find _ (siteVersions w)) as [version|] eqn:Hversion; [|settle].
  apply find_version in Hversion as [Hin Hid].
  rewrite bind_run.
  match goal with
  | |- context [WordPress.publishVersion ?wp ?n ?c ?w0] =>
      destruct (publishVersion_run wp n c w0)
        as (outcome & w1 & -> & (_ & _ & Hsites & Hversions & _))
  end.
  tables. cbn [sites siteVersions Jobs.setJobLogs] in Hsites, Hversions.
  destruct outcome as [[]|error]; [|tables; rewrite Hsites, Hversions; settle].
  run_log.
  rewrite (siteUpdate_run _ _ _ site); [|tables; now rewrite Hsites].
  tables. rewrite Hsites, Hversions.
  split; [reflexivity|].
  exists site. eexists. exists version, number.
  repeat (split; [first [assumption | reflexivity | congruence]|]).
  cbn. split; [congruence | easy].
Qed.

Lemma handleRollback_post (this : Jobs.JobsProcessor)
    (jobId siteId : string) (metadata : option Jobs.Metadata) (w : World) :
  let outcome := Jobs.handleRollback this jobId siteId metadata w in
  siteVersions (snd outcome) = siteVersions w
  /\ match fst outcome with
     | Normal _ =>
         exists site site' version number,
           sites w !! siteId = Some site
           /\ wpSiteId site = Some number /\ number <> 0%Z
           /\ version ∈ siteVersions w
           /\ metadata ≫= Jobs.meta_versionId = Some (version_id version)
           /\ version_siteId version = siteId
           /\ sites (snd outcome) = <[siteId := site']> (sites w)
           /\ site_status site' = published
           /\ currentVersionId site' = Some (version_id version)
           /\ publishedVersionId site' = Some (version_id version)
           /\ wpSiteId site' = wpSiteId site
     | Throw _ => sites (snd outcome) = sites w
     end.
Proof.
  cbv zeta. unfold Jobs.handleRollback, Jobs.siteFindUnique,
    Jobs.siteVersionFindUnique.
  destruct (Jobs.truthyString (metadata ≫= Jobs.meta_versionId))
    as [versionId|] eqn:Hid;
    [apply truthyString_Some in Hid as [Hid Hne]|settle].
  run_log. run_read. tables.
  destruct (sites w !! siteId) as [site|] eqn:Hsite; [|settle].
  destruct (Jobs.truthyNumber (wpSiteId site)) as [number|] eqn:Hnumber;
    [apply truthyNumber_Some in Hnumber as [Hnumber Hnonzero]|settle].
  run_read. tables.
  destruct (find _ (siteVersions w)) as [version|] eqn:Hversion; [|settle].
  destruct (String.eqb_spec (version_siteId version) siteId) as [Hown|Hother];
    cbn [negb]; [|settle].
  apply find_version in Hversion as [Hin Hfound].
  rewrite bind_run.
  match goal with
  | |- context [WordPress.publishVersion ?wp ?n ?c ?w0] =>
      destruct (publishVersion_run wp n c w0)
        as (outcome & w1 & -> & (_ & _ & Hsites & Hversions & _))
  end.
  tables. cbn [sites siteVersions Jobs.setJobLogs] in Hsites, Hversions.
  destruct outcome as [[]|error]; [|tables; rewrite Hsites, Hversions; settle].
  run_log.
  rewrite (siteUpdate_run _ _ _ site); [|tables; now rewrite Hsites].
  tables. rewrite Hsites, Hversions.
  split; [reflexivity|].
  exists site. eexists. exists version, number.
  repeat (split; [first [assumption | reflexivity | congruence]|]).
  cbn. easy.
Qed.

End Outcomes.

(** X17: [handlePublish] creates no version and, when it fails, changes no
    site.  When it succeeds, the site existed with a WordPress site id other
    than 0 and a current version that exists, and only the site's row has
    changed: it is [published] and its published version is its current
    one, which stays, as does the WordPress site id.  A missing site fails
    with [Site not found], a missing or empty current version id with [No
    current version to publish], and then a missing or zero WordPress site
    id with [WordPress site not provisioned]. *)
Theorem publish_job_outcome `{Platform} (this : Jobs.JobsProcessor)
    (jobId siteId : string) (metadata : option Jobs.Metadata) (w : World) :
  let outcome := Jobs.handlePublish this jobId siteId metadata w in
  (siteVersions (snd outcome) = siteVersions w
   /\ match fst outcome with
      | Normal _ =>
          exists site site' version number,
            sites w !! siteId = Some site
            /\ wpSiteId site = Some number /\ number <> 0%Z
            /\ version ∈ siteVersions w
            /\ currentVersionId site = Some (version_id version)
            /\ sites (snd outcome) = <[siteId := site']> (sites w)
            /\ site_status site' = published
            /\ publishedVersionId site' = currentVersionId site
            /\ currentVersionId site' = currentVersionId site
            /\ wpSiteId site' = wpSiteId site
      | Throw _ => sites (snd outcome) = sites w
      end)
  /\ (sites w !! siteId = None ->
      fst outcome = Throw (Error "Site not found"))
  /\ (forall site,
         sites w !! siteId = Some site ->
         currentVersionId site = None \/ currentVersionId site = Some "" ->
         fst outcome = Throw (Error "No current version to publish"))
  /\ (forall site current,
         sites w !! siteId = Some site ->
         currentVersionId site = Some current -> current <> "" ->
         wpSiteId site = None \/ wpSiteId site = Some 0%Z ->
         fst outcome = Throw (Error "WordPress site not provisioned")).
Proof.
  cbv zeta. split; [apply handlePublish_post|].
  unfold Jobs.handlePublish, Jobs.siteFindUnique.
  run_log. run_read. tables.
  split; [now intros ->|]. split.
  - intros site -> Hcurrent. apply truthyString_None in Hcurrent.
    now rewrite Hcurrent.
  - intros site current -> Hcurrent Hne Hnumber.
    apply truthyNumber_None in Hnumber.
    assert (Htruthy : Jobs.truthyString (currentVersionId site) = Some current)
      by now apply truthyString_Some.
    now rewrite Htruthy, Hnumber.
Qed.

(** X18: [handleRollback] creates no version and, when it fails, changes no
    site.  When it succeeds, the site existed with a WordPress site id other
    than 0, the metadata named a version of this very site, and only the
    site's row has changed: it is [published], and its current and its
    published version are the named one.  Without a version id, or with an
    empty one, it fails with [Version ID required for rollback] before
    anything is logged; and it fails when the version of that id belongs to
    another site. *)
Theorem rollback_job_outcome `{Platform} (this : Jobs.JobsProcessor)
    (jobId siteId : string) (metadata : option Jobs.Metadata) (w : World) :
  let outcome := Jobs.handleRollback this jobId siteId metadata w in
  (siteVersions (snd outcome) = siteVersions w
   /\ match fst outcome with
      | Normal _ =>
          exists site site' version number,
            sites w !! siteId = Some site
            /\ wpSiteId site = Some number /\ number <> 0%Z
            /\ version ∈ siteVersions w
            /\ metadata ≫= Jobs.meta_versionId = Some (version_id version)
            /\ version_siteId version = siteId
            /\ sites (snd outcome) = <[siteId := site']> (sites w)
            /\ site_status site' = published
            /\ currentVersionId site' = Some (version_id version)
            /\ publishedVersionId site' = Some (version_id version)
            /\ wpSiteId site' = wpSiteId site
      | Throw _ => sites (snd outcome) = sites w
      end)
  /\ (metadata ≫= Jobs.meta_versionId = None
      \/ metadata ≫= Jobs.meta_versionId = Some "" ->
      outcome = (Throw (Error "Version ID required for rollback"), w))
  /\ (forall versionId version,
         metadata ≫= Jobs.meta_versionId = Some versionId ->
         find (fun row => bool_decide (version_id row = versionId))
              (siteVersions w) = Some version ->
         version_siteId version <> siteId ->
         exists error, fst outcome = Throw error).
Proof.
  cbv zeta. split; [apply handleRollback_post|]. split.
  - intros Hid. apply truthyString_None in Hid.
    unfold Jobs.handleRollback. now rewrite Hid.
  - intros versionId version Hid Hfind Hother.
    unfold Jobs.handleRollback, Jobs.siteFindUnique,
      Jobs.siteVersionFindUnique.
    destruct (Jobs.truthyString (metadata ≫= Jobs.meta_versionId))
      as [versionId'|] eqn:Htruthy; [|now eexists].
    apply truthyString_Some in Htruthy as [Htruthy _].
    assert (versionId' = versionId) as -> by congruence.
    run_log. run_read. tables.
    destruct (sites w !! siteId) as [site|]; [|now eexists].
    destruct (Jobs.truthyNumber (wpSiteId site)); [|now eexists].
    run_read. tables. rewrite Hfind.
    apply String.eqb_neq in Hother. rewrite Hother. now eexists.
Qed.

(** ** What a job changes *)

Ltac walk site_leaf :=
  repeat first
    [ solve [auto with preserve]
    | match goal with
      | |- preserves _ (Jobs.siteUpdate _ _) => solve [site_leaf]
      | |- preserves _ (_ ≫= _) =>
          apply preserves_bind; [assumption | | intros ?]
      | |- preserves _ (tryCatch _ _) =>
          apply preserves_tryCatch; [assumption | | intros ?]
      | |- preserves _ (match ?x with _ => _ end) => destruct x
      | |- preserves _ (let _ := _ in _) => cbv zeta
      end ].

Ltac unfold_job :=
  unfold Jobs.processJob, Jobs.dispatch, Jobs.handleProvision,
    Jobs.handleGenerate, Jobs.handlePublish, Jobs.handleRollback,
    Jobs.siteFindUnique, Jobs.siteVersionFindUnique, Jobs.latestVersion.

Section Walk.
Context `{Platform}.
Variable R : World -> World -> Prop.
Hypothesis R_refl : forall w, R w w.
Hypothesis R_trans : forall w1 w2 w3, R w1 w2 -> R w2 w3 -> R w1 w3.
Hypothesis R_ext : forall w x, R w (setExt w x).
Variables jobId siteId : string.
Hypothesis R_log : forall message, preserves R (Jobs.addJobLog jobId message).
Hypothesis R_status :
  forall status error, preserves R (Jobs.updateJobStatus jobId status error).
Hypothesis R_site :
  forall data,
    (forall row,
        site_name (data row) = site_name row
        /\ site_owner_email (data row) = site_owner_email row
        /\ site_tenant_slug (data row) = site_tenant_slug row
        /\ site_status (data row) <> site_error) ->
    preserves R (Jobs.siteUpdate siteId data).
Hypothesis R_create :
  forall number content,
    preserves R (Jobs.siteVersionCreate siteId number content).

(** A job that only writes its log, its status, its site (but for the
    name, the owner, the tenant and the [error] state) and versions of its
    site keeps [R]. *)
Lemma walk_dispatch this data :
  Jobs.jobId data = jobId -> Jobs.siteId data = siteId ->
  preserves R (Jobs.dispatch this data).
Proof.
  intros Hjob Hsite.
  pose proof (preserves_provisionSite R R_refl R_trans R_ext) as Hprovision.
  pose proof (preserves_applyThemeAndPlugins R R_refl R_trans R_ext) as Htheme.
  pose proof (preserves_publishVersion R R_refl R_trans R_ext) as Hpublish.
  pose proof (preserves_generateSiteContent R R_refl R_trans R_ext) as Hcontent.
  unfold_job. rewrite Hjob, Hsite.
  walk ltac:(apply R_site; intros row; cbn; repeat split; discriminate).
Qed.

Lemma walk_processJob this data :
  Jobs.jobId data = jobId -> Jobs.siteId data = siteId ->
  preserves R (Jobs.processJob this data).
Proof.
  intros Hjob Hsite.
  pose proof (walk_dispatch this data Hjob Hsite) as Hdispatch.
  unfold Jobs.processJob. rewrite Hjob.
  walk ltac:(idtac).
Qed.

End Walk.

Section Footprints.
Context `{Platform}.

Lemma fmap_lookup_insert_same {A B} (f : A -> B) (m : gmap string A)
    (k : string) (old new : A) :
  m !! k = Some old -> f new = f old ->
  f <$> <[k := new]> m !! k = f <$> m !! k.
Proof. intros Hold Hf. now rewrite lookup_insert_eq, Hold; cbn; rewrite Hf. Qed.

Lemma withinJob_refl jobId siteId (w : World) : withinJob jobId siteId w w.
Proof.
  unfold withinJob. repeat split; try reflexivity.
  exists []. now rewrite app_nil_r.
Qed.

Lemma withinJob_trans jobId siteId (w1 w2 w3 : World) :
  withinJob jobId siteId w1 w2 -> withinJob jobId siteId w2 w3 ->
  withinJob jobId siteId w1 w3.
Proof.
  unfold withinJob.
  intros (Hj & Hjs & Hjt & Hs & Hn & Ho & Ht & Hsub & c1 & Hv & Hc1)
         (Hj' & Hjs' & Hjt' & Hs' & Hn' & Ho' & Ht' & Hsub' & c2 & Hv' & Hc2).
  repeat split; try congruence.
  - intros other Hother. now rewrite Hj', Hj.
  - intros other Hother. now rewrite Hs', Hs.
  - exists (c1 ++ c2). rewrite Hv', Hv, app_assoc.
    split; [reflexivity | now apply Forall_app].
Qed.

Lemma withinJob_tables jobId siteId (w w' : World) :
  jobs w' = jobs w -> sites w' = sites w ->
  siteVersions w' = siteVersions w ->
  stripeSubscriptions w' = stripeSubscriptions w ->
  withinJob jobId siteId w w'.
Proof.
  intros Hj Hs Hv Hsub. unfold withinJob. rewrite Hj, Hs, Hv, Hsub.
  apply withinJob_refl.
Qed.

Lemma withinJob_status jobId siteId status error :
  preserves (withinJob jobId siteId) (Jobs.updateJobStatus jobId status error).
Proof.
  intros w. unfold Jobs.updateJobStatus.
  destruct (jobs w !! jobId) as [row|] eqn:Hrow; [|apply withinJob_refl].
  unfold withinJob. tables. repeat split; try reflexivity.
  - intros other Hother. now apply lookup_insert_ne.
  - now apply (fmap_lookup_insert_same job_siteId _ _ row).
  - now apply (fmap_lookup_insert_same job_type _ _ row).
  - exists []. now rewrite app_nil_r.
Qed.

Lemma withinJob_site jobId siteId data :
  (forall row,
      site_name (data row) = site_name row
      /\ site_owner_email (data row) = site_owner_email row
      /\ site_tenant_slug (data row) = site_tenant_slug row
      /\ site_status (data row) <> site_error) ->
  preserves (withinJob jobId siteId) (Jobs.siteUpdate siteId data).
Proof.
  intros Hdata w. unfold Jobs.siteUpdate.
  destruct (sites w !! siteId) as [row|] eqn:Hrow; [|apply withinJob_refl].
  destruct (Hdata row) as (Hname & Howner & Htenant & _).
  unfold withinJob. tables. repeat split; try reflexivity.
  - intros other Hother. now apply lookup_insert_ne.
  - now apply (fmap_lookup_insert_same site_name _ _ row).
  - now apply (fmap_lookup_insert_same site_owner_email _ _ row).
  - now apply (fmap_lookup_insert_same site_tenant_slug _ _ row).
  - exists []. now rewrite app_nil_r.
Qed.

Lemma withinJob_create jobId siteId number content :
  preserves (withinJob jobId siteId)
    (Jobs.siteVersionCreate siteId number content).
Proof.
  intros w. unfold Jobs.siteVersionCreate.
  destruct (existsb _ _); [apply withinJob_refl|].
  destruct (cuid (ext w)) as [id x].
  unfold withinJob. tables. repeat split; try reflexivity.
  eexists. split; [reflexivity|]. now repeat constructor.
Qed.

Lemma processJob_withinJob this data :
  preserves (withinJob (Jobs.jobId data) (Jobs.siteId data))
    (Jobs.processJob this data).
Proof.
  apply (walk_processJob _ (withinJob_refl _ _) (withinJob_trans _ _))
    with (jobId := Jobs.jobId data) (siteId := Jobs.siteId data);
    try reflexivity.
  - intros w x. now apply withinJob_tables.
  - intros message w. now apply withinJob_tables.
  - apply withinJob_status.
  - apply withinJob_site.
  - apply withinJob_create.
Qed.

Lemma noNewError_refl (w : World) : noNewError w w.
Proof. intros siteId site' Hsite Herror. eauto. Qed.

Lemma noNewError_trans (w1 w2 w3 : World) :
  noNewError w1 w2 -> noNewError w2 w3 -> noNewError w1 w3.
Proof.
  intros H12 H23 siteId site3 Hsite Herror.
  destruct (H23 siteId site3 Hsite Herror) as (site2 & Hsite2 & Herror2).
  eauto.
Qed.

Lemma noNewError_sites (w w' : World) : sites w' = sites w -> noNewError w w'.
Proof. intros Hs siteId site' Hsite Herror. rewrite Hs in Hsite. eauto. Qed.

Lemma noNewError_site siteId data :
  (forall row,
      site_name (data row) = site_name row
      /\ site_owner_email (data row) = site_owner_email row
      /\ site_tenant_slug (data row) = site_tenant_slug row
      /\ site_status (data row) <> site_error) ->
  preserves noNewError (Jobs.siteUpdate siteId data).
Proof.
  intros Hdata w. unfold Jobs.siteUpdate.
  destruct (sites w !! siteId) as [row|] eqn:Hrow; [|apply noNewError_refl].
  intros other site'. tables.
  destruct (decide (other = siteId)) as [->|Hother].
  - rewrite lookup_insert_eq. intros [= <-] Herror.
    now destruct (Hdata row) as (_ & _ & _ & Hstatus).
  - rewrite lookup_insert_ne by congruence. eauto.
Qed.

End Footprints.

(** X19: whatever its type and its outcome, a job changes of the [Job] table
    its own row only, whose site and type stay; of the [Site] table the row
    of its site only, whose name, owner and tenant stay; no subscription;
    and it only adds versions, of its own site.  It creates and deletes no
    job row and no site row. *)
Theorem job_stays_within_its_rows `{Platform} (this : Jobs.JobsProcessor)
    (data : Jobs.JobData) (w : World) :
  let w' := snd (Jobs.processJob this data w) in
  withinJob (Jobs.jobId data) (Jobs.siteId data) w w'
  /\ (forall jobId, is_Some (jobs w' !! jobId) <-> is_Some (jobs w !! jobId))
  /\ (forall siteId, is_Some (sites w' !! siteId) <-> is_Some (sites w !! siteId)).
Proof.
  cbv zeta. pose proof (processJob_withinJob this data w) as Hwithin.
  split; [exact Hwithin|].
  destruct Hwithin as (Hjobs & Hjob & _ & Hsites & Hsite & _).
  split.
  - intros jobId.
    destruct (decide (jobId = Jobs.jobId data)) as [->|Hother];
      [|now rewrite Hjobs].
    rewrite <- !(fmap_is_Some job_siteId), Hjob. reflexivity.
  - intros siteId.
    destruct (decide (siteId = Jobs.siteId data)) as [->|Hother];
      [|now rewrite Hsites].
    rewrite <- !(fmap_is_Some site_name), Hsite. reflexivity.
Qed.

(** X20: no job ever puts a site into the [error] state, not even a job
    that fails: a site that is in it after [processJob] was in it before. *)
Theorem no_job_marks_a_site_failed `{Platform} (this : Jobs.JobsProcessor)
    (data : Jobs.JobData) (w : World) :
  noNewError w (snd (Jobs.processJob this data w)).
Proof.
  apply (walk_processJob _ noNewError_refl noNewError_trans)
    with (jobId := Jobs.jobId data) (siteId := Jobs.siteId data);
    try reflexivity.
  - intros w0 x. now apply noNewError_sites.
  - intros message w0. now apply noNewError_sites.
  - intros status error w0. apply noNewError_sites.
    unfold Jobs.updateJobStatus. now destruct (jobs w0 !! Jobs.jobId data).
  - apply noNewError_site.
  - intros number content w0. apply noNewError_sites.
    unfold Jobs.siteVersionCreate. destruct (existsb _ _); [reflexivity|].
    now destruct (cuid (ext w0)).
Qed.

(** ** The job log *)

Section JobLog.
Context `{Platform}.

Lemma processJob_run this data (w : World) row :
  jobs w !! Jobs.jobId data = Some row ->
  let jobId := Jobs.jobId data in
  let entry message := {| log_jobId := jobId; log_message := message |} in
  let started :=
    Jobs.setJobLogs
      (Jobs.setJobs w (<[jobId := withStatus row running None]> (jobs w)))
      (jobLogs w ++ [entry ("Starting " +:+ Jobs.type data +:+ " job")]) in
  Jobs.processJob this data w
  = match Jobs.dispatch this data started with
    | (Normal _, w2) =>
        (Normal tt,
         Jobs.setJobLogs
           (Jobs.setJobs w2
              (<[jobId := withStatus (withStatus row running None) completed
                            None]> (jobs w2)))
           (jobLogs w2 ++ [entry "Job completed successfully"]))
    | (Throw error, w2) =>
        (Throw error,
         Jobs.setJobLogs
           (Jobs.setJobs w2
              (<[jobId := withStatus (withStatus row running None) failed
                            (Some (errorMessageOf error))]> (jobs w2)))
           (jobLogs w2 ++ [entry ("Job failed: " +:+ errorMessageOf error)]))
    end.
Proof.
  intros Hrow jobId entry started. subst jobId entry.
  pose proof (dispatch_sameJobs this data started) as Hsame.
  assert (Hrow2 : jobs (snd (Jobs.dispatch this data started))
                  !! Jobs.jobId data
                  = Some (withStatus row running None)).
  { rewrite Hsame. apply lookup_insert_eq. }
  unfold Jobs.processJob. rewrite tryCatch_run, bind_run.
  rewrite (updateJobStatus_run w _ running None row Hrow).
  run_log. rewrite bind_run.
  match goal with
  | |- context [Jobs.dispatch this data ?w1] => change w1 with started
  end.
  destruct (Jobs.dispatch this data started) as [[[]|error] w2];
    cbn [snd] in Hrow2; cbv beta iota.
  - rewrite bind_run, (updateJobStatus_run w2 _ completed None _ Hrow2).
    rewrite addJobLog_run. reflexivity.
  - rewrite bind_run, (updateJobStatus_run w2 _ failed _ _ Hrow2).
    run_log. reflexivity.
Qed.

Lemma updateJobStatus_missing jobId status error (w : World) :
  jobs w !! jobId = None ->
  Jobs.updateJobStatus jobId status error w = (Throw Jobs.recordNotFound, w).
Proof. intros Hrow. unfold Jobs.updateJobStatus. now rewrite Hrow. Qed.

Lemma processJob_unknown_job this data (w : World) :
  jobs w !! Jobs.jobId data = None ->
  Jobs.processJob this data w = (Throw Jobs.recordNotFound, w).
Proof.
  intros Hrow. unfold Jobs.processJob.
  rewrite tryCatch_run, bind_run, updateJobStatus_missing by exact Hrow.
  now rewrite bind_run, updateJobStatus_missing by exact Hrow.
Qed.

Lemma logsGrow_refl jobId (w : World) : logsGrow jobId w w.
Proof. exists []. now rewrite app_nil_r. Qed.

Lemma logsGrow_trans jobId (w1 w2 w3 : World) :
  logsGrow jobId w1 w2 -> logsGrow jobId w2 w3 -> logsGrow jobId w1 w3.
Proof.
  intros (e1 & H1 & Hall1) (e2 & H2 & Hall2). exists (e1 ++ e2).
  rewrite H2, H1, app_assoc. split; [reflexivity | now apply Forall_app].
Qed.

Lemma logsGrow_logs jobId (w w' : World) :
  jobLogs w' = jobLogs w -> logsGrow jobId w w'.
Proof. intros Hlogs. exists []. now rewrite app_nil_r. Qed.

Lemma dispatch_logsGrow this data :
  preserves (logsGrow (Jobs.jobId data)) (Jobs.dispatch this data).
Proof.
  apply (walk_dispatch _ (logsGrow_refl _) (logsGrow_trans _))
    with (jobId := Jobs.jobId data) (siteId := Jobs.siteId data);
    try reflexivity.
  - intros w x. now apply logsGrow_logs.
  - intros message w. eexists. split; [reflexivity|]. now repeat constructor.
  - intros data' _ w. apply logsGrow_logs.
    unfold Jobs.siteUpdate. now destruct (sites w !! Jobs.siteId data).
  - intros number content w. apply logsGrow_logs.
    unfold Jobs.siteVersionCreate. destruct (existsb _ _); [reflexivity|].
    now destruct (cuid (ext w)).
Qed.

End JobLog.

(** X21: for a job whose row exists, [processJob] adds to the log entries of
    this job only: first [Starting <type> job], last either [Job completed
    successfully] or [Job failed: ] with the error's message ([Unknown
    error] for a thrown value that is no [Error]), and the handler's entries
    in between.  For a job id without a row it throws Prisma's
    record-not-found error and has changed and logged nothing. *)
Theorem job_log_frames_the_job `{Platform} (this : Jobs.JobsProcessor)
    (data : Jobs.JobData) (w : World) :
  let outcome := Jobs.processJob this data w in
  let entry message :=
    {| log_jobId := Jobs.jobId data; log_message := message |} in
  match jobs w !! Jobs.jobId data with
  | None => outcome = (Throw Jobs.recordNotFound, w)
  | Some _ =>
      exists between,
        jobLogs (snd outcome)
        = jobLogs w
          ++ [entry ("Starting " +:+ Jobs.type data +:+ " job")] ++ between
          ++ [entry
                match fst outcome with
                | Normal _ => "Job completed successfully"
                | Throw error =>
                    "Job failed: "
                    +:+ (if instanceofError error then message error
                         else "Unknown error")
                end]
        /\ Forall (fun logged => log_jobId logged = Jobs.jobId data) between
  end.
Proof.
  cbv zeta.
  destruct (jobs w !! Jobs.jobId data) as [row|] eqn:Hrow;
    [|now apply processJob_unknown_job].
  rewrite (processJob_run this data w row Hrow). cbv zeta.
  match goal with
  | |- context [Jobs.dispatch this data ?w1] =>
      destruct (dispatch_logsGrow this data w1) as (between & Hlogs & Hall);
      destruct (Jobs.dispatch this data w1) as [[[]|error] w2]
  end;
    cbn [snd] in Hlogs; tables; exists between; rewrite Hlogs; tables;
    (split; [now rewrite <- !app_assoc | exact Hall]).
Qed.

(** ** Version pointers *)

Section Pointers.
Context `{Platform}.

Lemma handleGenerate_exact (this : Jobs.JobsProcessor)
    (jobId siteId : string) (metadata : option Jobs.Metadata) (w : World)
    (site : SiteRow) :
  sites w !! siteId = Some site ->
  (metadata ≫= Jobs.meta_settings <> None
   \/ Jobs.versionsOf siteId (siteVersions w) <> []) ->
  exists version site' w',
    Jobs.handleGenerate this jobId siteId metadata w = (Normal tt, w')
    /\ siteVersions w' = siteVersions w ++ [version]
    /\ version_siteId version = siteId
    /\ sites w' = <[siteId := site']> (sites w)
    /\ jobs w' = jobs w
    /\ site_status site' = draft
    /\ currentVersionId site' = Some (version_id version)
    /\ publishedVersionId site' = publishedVersionId site
    /\ wpSiteId site' = wpSiteId site.
Proof.
  intros Hsite Hfound.
  set (rows := Jobs.versionsOf siteId (siteVersions w)) in *.
  assert (Hsettings :
            exists settings_,
              match metadata ≫= Jobs.meta_settings with
              | Some s => Some s
              | None => settings <$> (pageJson <$> Jobs.greatestVersion rows)
              end = Some settings_).
  { destruct (metadata ≫= Jobs.meta_settings) as [s|]; [now exists s|].
    destruct Hfound as [|Hrows]; [easy|].
    destruct (Jobs.greatestVersion rows) as [latest|] eqn:Hlatest;
      [now eexists|].
    now apply greatestVersion_nil in Hlatest. }
  destruct Hsettings as [settings_ Hsettings].
  set (number :=
         (Jobs.orZero (versionNumber <$> Jobs.greatestVersion rows) + 1)%Z).
  assert (Hhigher : forall older, older ∈ rows ->
                                  (versionNumber older < number)%Z).
  { intros older Hin. unfold number.
    destruct (Jobs.greatestVersion rows) as [latest|] eqn:Hlatest.
    - apply greatestVersion_greatest in Hlatest as [_ Hmax].
      change (versionNumber <$> Some latest)
        with (Some (versionNumber latest)).
      rewrite orZero_Some. specialize (Hmax older Hin). lia.
    - apply greatestVersion_nil in Hlatest. rewrite Hlatest in Hin.
      inversion Hin. }
  unfold Jobs.handleGenerate, Jobs.siteFindUnique, Jobs.latestVersion.
  run_log. run_read. run_read.
  change (sites (Jobs.setJobLogs w _)) with (sites w).
  change (siteVersions (Jobs.setJobLogs w _)) with (siteVersions w).
  rewrite Hsite. fold rows. rewrite Hsettings.
  rewrite bind_run.
  match goal with
  | |- context [Ai.generateSiteContent ?ai ?s ?w0] =>
      destruct (generateSiteContent_run ai s w0)
        as (content & wb & -> & (Hjobs & _ & Hsites & Hversions & _))
  end.
  cbn [jobs sites siteVersions Jobs.setJobLogs] in Hjobs, Hsites, Hversions.
  run_log. run_read.
  change (siteVersions (Jobs.setJobLogs wb _)) with (siteVersions wb).
  rewrite Hversions. fold rows. fold number.
  rewrite bind_run, siteVersionCreate_run; cycle 1.
  { change (siteVersions (Jobs.setJobLogs wb _)) with (siteVersions wb).
    rewrite Hversions. fold rows. intros row Hin.
    specialize (Hhigher row Hin). lia. }
  cbv beta iota. run_log.
  rewrite (siteUpdate_run _ _ _ site);
    [|exact (eq_trans (f_equal (.!! siteId) Hsites) Hsite)].
  do 3 eexists. split; [reflexivity|]. tables.
  rewrite Hversions, Hsites, Hjobs. cbn. easy.
Qed.

(** [handleGenerate] returns, having created one version, or throws, having
    written its log only. *)
Lemma handleGenerate_cases this jobId siteId metadata (w : World) :
  (exists version site site' w',
      Jobs.handleGenerate this jobId siteId metadata w = (Normal tt, w')
      /\ sites w !! siteId = Some site
      /\ siteVersions w' = siteVersions w ++ [version]
      /\ version_siteId version = siteId
      /\ sites w' = <[siteId := site']> (sites w)
      /\ site_status site' = draft
      /\ currentVersionId site' = Some (version_id version)
      /\ publishedVersionId site' = publishedVersionId site
      /\ wpSiteId site' = wpSiteId site)
  \/ (exists error w',
         Jobs.handleGenerate this jobId siteId metadata w = (Throw error, w')
         /\ sites w' = sites w /\ siteVersions w' = siteVersions w).
Proof.
  destruct (sites w !! siteId) as [site|] eqn:Hsite.
  - destruct (metadata ≫= Jobs.meta_settings) as [s|] eqn:Hmeta;
      [|destruct (Jobs.versionsOf siteId (siteVersions w)) as [|row rows]
          eqn:Hrows].
    + left.
      destruct (handleGenerate_exact this jobId siteId metadata w site Hsite)
        as (version & site' & w' & Hrun & Hv & Hid & Hs & _ & Hrest).
      { left. now rewrite Hmeta. }
      exists version, site, site', w'. easy.
    + right. do 2 eexists. split;
        [now apply (handleGenerate_no_settings this jobId siteId metadata w site)|].
      easy.
    + left.
      destruct (handleGenerate_exact this jobId siteId metadata w site Hsite)
        as (version & site' & w' & Hrun & Hv & Hid & Hs & _ & Hrest).
      { right. now rewrite Hrows. }
      exists version, site, site', w'. easy.
  - right. do 2 eexists. split; [now apply handleGenerate_no_site|]. easy.
Qed.

Lemma versionOf_app (w w' : World) siteId versionId created :
  siteVersions w' = siteVersions w ++ created ->
  versionOf w siteId versionId -> versionOf w' siteId versionId.
Proof.
  intros Hv (version & Hin & Hid & Hsite). exists version.
  rewrite Hv, elem_of_app. auto.
Qed.

(** Writing a pointer to a version of the site keeps the pointers valid. *)
Lemma pointersValid_update (w w' : World) siteId site site' created :
  pointersValid w ->
  sites w !! siteId = Some site ->
  sites w' = <[siteId := site']> (sites w) ->
  siteVersions w' = siteVersions w ++ created ->
  (forall versionId,
      currentVersionId site' = Some versionId
      \/ publishedVersionId site' = Some versionId ->
      versionOf w' siteId versionId
      \/ currentVersionId site = Some versionId
      \/ publishedVersionId site = Some versionId) ->
  pointersValid w'.
Proof.
  intros Hvalid Hsite Hsites Hversions Hnew other row versionId.
  rewrite Hsites.
  destruct (decide (other = siteId)) as [->|Hother].
  - rewrite lookup_insert_eq. intros [= <-] Hpointer.
    destruct (Hnew versionId Hpointer) as [Hok|Hold]; [exact Hok|].
    eapply versionOf_app; [exact Hversions|]. eapply Hvalid; eauto.
  - rewrite lookup_insert_ne by congruence. intros Hrow Hpointer.
    eapply versionOf_app; [exact Hversions|]. eapply Hvalid; eauto.
Qed.

Lemma pointersValid_tables (w w' : World) :
  sites w' = sites w -> siteVersions w' = siteVersions w ->
  pointersValid w -> pointersValid w'.
Proof.
  intros Hs Hv Hvalid siteId site versionId. rewrite Hs. intros Hsite Hp.
  destruct (Hvalid siteId site versionId Hsite Hp) as (v & Hin & Hid & Hown).
  exists v. now rewrite Hv.
Qed.

End Pointers.

Section PointerJobs.
Context `{Platform}.

Let keeps (w w' : World) : Prop := pointersValid w -> pointersValid w'.

Lemma keeps_refl (w : World) : keeps w w.
Proof. now unfold keeps. Qed.

Lemma keeps_trans (w1 w2 w3 : World) : keeps w1 w2 -> keeps w2 w3 -> keeps w1 w3.
Proof. unfold keeps. auto. Qed.

Lemma keeps_tables (w w' : World) :
  sites w' = sites w -> siteVersions w' = siteVersions w -> keeps w w'.
Proof. intros Hs Hv. exact (pointersValid_tables w w' Hs Hv). Qed.

Lemma keeps_sameDatabase {A} (m : M A) :
  preserves sameDatabase m -> preserves keeps m.
Proof.
  intros Hsame w. destruct (Hsame w) as (_ & _ & Hs & Hv & _).
  now apply keeps_tables.
Qed.

Lemma keeps_log jobId message : preserves keeps (Jobs.addJobLog jobId message).
Proof. intros w. now apply keeps_tables. Qed.

Lemma keeps_status jobId status error :
  preserves keeps (Jobs.updateJobStatus jobId status error).
Proof.
  intros w. apply keeps_tables; unfold Jobs.updateJobStatus;
    now destruct (jobs w !! jobId).
Qed.

(** An update that leaves the two pointers alone *)
Lemma keeps_site siteId data :
  (forall row,
      currentVersionId (data row) = currentVersionId row
      /\ publishedVersionId (data row) = publishedVersionId row) ->
  preserves keeps (Jobs.siteUpdate siteId data).
Proof.
  intros Hdata w. unfold Jobs.siteUpdate.
  destruct (sites w !! siteId) as [row|] eqn:Hrow; [|apply keeps_refl].
  intros Hvalid. destruct (Hdata row) as [Hcurrent Hpublished].
  apply (pointersValid_update w _ siteId row (data row) []);
    try assumption; try reflexivity.
  - tables. now rewrite app_nil_r.
  - intros versionId. rewrite Hcurrent, Hpublished. tauto.
Qed.

Lemma keeps_handleGenerate this jobId siteId metadata :
  preserves keeps (Jobs.handleGenerate this jobId siteId metadata).
Proof.
  intros w Hvalid.
  destruct (handleGenerate_cases this jobId siteId metadata w)
    as [(version & site & site' & w' & -> & Hsite & Hv & Hown & Hs & _
         & Hcurrent & Hpublished & _)
       |(error & w' & -> & Hs & Hv)]; cbn [snd].
  - apply (pointersValid_update w w' siteId site site' [version]);
      try assumption.
    intros versionId [Hp|Hp].
    + left. exists version. rewrite Hv, elem_of_app, list_elem_of_singleton.
      split; [now right|]. split; [congruence | exact Hown].
    + right. right. congruence.
  - exact (pointersValid_tables w w' Hs Hv Hvalid).
Qed.

Lemma keeps_handlePublish this jobId siteId metadata :
  preserves keeps (Jobs.handlePublish this jobId siteId metadata).
Proof.
  intros w Hvalid.
  destruct (handlePublish_post this jobId siteId metadata w) as [Hv Hpost].
  destruct (fst (Jobs.handlePublish this jobId siteId metadata w));
    [|exact (pointersValid_tables w _ Hpost Hv Hvalid)].
  destruct Hpost
    as (site & site' & version & number & Hsite & _ & _ & Hin & Hcurrent
        & Hs & _ & Hpublished' & Hcurrent' & _).
  apply (pointersValid_update w _ siteId site site' []);
    try assumption; [now rewrite app_nil_r|].
  intros versionId [Hp|Hp]; right; left; congruence.
Qed.

Lemma keeps_handleRollback this jobId siteId metadata :
  preserves keeps (Jobs.handleRollback this jobId siteId metadata).
Proof.
  intros w Hvalid.
  destruct (handleRollback_post this jobId siteId metadata w) as [Hv Hpost].
  destruct (fst (Jobs.handleRollback this jobId siteId metadata w));
    [|exact (pointersValid_tables w _ Hpost Hv Hvalid)].
  destruct Hpost
    as (site & site' & version & number & Hsite & _ & _ & Hin & _ & Hown
        & Hs & _ & Hcurrent' & Hpublished' & _).
  apply (pointersValid_update w _ siteId site site' []);
    try assumption; [now rewrite app_nil_r|].
  intros versionId Hp. left. exists version. rewrite Hv.
  split; [exact Hin|]. split; [|exact Hown].
  destruct Hp; congruence.
Qed.

Lemma keeps_processJob this data : preserves keeps (Jobs.processJob this data).
Proof.
  pose proof keeps_refl as Hrefl. pose proof keeps_trans as Htrans.
  pose proof keeps_log as Hlog. pose proof keeps_status as Hstatus.
  pose proof keeps_handleGenerate as Hgenerate.
  pose proof keeps_handlePublish as Hpublish.
  pose proof keeps_handleRollback as Hrollback.
  assert (Hprovision : forall wp site,
             preserves keeps (WordPress.provisionSite wp site)).
  { intros wp site. apply keeps_sameDatabase.
    exact (preserves_provisionSite sameDatabase sameDatabase_refl
             sameDatabase_trans sameDatabase_setExt wp site). }
  assert (Htheme : forall wp number,
             preserves keeps (WordPress.applyThemeAndPlugins wp number)).
  { intros wp number. apply keeps_sameDatabase.
    exact (preserves_applyThemeAndPlugins sameDatabase sameDatabase_refl
             sameDatabase_trans sameDatabase_setExt wp number). }
  unfold Jobs.processJob, Jobs.dispatch, Jobs.handleProvision,
    Jobs.siteFindUnique.
  walk ltac:(apply keeps_site; intros row; cbn; split; reflexivity).
Qed.

End PointerJobs.

(** X22: if the current and the published version id of every site name
    versions of that site, they still do after any job, whatever its type
    and its outcome. *)
Theorem jobs_keep_version_pointers_valid `{Platform}
    (this : Jobs.JobsProcessor) (data : Jobs.JobData) (w : World) :
  pointersValid w -> pointersValid (snd (Jobs.processJob this data w)).
Proof.
  intros Hvalid. revert w Hvalid.
  change (preserves (fun w w' => pointersValid w -> pointersValid w')
            (Jobs.processJob this data)).
  apply keeps_processJob.
Qed.

Lemma jobs_keep_version_pointers_valid_witness :
  pointersValid (Demo.queuedWorld "generate")
  /\ pointersValid
       (snd (Jobs.processJob Demo.processor
               (Demo.jobData "generate" Demo.withSettings)
               (Demo.queuedWorld "generate"))).
Proof.
  assert (Hvalid : pointersValid (Demo.queuedWorld "generate")).
  { intros siteId site versionId Hsite Hpointer.
    destruct (decide (siteId = "site-1")) as [->|Hother].
    - injection Hsite as <-. now destruct Hpointer.
    - unfold Demo.queuedWorld in Hsite. cbn [sites] in Hsite.
      now rewrite lookup_singleton_ne in Hsite. }
  split; [exact Hvalid|].
  exact (jobs_keep_version_pointers_valid (H := Demo.platform) Demo.processor
           (Demo.jobData "generate" Demo.withSettings)
           (Demo.queuedWorld "generate") Hvalid).
Defined.

(** ** [provision] jobs *)

Section ProvisionJob.
Context `{Platform}.

Lemma service_run {A} (m : M A) (w : World) :
  preserves sameDatabase m ->
  exists outcome w', m w = (outcome, w') /\ sameDatabase w w'.
Proof.
  intros Hsame. specialize (Hsame w).
  destruct (m w) as [outcome w']. now exists outcome, w'.
Qed.

Lemma provisionSite_same this site :
  preserves sameDatabase (WordPress.provisionSite this site).
Proof.
  exact (preserves_provisionSite sameDatabase sameDatabase_refl
           sameDatabase_trans sameDatabase_setExt this site).
Qed.

Lemma applyThemeAndPlugins_same this number :
  preserves sameDatabase (WordPress.applyThemeAndPlugins this number).
Proof.
  exact (preserves_applyThemeAndPlugins sameDatabase sameDatabase_refl
           sameDatabase_trans sameDatabase_setExt this number).
Qed.

(** A [provision] job for a site that exists ends where [provisionSite]
    throws, or where [applyThemeAndPlugins] throws, or as the [generate] job
    that it runs on the provisioned site. *)
Lemma handleProvision_cases this jobId siteId metadata (w : World) site :
  sites w !! siteId = Some site ->
  let wp := Jobs.wordpressService this in
  let outcome := Jobs.handleProvision this jobId siteId metadata w in
  (exists error wpSite w1,
      WordPress.provisionSite wp wpSite w1 = (Throw error, snd outcome)
      /\ fst outcome = Throw error
      /\ siteVersions (snd outcome) = siteVersions w
      /\ exists site',
          sites (snd outcome) !! siteId = Some site'
          /\ site_status site' = provisioning
          /\ wpSiteId site' = wpSiteId site)
  \/ (exists error number w1,
         WordPress.applyThemeAndPlugins wp number w1 = (Throw error, snd outcome)
         /\ fst outcome = Throw error
         /\ siteVersions (snd outcome) = siteVersions w
         /\ exists site',
             sites (snd outcome) !! siteId = Some site'
             /\ site_status site' = generating)
  \/ (exists w1 site1,
         outcome = Jobs.handleGenerate this jobId siteId metadata w1
         /\ sites w1 !! siteId = Some site1
         /\ site_status site1 = generating
         /\ is_Some (wpSiteId site1)
         /\ siteVersions w1 = siteVersions w
         /\ jobs w1 = jobs w).
Proof.
  intros Hsite wp outcome. subst outcome.
  unfold Jobs.handleProvision, Jobs.siteFindUnique.
  run_log. rewrite bind_run.
  rewrite (siteUpdate_run _ _ _ site) by exact Hsite.
  run_read. tables. rewrite lookup_insert_eq. rewrite bind_run.
  match goal with
  | |- context [WordPress.provisionSite ?s ?x ?w0] =>
      destruct (service_run (WordPress.provisionSite s x) w0
                  (provisionSite_same s x))
        as ([result|error] & w2 & Hprovision & (Hj2 & _ & Hs2 & Hv2 & _));
      rewrite Hprovision
  end; tables; cbn [jobs sites siteVersions Jobs.setSites Jobs.setJobLogs]
    in Hj2, Hs2, Hv2.
  2:{ left. do 3 eexists. split; [exact Hprovision|].
      split; [reflexivity|]. split; [exact Hv2|].
      eexists. rewrite Hs2, lookup_insert_eq. easy. }
  run_log. rewrite bind_run.
  rewrite (siteUpdate_run _ _ _
             {| site_name := site_name site; site_status := provisioning;
                wpSiteId := wpSiteId site; wpAdminUrl := wpAdminUrl site;
                wpSiteUrl := wpSiteUrl site;
                currentVersionId := currentVersionId site;
                publishedVersionId := publishedVersionId site;
                site_owner_email := site_owner_email site;
                site_tenant_slug := site_tenant_slug site |});
    [|tables; rewrite Hs2; apply lookup_insert_eq].
  rewrite bind_run.
  match goal with
  | |- context [WordPress.applyThemeAndPlugins ?s ?x ?w0] =>
      destruct (service_run (WordPress.applyThemeAndPlugins s x) w0
                  (applyThemeAndPlugins_same s x))
        as ([[]|error] & w3 & Htheme & (Hj3 & _ & Hs3 & Hv3 & _));
      rewrite Htheme
  end; tables; cbn [jobs sites siteVersions Jobs.setSites Jobs.setJobLogs]
    in Hj3, Hs3, Hv3.
  2:{ right. left. do 3 eexists. split; [exact Htheme|].
      split; [reflexivity|]. split; [congruence|].
      eexists. rewrite Hs3, lookup_insert_eq. easy. }
  run_log. right. right. do 2 eexists. split; [reflexivity|]. tables.
  rewrite Hs3, Hv3, Hj3, Hv2, Hj2, lookup_insert_eq. cbn. eauto.
Qed.

End ProvisionJob.

(** X23: for a site without a row, [handleProvision] fails at its first
    update with Prisma's record-not-found error, having logged one line, so
    that its own [Site not found] is never reached.  For a site with a row:
    when it succeeds, the site is a [draft] with a WordPress site id, and
    its current version is the one version that the job has added; when it
    fails, the site is left [provisioning] with its WordPress site id
    untouched, or [generating], and no version has been added. *)
Theorem provision_job_outcome `{Platform} (this : Jobs.JobsProcessor)
    (jobId siteId : string) (metadata : option Jobs.Metadata) (w : World) :
  let outcome := Jobs.handleProvision this jobId siteId metadata w in
  match sites w !! siteId with
  | None =>
      outcome
      = (Throw Jobs.recordNotFound,
         Jobs.setJobLogs w
           (jobLogs w
            ++ [{| log_jobId := jobId;
                   log_message := "Provisioning WordPress site..." |}]))
  | Some site =>
      exists site',
        sites (snd outcome) !! siteId = Some site'
        /\ match fst outcome with
           | Normal _ =>
               site_status site' = draft
               /\ is_Some (wpSiteId site')
               /\ exists version,
                   siteVersions (snd outcome) = siteVersions w ++ [version]
                   /\ version_siteId version = siteId
                   /\ currentVersionId site' = Some (version_id version)
           | Throw _ =>
               (site_status site' = provisioning
                /\ wpSiteId site' = wpSiteId site
                \/ site_status site' = generating)
               /\ siteVersions (snd outcome) = siteVersions w
           end
  end.
Proof.
  cbv zeta. destruct (sites w !! siteId) as [site|] eqn:Hsite.
  - destruct (handleProvision_cases this jobId siteId metadata w site Hsite)
      as [(error & wpSite & w1 & _ & -> & Hv & site' & Hsite' & Hstatus & Hwp)
         |[(error & number & w1 & _ & -> & Hv & site' & Hsite' & Hstatus)
          |(w1 & site1 & -> & Hsite1 & Hstatus & Hwp & Hv & _)]].
    + exists site'. auto.
    + exists site'. auto.
    + destruct (handleGenerate_cases this jobId siteId metadata w1)
        as [(version & site0 & site' & w' & -> & Hsite0 & Hv' & Hown & Hs & Hdraft
             & Hcurrent & _ & Hwp')
           |(error & w' & -> & Hs & Hv')]; cbn [fst snd].
      * exists site'. rewrite Hs, lookup_insert_eq. split; [reflexivity|].
        split; [exact Hdraft|].
        split; [|exists version; repeat split; congruence].
        rewrite Hwp'. congruence.
      * exists site1. rewrite Hs, Hv'. auto.
  - unfold Jobs.handleProvision. run_log. rewrite bind_run.
    unfold Jobs.siteUpdate at 1. tables. now rewrite Hsite.
Qed.

Section Development.
Context `{Platform}.


End Development.


